(** * ringnet: the peer runtime of [lib/peer.js]

    A shallow embedding of the [Peer] class: the trust handshake and the
    data channel of [receive], the reliable broadcast path of [broadcast]
    with its confirmation retry, the peer list of [getPeerList], the
    discovery queue of [discover] and the handlers that [setupConnection]
    installs on a connection.

    JavaScript objects that the program shares and mutates (the connection
    handles of the transport, on which the program hangs its own fields)
    live in a store indexed by a connection identifier; the peer table
    [self.peers] holds identifiers, as the source holds references.  Every
    handler is a function from a world to an outcome: the world it leaves
    behind and how the call completed (a return value or an exception).
    What the handler asks of the outside (frames written with [sendUTF],
    [close()] calls, events, timers, dials) is appended to a trace.

    Outside the model: the debug logging; what the embedder's event
    handlers do; the completion callbacks of [sendUTF] (a write that fails
    later, and the resend timers of HELO and TRUSTED); the transport's own
    bookkeeping ([connected] is read by the program, never written).  The
    clock reading [now] and the random bytes are arguments of the handler
    that uses them. *)

From Stdlib Require Import ZArith String Ascii List Bool Lia Sorted.
From stdpp Require Import base decidable option list strings pretty.

Local Open Scope string_scope.
Local Open Scope list_scope.

(** ** JavaScript values the program handles *)

(** A [Date] is its time value: milliseconds since the epoch. *)
Abbreviation Date := Z (only parsing).

(** A [Buffer] is represented by its base64 rendering, so that
    [buf.toString('base64')] is the identity. *)
Abbreviation Buffer := string (only parsing).

(** A [NodeRSA] key object, by the text it was imported from. *)
Abbreviation RsaKey := string (only parsing).

Abbreviation conn_id := nat (only parsing).

(** [new Date(new Date().toUTCString())]: the clock cut to whole seconds. *)
Definition utc_seconds (now : Date) : Date := (now / 1000 * 1000)%Z.

(** A value used as an address: a string, [false] (the default of the
    [publicAddress] option) or [null]. *)
Inductive Addr :=
| AddrStr (s : string)
| AddrFalse
| AddrNull.

(** A value used as a port. *)
Inductive PortVal :=
| PortNum (n : Z)
| PortStr (s : string)
| PortNaN
| PortNull.

(** [header.type]: a numeric code or an embedder-defined string. *)
Inductive HType :=
| TNum (n : Z)
| TStr (s : string).

(** [header.confirm]: absent (or not an object), [null], or an object
    whose [hash] and [timestamp] are given when they are strings. *)
Inductive ConfirmField :=
| ConfirmAbsent
| ConfirmNull
| ConfirmObj (hash timestamp : option string).

Module PeerInfo.
(** The fields a peer-list entry has beyond [address] and [signature]. *)
Record t := mk { created : Date; active : Date; trusted : bool }.
End PeerInfo.

Module Candidate.
(** How [JSON.stringify] writes an object of the queue, apart from the
    values below.  [Written]: the members in the order in which peer.js
    writes them itself, [address] then [signature] and, for a peer-list
    entry, [created], [active] and [trusted].  [Unsigned]: [address]
    alone (the object has no [signature], or an undefined one, which
    [JSON.stringify] leaves out).  [Foreign layout signed]: any other
    object, as a peer may send it in its list: the members in another
    order, or members of its own; [layout] tells such texts apart and
    [signed] says whether the object has a [signature] that is not
    undefined. *)
Inductive Form :=
| Written
| Unsigned
| Foreign (layout : nat) (signed : bool).

(** An element of [self.discoveryAddresses].  [signature] is [None] for
    [null] and for undefined, which the program reads alike.  [info] is
    present when the object is a peer-list entry (gossip pushes those
    objects as they are).  Two candidates have the same [JSON.stringify]
    text exactly when they are equal as records. *)
Record t := make {
  address : Addr;
  signature : option string;
  info : option PeerInfo.t;
  form : Form
}.

(** The object literals of peer.js: [{ address, signature }], and the
    entry of [getPeerList]. *)
Definition mk (address : Addr) (signature : option string) (info : option PeerInfo.t) : t :=
  make address signature info Written.

(** [peer.address = a]: the other members and their order stay. *)
Definition set_address (a : Addr) (d : t) : t := make a (signature d) (info d) (form d).

(** Reading [peer.signature] gives undefined. *)
Definition unsigned (d : t) : bool :=
  match form d with
  | Written => false
  | Unsigned => true
  | Foreign _ signed => negb signed
  end.
End Candidate.

Module Listening.
(** [message.body.listening] when [typeof] gives ["object"]: an object,
    with the two members the program reads when it has them, or [null]. *)
Inductive t :=
| mk (address : option Addr) (port : option PortVal)
| null.
End Listening.

Module TrustedBody.
(** The body of a TRUSTED message; a field is [None] when the object
    has no such own property (or not one of the expected type:
    [listening] is [None] also for a value that is not an object, and
    [Some Listening.null] for [null], which is one). *)
Record t := mk {
  key : option string;
  iv : option string;
  peers : option (list Candidate.t);
  listening : option Listening.t;
  requireConfirmation : option bool
}.
End TrustedBody.

Inductive Body :=
| BodyEmpty
| BodyHelo (publicKey signature : option string)
| BodyTrusted (t : TrustedBody.t)
| BodyPeers (peers : list Candidate.t)
| BodyString (s : string)
| BodyJson (j : string).

Module Header.
Record t := mk {
  type : HType;
  hash : string;
  timestamp : Date;
  signature : option string;
  confirm : ConfirmField
}.

Definition set_type (v : HType) (h : t) : t :=
  mk v (hash h) (timestamp h) (signature h) (confirm h).
Definition set_signature (v : option string) (h : t) : t :=
  mk (type h) (hash h) (timestamp h) v (confirm h).
Definition set_confirm (v : ConfirmField) (h : t) : t :=
  mk (type h) (hash h) (timestamp h) (signature h) v.
End Header.

(** An instance of the [PeerMessage] class of [lib/message.js]. *)
Record PeerMessage := mkMessage { header : Header.t; body : Body }.

Definition set_header (f : Header.t -> Header.t) (m : PeerMessage) : PeerMessage :=
  mkMessage (f (header m)) (body m).
Definition set_body (b : Body) (m : PeerMessage) : PeerMessage :=
  mkMessage (header m) b.

(** What [broadcast] pushes on [unconfirmedMessages] and hands to
    [new PeerMessage({ message })]: a [PeerMessage] or a string. *)
Inductive Payload :=
| PM (m : PeerMessage)
| Raw (s : string).

Module UrlObject.
(** The result of [url.parse]. *)
Record t := mk {
  protocol : option string;
  hostname : option string;
  host : option string;
  href : string;
  port : option string
}.
End UrlObject.

Module ParsedAddress.
(** The object [discover] hands to [url.format]; [slashes] is always
    [true] and [host] always [null]. *)
Record t := mk { protocol : option string; hostname : option string; port : PortVal }.
Definition set_port (v : PortVal) (p : t) : t := mk (protocol p) (hostname p) v.
End ParsedAddress.

Global Instance Addr_eq_dec : EqDecision Addr.
Proof. solve_decision. Defined.
Global Instance PortVal_eq_dec : EqDecision PortVal.
Proof. solve_decision. Defined.
Global Instance HType_eq_dec : EqDecision HType.
Proof. solve_decision. Defined.
Global Instance PeerInfo_eq_dec : EqDecision PeerInfo.t.
Proof. solve_decision. Defined.
Global Instance Form_eq_dec : EqDecision Candidate.Form.
Proof. solve_decision. Defined.
Global Instance Candidate_eq_dec : EqDecision Candidate.t.
Proof. solve_decision. Defined.

(** ** The libraries the program is linked against

    [lib/message.js] (the [PeerMessage] class), node-rsa, node's [crypto]
    and [url] modules and a few JavaScript built-ins are not part of
    [lib/peer.js].  The program is modelled over any implementation of
    them; a function that can throw returns [None] when it does. *)
Class Runtime := {
  (** [PeerMessage.PEER_MESSAGE_TYPES] *)
  type_helo : Z;
  type_trusted : Z;
  type_confirm : Z;
  type_peers : Z;
  type_message : Z;
  (** [PeerMessage.PEER_MESSAGE_STRING(type)] *)
  PEER_MESSAGE_STRING : HType -> string;
  (** [new PeerMessage({ type, body })] at a given clock reading *)
  PeerMessage_new : option HType -> option Body -> Date -> PeerMessage;
  (** [new PeerMessage({ message })] *)
  PeerMessage_of : Payload -> option PeerMessage;
  (** [s == n] for a string [s] and a number [n] *)
  loose_eq_string_number : string -> Z -> bool;
  (** [d.toString()] and [d.toISOString()] *)
  Date_toString : Date -> string;
  Date_toISOString : Date -> string;
  JSON_stringify : Body -> string;
  JSON_parse : string -> option Body;
  parseInt : string -> PortVal;
  (** [new NodeRSA(pem)] and [key.exportKey("public")] *)
  NodeRSA_new : option string -> option RsaKey;
  exportKey_public : RsaKey -> option string;
  (** [new Buffer(s, 'base64')], [Buffer.from(s, 'base64')] *)
  Buffer_from_base64 : option string -> option Buffer;
  (** [key.verify(data, signature)] *)
  rsa_verify : RsaKey -> option string -> Buffer -> option bool;
  rsa_encrypt : RsaKey -> Buffer -> option Buffer;
  rsa_decrypt : RsaKey -> Buffer -> option Buffer;
  rsa_sign : RsaKey -> string -> option Buffer;
  (** aes-256-cbc with the given key and iv (either may be undefined) *)
  aes_encrypt : option Buffer -> option Buffer -> string -> option string;
  aes_decrypt : option Buffer -> option Buffer -> Buffer -> option string;
  (** [url.parse(address)] *)
  url_parse : string -> option UrlObject.t;
  url_format : ParsedAddress.t -> string
}.

(** ** The store *)

Module Connection.
(** The fields the program reads and writes on a transport connection.
    A field the program adds later is [None] until it is assigned
    ([hasOwnProperty] is [false]). *)
Record t := mk {
  connected : bool;
  remoteAddress : string;
  remotePort : Z;
  trusted : bool;
  unconfirmedMessages : list Payload;
  requireConfirmation : bool;
  originalAddress : option Addr;
  originalPort : option PortVal;
  peerPublicKey : option RsaKey;
  peerPublicKeySignature : option Buffer;
  iv : option Buffer;
  key : option Buffer;
  peerIv : option Buffer;
  peerKey : option Buffer;
  active : option Date
}.

Definition set_trusted (v : bool) (c : t) : t :=
  mk (connected c) (remoteAddress c) (remotePort c) v (unconfirmedMessages c)
     (requireConfirmation c) (originalAddress c) (originalPort c) (peerPublicKey c)
     (peerPublicKeySignature c) (iv c) (key c) (peerIv c) (peerKey c) (active c).
Definition set_unconfirmedMessages (v : list Payload) (c : t) : t :=
  mk (connected c) (remoteAddress c) (remotePort c) (trusted c) v
     (requireConfirmation c) (originalAddress c) (originalPort c) (peerPublicKey c)
     (peerPublicKeySignature c) (iv c) (key c) (peerIv c) (peerKey c) (active c).
Definition set_requireConfirmation (v : bool) (c : t) : t :=
  mk (connected c) (remoteAddress c) (remotePort c) (trusted c) (unconfirmedMessages c)
     v (originalAddress c) (originalPort c) (peerPublicKey c)
     (peerPublicKeySignature c) (iv c) (key c) (peerIv c) (peerKey c) (active c).
Definition set_originalAddress (v : option Addr) (c : t) : t :=
  mk (connected c) (remoteAddress c) (remotePort c) (trusted c) (unconfirmedMessages c)
     (requireConfirmation c) v (originalPort c) (peerPublicKey c)
     (peerPublicKeySignature c) (iv c) (key c) (peerIv c) (peerKey c) (active c).
Definition set_originalPort (v : option PortVal) (c : t) : t :=
  mk (connected c) (remoteAddress c) (remotePort c) (trusted c) (unconfirmedMessages c)
     (requireConfirmation c) (originalAddress c) v (peerPublicKey c)
     (peerPublicKeySignature c) (iv c) (key c) (peerIv c) (peerKey c) (active c).
(** The four assignments of a verified HELO. *)
Definition set_session (pk : RsaKey) (sg iv' key' : Buffer) (c : t) : t :=
  mk (connected c) (remoteAddress c) (remotePort c) true (unconfirmedMessages c)
     (requireConfirmation c) (originalAddress c) (originalPort c) (Some pk)
     (Some sg) (Some iv') (Some key') (peerIv c) (peerKey c) (active c).
Definition set_peerIv (v : option Buffer) (c : t) : t :=
  mk (connected c) (remoteAddress c) (remotePort c) (trusted c) (unconfirmedMessages c)
     (requireConfirmation c) (originalAddress c) (originalPort c) (peerPublicKey c)
     (peerPublicKeySignature c) (iv c) (key c) v (peerKey c) (active c).
Definition set_peerKey (v : option Buffer) (c : t) : t :=
  mk (connected c) (remoteAddress c) (remotePort c) (trusted c) (unconfirmedMessages c)
     (requireConfirmation c) (originalAddress c) (originalPort c) (peerPublicKey c)
     (peerPublicKeySignature c) (iv c) (key c) (peerIv c) v (active c).
Definition set_active (v : option Date) (c : t) : t :=
  mk (connected c) (remoteAddress c) (remotePort c) (trusted c) (unconfirmedMessages c)
     (requireConfirmation c) (originalAddress c) (originalPort c) (peerPublicKey c)
     (peerPublicKeySignature c) (iv c) (key c) (peerIv c) (peerKey c) v.
End Connection.

Module PeerEntry.
(** A row of [self.peers]: [{ request, connection, created, active }]. *)
Record t := mk { connection : conn_id; created : Date; active : Date }.
Definition set_active (v : Date) (p : t) : t := mk (connection p) (created p) v.
End PeerEntry.

Module Peer.
(** The fields of [self] the modelled methods use. *)
Record t := mk {
  peers : list PeerEntry.t;
  discoveryAddresses : list Candidate.t;
  discovering : bool;
  port : PortVal;
  publicAddress : Addr;
  range : option (list Z);
  requireConfirmation : bool;
  privateKey : RsaKey;
  publicKey : RsaKey;
  ringPublicKey : RsaKey;
  signature : Buffer
}.

Definition set_peers (v : list PeerEntry.t) (s : t) : t :=
  mk v (discoveryAddresses s) (discovering s) (port s) (publicAddress s) (range s)
     (requireConfirmation s) (privateKey s) (publicKey s) (ringPublicKey s) (signature s).
Definition set_discoveryAddresses (v : list Candidate.t) (s : t) : t :=
  mk (peers s) v (discovering s) (port s) (publicAddress s) (range s)
     (requireConfirmation s) (privateKey s) (publicKey s) (ringPublicKey s) (signature s).
Definition set_discovering (v : bool) (s : t) : t :=
  mk (peers s) (discoveryAddresses s) v (port s) (publicAddress s) (range s)
     (requireConfirmation s) (privateKey s) (publicKey s) (ringPublicKey s) (signature s).
End Peer.

Module Accepted.
(** What the transport hands over with a new connection.  A dialed
    connection comes with [originalAddress] and [originalPort] already
    assigned by [discover]; an accepted one comes with its request. *)
Record t := mk {
  remoteAddress : string;
  remotePort : Z;
  originalAddress : option Addr;
  originalPort : option PortVal;
  forwardedFor : option string;
  requestRemoteAddress : option string
}.
End Accepted.

(** What a handler asks of the transport, the event emitter and the timers. *)
Inductive Task :=
| Retry (c : conn_id) (msg : PeerMessage)
| RestartDiscovery.

Inductive Effect :=
| Send (c : conn_id) (frame : PeerMessage)
| Close (c : conn_id)
| Emit (name : string) (c : option conn_id) (m : option PeerMessage)
| Dial (url : string) (candidate : Candidate.t) (target : ParsedAddress.t)
| SetTimeout (ms : Z) (task : Task).

Record World := mkWorld {
  self : Peer.t;
  heap : list Connection.t;
  trace : list Effect
}.

Definition set_self (f : Peer.t -> Peer.t) (w : World) : World :=
  mkWorld (f (self w)) (heap w) (trace w).
Definition update_connection (c : conn_id) (f : Connection.t -> Connection.t) (w : World) : World :=
  mkWorld (self w) (alter f c (heap w)) (trace w).
Definition effect (e : Effect) (w : World) : World :=
  mkWorld (self w) (heap w) (trace w ++ [e]).

Inductive Value := VFalse | VUndefined | VThis.

(** How a call completes.  [ThenDiscover] stands for a handler whose last
    statement is the call [this.discover()], still to be run. *)
Inductive Completion :=
| Returned (v : Value)
| Thrown
| ThenDiscover.

(** The argument of [broadcast]: a [PeerMessage], a string, or an options
    object [{ message, connection }] (a missing or falsy property is
    [None]). *)
Inductive MessageArg :=
| ArgPeerMessage (m : PeerMessage)
| ArgString (s : string)
| ArgOther (json : option string).

Inductive BroadcastOptions :=
| OptPeerMessage (m : PeerMessage)
| OptString (s : string)
| OptObject (message : option MessageArg) (connection : option conn_id).

(** The outcome of a call: the world it leaves and how it completed. *)
Definition Outcome : Type := World * Completion.

(** ** [isOwnSignature], [inDiscoveryAddresses], [isConnectedTo] *)

Definition isOwnSignature (s : Peer.t) (sg : option string) : bool :=
  match sg with
  | None => false
  | Some x => if decide (x = "") then false else bool_decide (x = Peer.signature s)
  end.

(** The loop compares [JSON.stringify] texts: the values of the members
    and the way the object is written. *)
Definition inDiscoveryAddresses (s : Peer.t) (peer : Candidate.t) : bool :=
  existsb (fun d => bool_decide (d = peer)) (Peer.discoveryAddresses s).

Definition has_signature (w : World) (sg : string) (p : PeerEntry.t) : bool :=
  match heap w !! PeerEntry.connection p with
  | Some conn =>
      match Connection.peerPublicKeySignature conn with
      | Some b => bool_decide (b = sg)
      | None => false
      end
  | None => false
  end.

Definition isConnectedTo (w : World) (peer : Candidate.t) : bool :=
  match Candidate.signature peer with
  | None => false
  | Some sg =>
      bool_decide (Peer.signature (self w) = sg)
      || existsb (has_signature w sg) (Peer.peers (self w))
  end.

(** ** Strings: the three regular expressions and the template literals

    A string is a sequence of 8-bit characters; the line terminators that
    the dot of a regular expression refuses are line feed and carriage
    return. *)

Definition is_line_terminator (a : ascii) : bool :=
  bool_decide (a = "010"%char) || bool_decide (a = "013"%char).

Definition is_digit (a : ascii) : bool :=
  let n := nat_of_ascii a in ((48 <=? n)%nat && (n <=? 57)%nat).

Definition is_f (a : ascii) : bool :=
  bool_decide (a = "f"%char) || bool_decide (a = "F"%char).

Fixpoint no_line_terminator (s : string) : bool :=
  match s with
  | EmptyString => true
  | String a r => negb (is_line_terminator a) && no_line_terminator r
  end.

Fixpoint contains (sub s : string) : bool :=
  String.prefix sub s ||
  match s with
  | EmptyString => false
  | String _ r => contains sub r
  end.

(** [s.replace(re, "$1")] for the source's pattern: a leading [::ffff:]
    in either case, followed by the rest of the line up to the end of
    the string; the rest is what remains. *)
Definition strip_ffff (s : string) : string :=
  match s with
  | String c1 (String c2 (String f1 (String f2 (String f3 (String f4 (String c3 rest)))))) =>
      if bool_decide (c1 = ":"%char) && bool_decide (c2 = ":"%char)
         && is_f f1 && is_f f2 && is_f f3 && is_f f4
         && bool_decide (c3 = ":"%char) && no_line_terminator rest
      then rest else s
  | _ => s
  end.

(** The source's test for a scheme: a one-line string with [://] in it. *)
Definition hasProtocol (s : string) : bool :=
  contains "://" s && no_line_terminator s.

Fixpoint skip_digits (l : list ascii) : nat * list ascii :=
  match l with
  | a :: r => if is_digit a then let '(n, t) := skip_digits r in (S n, t) else (O, l)
  | [] => (O, [])
  end.

(** The source's test for a port: the string ends in a colon followed
    by at least one digit, and nothing before the colon breaks the line. *)
Definition hasPort (s : string) : bool :=
  match skip_digits (rev (list_ascii_of_string s)) with
  | (S _, a :: before) =>
      bool_decide (a = ":"%char) && forallb (fun x => negb (is_line_terminator x)) before
  | _ => false
  end.

(** [`${p}`] for a port value that may be [undefined]. *)
Definition show_port (p : option PortVal) : string :=
  match p with
  | Some (PortNum n) => pretty n
  | Some (PortStr s) => s
  | Some PortNaN => "NaN"
  | Some PortNull => "null"
  | None => "undefined"
  end.

(** [a || b] on values that are strings or [null]. *)
Definition js_or (a b : option string) : option string :=
  match a with
  | Some s => if decide (s = "") then b else a
  | None => b
  end.

Section Program.

Context {RT : Runtime}.

(** [t == code] and [t === code] for a header type and a numeric code. *)
Definition loose_is (t : HType) (code : Z) : bool :=
  match t with
  | TNum n => (n =? code)%Z
  | TStr s => loose_eq_string_number s code
  end.

Definition strict_is (t : HType) (code : Z) : bool :=
  match t with
  | TNum n => (n =? code)%Z
  | TStr _ => false
  end.

(** ** [getPeerList] *)

(** The address of a peer-list entry. *)
Definition peer_list_address (a : string) (p : option PortVal) : string :=
  strip_ffff a ++ (if contains ":" a then "" else ":" ++ show_port p).

(** One turn of the loop: [None] when it throws (the address is not a
    string, so it has no [slice]), [Some None] when the peer is left out. *)
Definition peer_list_entry (w : World) (omit : list string) (p : PeerEntry.t)
  : option (option Candidate.t) :=
  match heap w !! PeerEntry.connection p with
  | None => None
  | Some conn =>
      match Connection.peerPublicKeySignature conn, Connection.originalAddress conn with
      | Some sg, Some a =>
          if bool_decide (sg ∈ omit) then Some None
          else
            match a with
            | AddrStr s =>
                Some (Some (Candidate.mk
                  (AddrStr (peer_list_address s (Connection.originalPort conn)))
                  (Some sg)
                  (Some (PeerInfo.mk (PeerEntry.created p) (PeerEntry.active p)
                                     (Connection.trusted conn)))))
            | _ => None
            end
      | _, _ => Some None
      end
  end.

Fixpoint getPeerList_loop (w : World) (omit : list string) (ps : list PeerEntry.t)
  (peerList : list Candidate.t) : option (list Candidate.t) :=
  match ps with
  | [] => Some peerList
  | p :: rest =>
      match peer_list_entry w omit p with
      | None => None
      | Some None => getPeerList_loop w omit rest peerList
      | Some (Some e) => getPeerList_loop w omit rest (peerList ++ [e])
      end
  end.

(** [signaturesToOmit] is [None] when the argument is missing or not an
    array; the result is [None] when the call throws. *)
Definition getPeerList (w : World) (signaturesToOmit : option (list string))
  : option (list Candidate.t) :=
  getPeerList_loop w (default [] signaturesToOmit) (Peer.peers (self w)) [].

(** ** [setupConnection] and the handlers it installs *)


Definition initial_address (a : Accepted.t) : Addr :=
  match Accepted.originalAddress a with
  | Some x => x
  | None =>
      match Accepted.forwardedFor a with
      | Some h => AddrStr h
      | None =>
          match Accepted.requestRemoteAddress a with
          | Some r => AddrStr r
          | None => AddrStr (strip_ffff (Accepted.remoteAddress a))
          end
      end
  end.

Definition initial_port (a : Accepted.t) : PortVal :=
  match Accepted.originalPort a with
  | Some p => p
  | None => PortNum (Accepted.remotePort a)
  end.

Definition new_connection (a : Accepted.t) : Connection.t :=
  Connection.mk true (Accepted.remoteAddress a) (Accepted.remotePort a)
    false [] false (Some (initial_address a)) (Some (initial_port a))
    None None None None None None None.

(** The HELO that [setupConnection] writes; [None] when exporting the
    public key throws (the source logs the stack and goes on). *)
Definition helo_message (s : Peer.t) (now : Date) : option PeerMessage :=
  match exportKey_public (Peer.publicKey s) with
  | Some pem =>
      Some (set_body (BodyHelo (Some pem) (Some (Peer.signature s)))
                     (PeerMessage_new None None now))
  | None => None
  end.

(** [setupConnection({ connection, request })]: the connection enters the
    store under a fresh identifier, a row is pushed on [self.peers], and a
    HELO is written. *)
Definition setupConnection (w : World) (now : Date) (a : Accepted.t) : World * conn_id :=
  let c := length (heap w) in
  let created := utc_seconds now in
  let w1 := mkWorld
    (Peer.set_peers (Peer.peers (self w) ++ [PeerEntry.mk c created created]) (self w))
    (heap w ++ [new_connection a])
    (trace w) in
  match helo_message (self w) now with
  | Some helo => (effect (Send c helo) w1, c)
  | None => (w1, c)
  end.

(** [connection.on('error', ...)] *)
Definition on_error (w : World) (now : Date) (c : conn_id) : World :=
  update_connection c
    (fun x => Connection.set_active (Some (utc_seconds now)) (Connection.set_trusted false x)) w.

(** [connection.on('close', function(code, description) ...)] *)
Definition on_close (w : World) (now : Date) (c : conn_id) (code : Z) : Outcome :=
  let w1 := update_connection c
    (fun x => Connection.set_active (Some (utc_seconds now)) (Connection.set_trusted false x)) w in
  match heap w1 !! c with
  | None => (w1, Thrown)
  | Some conn =>
      if (code =? 1000)%Z then (w1, Returned VUndefined)
      else
        match Connection.peerPublicKeySignature conn with
        | None => (w1, Thrown)
        | Some sg =>
            let d := Candidate.mk (default AddrNull (Connection.originalAddress conn))
                                  (Some sg) None in
            let w2 := set_self (fun s =>
              Peer.set_discoveryAddresses (Peer.discoveryAddresses s ++ [d]) s) w1 in
            if Peer.discovering (self w2) then (w2, Returned VUndefined)
            else (effect (SetTimeout 60000 RestartDiscovery) w2, Returned VUndefined)
        end
  end.

(** ** [broadcast] *)

(** The destructuring at the head of [broadcast]. *)
Definition broadcast_message (now : Date) (options : BroadcastOptions) : option MessageArg :=
  match options with
  | OptPeerMessage m => Some (ArgPeerMessage m)
  | OptString s =>
      Some (ArgPeerMessage
              (PeerMessage_new (Some (TNum type_message)) (Some (BodyString s)) now))
  | OptObject message _ => message
  end.

Definition broadcast_connection (options : BroadcastOptions) : option conn_id :=
  match options with
  | OptObject _ connection => connection
  | _ => None
  end.

(** The two early exits on the message: an empty string is falsy, and a
    value that is neither a string nor a [PeerMessage] is replaced by
    [JSON.stringify({ message })] ([ArgOther None] when that throws). *)
Definition as_payload (a : MessageArg) : option Payload :=
  match a with
  | ArgPeerMessage m => Some (PM m)
  | ArgString s => if decide (s = "") then None else Some (Raw s)
  | ArgOther json => Raw <$> json
  end.

(** Signing and encrypting [messageCopyToSend] inside the [try]: the copy
    as the block leaves it, and whether the block reached [sendUTF]. *)
Definition seal (s : Peer.t) (conn : Connection.t) (copy : PeerMessage) : PeerMessage * bool :=
  match rsa_sign (Peer.privateKey s) (JSON_stringify (body copy)) with
  | None => (copy, false)
  | Some sg =>
      let signed := set_header (Header.set_signature (Some sg)) copy in
      match aes_encrypt (Connection.key conn) (Connection.iv conn)
                        (JSON_stringify (body signed)) with
      | None => (signed, false)
      | Some enc => (set_body (BodyString enc) signed, true)
      end
  end.

(** One turn of [for(let p of toSendTo)].  The timer closure holds the
    copy itself, so the task carries the copy as the turn leaves it. *)
Definition broadcast_to (message : Payload) (w : World) (c : conn_id) : Outcome :=
  match heap w !! c with
  | None => (w, Thrown)
  | Some conn =>
      if Connection.connected conn then
        if Connection.trusted conn then
          match PeerMessage_of message with
          | None => (w, Thrown)
          | Some messageCopyToSend =>
              let '(final, sent) := seal (self w) conn messageCopyToSend in
              let w1 :=
                if Peer.requireConfirmation (self w)
                   && negb (strict_is (Header.type (header messageCopyToSend)) type_confirm)
                then effect (SetTimeout 30000 (Retry c final)) w
                else w in
              let w2 := update_connection c (fun x =>
                Connection.set_unconfirmedMessages
                  (Connection.unconfirmedMessages x ++ [message]) x) w1 in
              (if sent then effect (Send c final) w2 else w2, Returned VUndefined)
          end
        else
          match message with
          | Raw _ => (w, Thrown)
          | PM m =>
              if loose_is (Header.type (header m)) type_helo
              then (effect (Send c m) w, Returned VUndefined)
              else (w, Returned VUndefined)
          end
      else (w, Returned VUndefined)
  end.

Fixpoint broadcast_loop (message : Payload) (toSendTo : list conn_id) (w : World) : Outcome :=
  match toSendTo with
  | [] => (w, Returned VThis)
  | c :: rest =>
      match broadcast_to message w c with
      | (w', Returned _) => broadcast_loop message rest w'
      | (w', other) => (w', other)
      end
  end.

(** [toSendTo]: every row of the table, or the one connection given. *)
Definition targets (w : World) (options : BroadcastOptions) : list conn_id :=
  match broadcast_connection options with
  | None => map PeerEntry.connection (Peer.peers (self w))
  | Some c => [c]
  end.

Definition broadcast (w : World) (now : Date) (options : BroadcastOptions) : Outcome :=
  match Peer.peers (self w) with
  | [] => (w, Returned VFalse)
  | _ :: _ =>
      match broadcast_message now options ≫= as_payload with
      | None => (w, Returned VFalse)
      | Some message => broadcast_loop message (targets w options) w
      end
  end.

(** ** The confirmation retry *)

(** The test of the timer's loop on one element of [unconfirmedMessages]. *)
Definition retry_match (e msg : PeerMessage) : bool :=
  bool_decide (Header.hash (header e) = Header.hash (header msg))
  && bool_decide (Date_toString (Header.timestamp (header e))
                  = Date_toString (Header.timestamp (header msg))).

(** The timer's loop: [found], or [None] when an element has no header. *)
Fixpoint retry_scan (l : list Payload) (msg : PeerMessage) : option bool :=
  match l with
  | [] => Some false
  | Raw _ :: _ => None
  | PM e :: rest => if retry_match e msg then Some true else retry_scan rest msg
  end.

(** The function handed to [setTimeout(..., 30000)], when it runs: it
    has no [return], so what [self.broadcast(msg)] returns is dropped. *)
Definition fire_retry (w : World) (now : Date) (c : conn_id) (msg : PeerMessage) : Outcome :=
  match heap w !! c with
  | None => (w, Thrown)
  | Some conn =>
      match retry_scan (Connection.unconfirmedMessages conn) msg with
      | None => (w, Thrown)
      | Some true =>
          match broadcast w now (OptPeerMessage msg) with
          | (w', Returned _) => (w', Returned VUndefined)
          | (w', other) => (w', other)
          end
      | Some false => (w, Returned VUndefined)
      end
  end.

(** ** [receive] *)

(** The loop that stamps [active] on the first row of [self.peers] whose
    connection has the same [originalAddress]. *)
Fixpoint touch_active (w : World) (a : option Addr) (stamp : Date) (ps : list PeerEntry.t)
  : list PeerEntry.t :=
  match ps with
  | [] => []
  | p :: rest =>
      match a, heap w !! PeerEntry.connection p ≫= Connection.originalAddress with
      | Some x, Some y =>
          if decide (x = y) then PeerEntry.set_active stamp p :: rest
          else p :: touch_active w a stamp rest
      | _, _ => p :: touch_active w a stamp rest
      end
  end.

Definition stamp_active (w : World) (now : Date) (conn : Connection.t) : World :=
  set_self (fun s =>
    Peer.set_peers
      (touch_active w (Connection.originalAddress conn) (utc_seconds now) (Peer.peers s)) s) w.

(** What the [try] block of the HELO branch establishes. *)
Inductive HeloCheck :=
| HeloCaught
| HeloSelf
| HeloChecked (peerPublicKey : RsaKey) (peerPublicKeySignature : Buffer) (keyIsSigned : bool).

Definition helo_fields (b : Body) : option string * option string :=
  match b with
  | BodyHelo publicKey signature => (publicKey, signature)
  | _ => (None, None)
  end.

Definition helo_check (s : Peer.t) (b : Body) : HeloCheck :=
  let '(publicKey, signature) := helo_fields b in
  match NodeRSA_new publicKey with
  | None => HeloCaught
  | Some peerPublicKey =>
      match Buffer_from_base64 signature with
      | None => HeloCaught
      | Some peerPublicKeySignature =>
          if isOwnSignature s (Some peerPublicKeySignature) then HeloSelf
          else
            match rsa_verify (Peer.ringPublicKey s) publicKey peerPublicKeySignature with
            | None => HeloCaught
            | Some keyIsSigned => HeloChecked peerPublicKey peerPublicKeySignature keyIsSigned
            end
      end
  end.

(** The verified HELO: the connection is marked, and TRUSTED is written. *)
Definition helo_trust (w : World) (now : Date) (rnd_iv rnd_key : Buffer) (c : conn_id)
  (peerPublicKey : RsaKey) (peerPublicKeySignature : Buffer) : Outcome :=
  let w1 := update_connection c
    (Connection.set_session peerPublicKey peerPublicKeySignature rnd_iv rnd_key) w in
  match rsa_encrypt peerPublicKey rnd_iv with
  | None => (w1, Thrown)
  | Some encryptedIV =>
  match rsa_encrypt peerPublicKey rnd_key with
  | None => (w1, Thrown)
  | Some encryptedKey =>
  match getPeerList w1 (Some [peerPublicKeySignature]) with
  | None => (w1, Thrown)
  | Some knownPeers =>
      let b := BodyTrusted (TrustedBody.mk (Some encryptedKey) (Some encryptedIV)
        (Some knownPeers)
        (Some (Listening.mk (Some (Peer.publicAddress (self w1)))
                            (Some (Peer.port (self w1)))))
        (Some (Peer.requireConfirmation (self w1)))) in
      let trusted := set_body b
        (set_header (Header.set_type (TNum type_trusted)) (PeerMessage_new None None now)) in
      match rsa_sign (Peer.privateKey (self w1)) (JSON_stringify b) with
      | None => (w1, Thrown)
      | Some sg =>
          (effect (Send c (set_header (Header.set_signature (Some sg)) trusted)) w1,
           Returned VUndefined)
      end
  end end end.

Definition receive_helo (w : World) (now : Date) (rnd_iv rnd_key : Buffer) (c : conn_id)
  (m : PeerMessage) : Outcome :=
  match helo_check (self w) (body m) with
  | HeloCaught => (w, Returned VFalse)
  | HeloSelf => (effect (Close c) w, Returned VUndefined)
  | HeloChecked pk sg true => helo_trust w now rnd_iv rnd_key c pk sg
  | HeloChecked _ _ false => (w, Returned VUndefined)
  end.

(** The three checks of gossip intake and of port expansion, and the push. *)
Definition offer (w : World) (d : Candidate.t) : World :=
  if negb (inDiscoveryAddresses (self w) d)
     && negb (isConnectedTo w d)
     && negb (isOwnSignature (self w) (Candidate.signature d))
  then set_self (fun s => Peer.set_discoveryAddresses (Peer.discoveryAddresses s ++ [d]) s) w
  else w.

(** The loop over [message.body.peers]: the world it reaches, and [false]
    when it stops on an entry whose address is not a string (the pushes
    made before it stay). *)
Fixpoint gossip (w : World) (peers : list Candidate.t) : World * bool :=
  match peers with
  | [] => (w, true)
  | d :: rest =>
      match Candidate.address d with
      | AddrStr a =>
          let a' := if String.prefix "::ffff:" a
                    then substring 7 (String.length a - 7) a else a in
          gossip (offer w (Candidate.set_address (AddrStr a') d)) rest
      | _ => (w, false)
      end
  end.

Definition reported_port (p : PortVal) : PortVal :=
  match p with
  | PortNum n => PortNum n
  | PortStr s => parseInt s
  | _ => PortNaN
  end.

(** The block on [message.body.listening]; for [null] nothing is
    assigned (the first [hasOwnProperty] throws). *)
Definition record_listening (l : option Listening.t) (x : Connection.t) : Connection.t :=
  match l with
  | Some (Listening.mk address port) =>
      let x1 := match address with
                | Some a => Connection.set_originalAddress (Some a) x
                | None => x
                end in
      match port with
      | Some p => Connection.set_originalPort (Some (reported_port p)) x1
      | None => x1
      end
  | _ => x
  end.

(** [message.body.listening.hasOwnProperty("address")] throws on [null]. *)
Definition listening_throws (l : option Listening.t) : bool :=
  match l with
  | Some Listening.null => true
  | _ => false
  end.

(** The TRUSTED branch.  The session key and iv are decrypted inside the
    [try]; [requireConfirmation] and [listening] are read next, outside
    it, where a [listening] that is [null] throws; the peers come last. *)
Definition receive_trusted (w : World) (c : conn_id) (m : PeerMessage) : Outcome :=
  match body m with
  | BodyTrusted t =>
      match TrustedBody.iv t, TrustedBody.key t with
      | Some iv64, Some key64 =>
          match Buffer_from_base64 (Some iv64) ≫= rsa_decrypt (Peer.privateKey (self w)) with
          | None => (w, Returned VFalse)
          | Some peerIv =>
              let w1 := update_connection c (Connection.set_peerIv (Some peerIv)) w in
              match Buffer_from_base64 (Some key64) ≫= rsa_decrypt (Peer.privateKey (self w)) with
              | None => (w1, Returned VFalse)
              | Some peerKey =>
                  let w2 := update_connection c (Connection.set_peerKey (Some peerKey)) w1 in
                  let w3 := effect (Emit "connection" (Some c) None) w2 in
                  let w4 := update_connection c (fun x =>
                    record_listening (TrustedBody.listening t)
                      (match TrustedBody.requireConfirmation t with
                       | Some b => Connection.set_requireConfirmation b x
                       | None => x
                       end)) w3 in
                  if listening_throws (TrustedBody.listening t) then (w4, Thrown)
                  else
                  match TrustedBody.peers t with
                  | None => (w4, Returned VUndefined)
                  | Some l =>
                      match gossip w4 l with
                      | (w5, false) => (w5, Thrown)
                      | (w5, true) =>
                          if (length (Peer.discoveryAddresses (self w4))
                              <? length (Peer.discoveryAddresses (self w5)))%nat
                          then (w5, ThenDiscover)
                          else (w5, Returned VUndefined)
                      end
                  end
              end
          end
      | _, _ => (w, Returned VFalse)
      end
  | _ => (w, Returned VFalse)
  end.

(** The test of the CONFIRM loop on one element of [unconfirmedMessages]. *)
Definition confirm_match (e : PeerMessage) (hash timestamp : string) : bool :=
  bool_decide (Header.hash (header e) = hash)
  && bool_decide (Date_toISOString (Header.timestamp (header e)) = timestamp).

(** [for(let i = length-1; i >= 0; i--)], entered with [n = i + 1]:
    the list after the [splice] of the first match met, the list itself
    when there is none, [None] when an element met has no header. *)
Fixpoint confirm_loop (n : nat) (hash timestamp : string) (l : list Payload)
  : option (list Payload) :=
  match n with
  | O => Some l
  | S i =>
      match l !! i with
      | Some (PM e) =>
          if confirm_match e hash timestamp then Some (delete i l)
          else confirm_loop i hash timestamp l
      | _ => None
      end
  end.

Definition receive_confirm (w : World) (c : conn_id) (conn : Connection.t) (m : PeerMessage)
  : Outcome :=
  if negb (Peer.requireConfirmation (self w)) then (w, Returned VUndefined)
  else
    match Header.confirm (header m) with
    | ConfirmNull => (w, Thrown)
    | ConfirmObj (Some hash) (Some timestamp) =>
        let l := Connection.unconfirmedMessages conn in
        match confirm_loop (length l) hash timestamp l with
        | None => (w, Thrown)
        | Some l' =>
            (update_connection c (Connection.set_unconfirmedMessages l') w, Returned VUndefined)
        end
    | _ => (w, Returned VUndefined)
    end.

Definition receive_peers (w : World) (now : Date) (c : conn_id) : Outcome :=
  match getPeerList w None with
  | None => (w, Thrown)
  | Some l =>
      let b := BodyPeers l in
      let peers := set_body b
        (set_header (Header.set_type (TNum type_peers)) (PeerMessage_new None None now)) in
      match rsa_sign (Peer.privateKey (self w)) (JSON_stringify b) with
      | None => (w, Thrown)
      | Some sg =>
          (effect (Send c (set_header (Header.set_signature (Some sg)) peers)) w,
           Returned VUndefined)
      end
  end.

Definition body_base64 (b : Body) : option string :=
  match b with
  | BodyString s => Some s
  | _ => None
  end.

(** Decoding, decrypting, verifying and parsing a data frame: the body it
    carries, or [None] when any step throws (or the signature does not
    verify, which the source turns into a throw). *)
Definition open_frame (conn : Connection.t) (m : PeerMessage) : option Body :=
  match Buffer_from_base64 (body_base64 (body m)) with
  | None => None
  | Some encryptedMessageBody =>
  match Buffer_from_base64 (Header.signature (header m)) with
  | None => None
  | Some messageSignature =>
  match aes_decrypt (Connection.peerKey conn) (Connection.peerIv conn) encryptedMessageBody with
  | None => None
  | Some decryptedMessageBody =>
  match Connection.peerPublicKey conn with
  | None => None
  | Some pk =>
      match rsa_verify pk (Some decryptedMessageBody) messageSignature with
      | Some true => JSON_parse decryptedMessageBody
      | _ => None
      end
  end end end end.

(** The ways a data frame fails to open, as the error taxonomy names
    them: it does not decode or decrypt, its signature does not verify
    against the peer's public key, or the plaintext does not parse. *)
Inductive frame_failure (conn : Connection.t) (m : PeerMessage) : Prop :=
| decode_fails :
    Buffer_from_base64 (body_base64 (body m)) = None
    \/ Buffer_from_base64 (Header.signature (header m)) = None ->
    frame_failure conn m
| decrypt_fails enc :
    Buffer_from_base64 (body_base64 (body m)) = Some enc ->
    aes_decrypt (Connection.peerKey conn) (Connection.peerIv conn) enc = None ->
    frame_failure conn m
| verify_fails enc sg plain :
    Buffer_from_base64 (body_base64 (body m)) = Some enc ->
    Buffer_from_base64 (Header.signature (header m)) = Some sg ->
    aes_decrypt (Connection.peerKey conn) (Connection.peerIv conn) enc = Some plain ->
    (forall pk, Connection.peerPublicKey conn = Some pk ->
                rsa_verify pk (Some plain) sg <> Some true) ->
    frame_failure conn m
| parse_fails enc plain :
    Buffer_from_base64 (body_base64 (body m)) = Some enc ->
    aes_decrypt (Connection.peerKey conn) (Connection.peerIv conn) enc = Some plain ->
    JSON_parse plain = None ->
    frame_failure conn m.

Definition confirmation_for (m : PeerMessage) (now : Date) : PeerMessage :=
  set_header
    (Header.set_confirm
       (ConfirmObj (Some (Header.hash (header m)))
                   (Some (Date_toISOString (Header.timestamp (header m))))))
    (PeerMessage_new (Some (TNum type_confirm)) None now).

Definition receive_data (w : World) (now : Date) (c : conn_id) (conn : Connection.t)
  (m : PeerMessage) : Outcome :=
  match open_frame conn m with
  | None => (w, Returned VUndefined)
  | Some b =>
      let message := set_body b m in
      let confirmed :=
        if Connection.requireConfirmation conn
        then broadcast w now
               (OptObject (Some (ArgPeerMessage (confirmation_for message now))) (Some c))
        else (w, Returned VUndefined) in
      match confirmed with
      | (w1, Returned _) =>
          let w2 := effect (Emit "message" (Some c) (Some message)) w1 in
          match Header.type (header message) with
          | TStr _ =>
              (effect (Emit (PEER_MESSAGE_STRING (Header.type (header message)))
                            (Some c) (Some message)) w2,
               Returned VUndefined)
          | TNum _ => (w2, Returned VUndefined)
          end
      | (w1, _) => (w1, Returned VUndefined)
      end
  end.

(** [if(message)] fails on the empty string. *)
Definition falsy (message : Payload) : bool :=
  match message with
  | Raw s => bool_decide (s = "")
  | PM _ => false
  end.

(** [receive({ connection, message })].  [rnd_iv] and [rnd_key] are what
    the two calls of [crypto.randomBytes] return if they are made. *)
Definition receive (w : World) (now : Date) (rnd_iv rnd_key : Buffer) (c : conn_id)
  (message : Payload) : Outcome :=
  if falsy message then (w, Returned VFalse)
  else
    match PeerMessage_of message with
    | None => (w, Thrown)
    | Some m =>
        match heap w !! c with
        | None => (w, Thrown)
        | Some conn =>
            let w1 := stamp_active w now conn in
            let type := Header.type (header m) in
            if loose_is type type_helo then receive_helo w1 now rnd_iv rnd_key c m
            else if Connection.trusted conn then
              if loose_is type type_trusted then receive_trusted w1 c m
              else if loose_is type type_confirm then receive_confirm w1 c conn m
              else if loose_is type type_peers then receive_peers w1 now c
              else receive_data w1 now c conn m
            else (w1, Returned VUndefined)
        end
    end.

(** ** [discover] *)

(** The host and port that [discoverOne] works out from [url.parse];
    [None] when [url.parse] throws, and when [tmp.protocol] is [null]
    where the source calls [toString] on it. *)
Definition parse_target (a : string) (hasProtocol hasPort : bool) : option ParsedAddress.t :=
  match url_parse a with
  | None => None
  | Some tmp =>
  let protocol := if hasProtocol then UrlObject.protocol tmp else Some "wss:" in
  match hasProtocol, hasPort with
  | false, true =>
      match UrlObject.protocol tmp with
      | None => None
      | Some p =>
          Some (ParsedAddress.mk protocol
                  (Some (substring 0 (String.length p - 1) p))
                  (match js_or (UrlObject.hostname tmp) (UrlObject.host tmp) with
                   | Some x => parseInt x
                   | None => PortNaN
                   end))
      end
  | true, false =>
      Some (ParsedAddress.mk protocol
              (js_or (UrlObject.hostname tmp)
                     (js_or (UrlObject.host tmp) (Some (UrlObject.href tmp))))
              PortNull)
  | false, false =>
      Some (ParsedAddress.mk protocol (Some (UrlObject.href tmp)) PortNull)
  | true, true =>
      Some (ParsedAddress.mk protocol
              (js_or (UrlObject.hostname tmp) (UrlObject.host tmp))
              (match js_or (UrlObject.port tmp) None with
               | Some x => PortStr x
               | None => PortNull
               end))
  end
  end.

(** The object [d] built for one port: [{ address, signature }] with
    the signature read from [peerToDiscover], left out of the text when
    that is undefined. *)
Definition port_candidate (parsedAddress : ParsedAddress.t) (peerToDiscover : Candidate.t)
  (port : PortVal) : Candidate.t :=
  Candidate.make (AddrStr (url_format (ParsedAddress.set_port port parsedAddress)))
                 (Candidate.signature peerToDiscover) None
                 (if Candidate.unsigned peerToDiscover
                  then Candidate.Unsigned else Candidate.Written).

(** [self.range && Array.isArray(self.range) && self.range.length == 2
    && self.range[0] <= self.range[1]] *)
Definition valid_range (r : option (list Z)) : option (Z * Z) :=
  match r with
  | Some [lo; hi] => if (lo <=? hi)%Z then Some (lo, hi) else None
  | _ => None
  end.

(** The values of [i] in [for(let i = lo; i <= hi; i++)]. *)
Definition ports_between (lo hi : Z) : list Z :=
  map (fun k => (lo + Z.of_nat k)%Z) (seq 0 (Z.to_nat (hi - lo + 1))).

(** The block under [if(!hasPort)], up to the call of [next()]. *)
Definition expand (parsedAddress : ParsedAddress.t) (peerToDiscover : Candidate.t) (w : World)
  : World :=
  match valid_range (Peer.range (self w)) with
  | Some (lo, hi) =>
      fold_left (fun w i => offer w (port_candidate parsedAddress peerToDiscover (PortNum i)))
                (ports_between lo hi) w
  | None => offer w (port_candidate parsedAddress peerToDiscover (Peer.port (self w)))
  end.

(** [discoverOne], with [next] as its local function.  The calls are
    synchronous up to a dial, so one run can nest; [fuel] bounds the
    nesting and [None] means it ran out.  The dialed connection reports
    back later through [on_connect] or [on_connectFailed]. *)
Fixpoint discoverOne (fuel : nat) (w : World) : option Outcome :=
  match fuel with
  | O => None
  | S fuel' =>
      let next (w : World) : option Outcome :=
        match Peer.discoveryAddresses (self w) with
        | [] => Some (effect (Emit "discovered" None None) w, Returned VUndefined)
        | _ :: _ => discoverOne fuel' w
        end in
      match Peer.discoveryAddresses (self w) with
      | [] => Some (w, Thrown)
      | peerToDiscover :: rest =>
          let w0 := set_self (Peer.set_discoveryAddresses rest) w in
          match (if isConnectedTo w0 peerToDiscover then next w0
                 else Some (w0, Returned VUndefined)) with
          | None => None
          | Some (w1, Returned _) =>
              match Candidate.address peerToDiscover with
              | AddrStr a =>
                  let a := strip_ffff a in
                  match parse_target a (hasProtocol a) (hasPort a) with
                  | None => Some (w1, Thrown)
                  | Some parsedAddress =>
                      if negb (hasPort a)
                      then next (expand parsedAddress peerToDiscover w1)
                      else
                        Some (effect (Dial (url_format parsedAddress)
                                           (Candidate.set_address (AddrStr a) peerToDiscover)
                                           parsedAddress) w1,
                              Returned VUndefined)
                  end
              | _ => Some (w1, Thrown)
              end
          | Some (w1, other) => Some (w1, other)
          end
      end
  end.

(** [next()], for the callers outside [discoverOne]. *)
Definition next (fuel : nat) (w : World) : option Outcome :=
  match Peer.discoveryAddresses (self w) with
  | [] => Some (effect (Emit "discovered" None None) w, Returned VUndefined)
  | _ :: _ => discoverOne fuel w
  end.

Definition discover (fuel : nat) (w : World) : option Outcome :=
  match Peer.discoveryAddresses (self w) with
  | [] =>
      Some (effect (Emit "discovered" None None) (set_self (Peer.set_discovering false) w),
            Returned VFalse)
  | _ :: _ =>
      match discoverOne fuel
              (effect (Emit "discovering" None None) (set_self (Peer.set_discovering true) w)) with
      | Some (w', Returned _) => Some (w', Returned VUndefined)
      | other => other
      end
  end.

(** [client.on('connect', ...)] and [client.on('connectFailed', ...)] for
    the dial of [candidate] at [target]. *)
Definition on_connect (fuel : nat) (w : World) (now : Date) (candidate : Candidate.t)
  (target : ParsedAddress.t) (remoteAddress : string) (remotePort : Z) : option Outcome :=
  let '(w1, _) := setupConnection w now
    (Accepted.mk remoteAddress remotePort (Some (Candidate.address candidate))
                 (Some (ParsedAddress.port target)) None None) in
  next fuel w1.

Definition on_connectFailed (fuel : nat) (w : World) : option Outcome := next fuel w.

(** [receive] run to the end: the pending [this.discover()] is made. *)
Definition receive_then_discover (fuel : nat) (w : World) (now : Date) (rnd_iv rnd_key : Buffer)
  (c : conn_id) (message : Payload) : option Outcome :=
  match receive w now rnd_iv rnd_key c message with
  | (w', ThenDiscover) =>
      match discover fuel w' with
      | Some (w'', Returned _) => Some (w'', Returned VUndefined)
      | other => other
      end
  | other => Some other
  end.

(** The frames written on connection [c], in order. *)
Definition frames_on (c : conn_id) (t : list Effect) : list PeerMessage :=
  omap (fun e => match e with
                 | Send c' frame => if decide (c' = c) then Some frame else None
                 | _ => None
                 end) t.

(** The retry timers set for connection [c], in order: the delay and
    the message the timer holds. *)
Definition retries_on (c : conn_id) (t : list Effect) : list (Z * PeerMessage) :=
  omap (fun e => match e with
                 | SetTimeout ms (Retry c' msg) =>
                     if decide (c' = c) then Some (ms, msg) else None
                 | _ => None
                 end) t.

(** What one turn of the loop of [broadcast] asks of the outside, for a
    [PeerMessage] [m] whose copy is [copy], on the connection [x] under
    [c]. *)
Definition turn_trace (s : Peer.t) (m copy : PeerMessage) (c : conn_id) (x : Connection.t)
  : list Effect :=
  if Connection.connected x then
    if Connection.trusted x then
      (if Peer.requireConfirmation s
          && negb (strict_is (Header.type (header copy)) type_confirm)
       then [SetTimeout 30000 (Retry c (fst (seal s x copy)))] else [])
      ++ (if snd (seal s x copy) then [Send c (fst (seal s x copy))] else [])
    else if loose_is (Header.type (header m)) type_helo then [Send c m] else []
  else [].

Definition is_send_on (c : conn_id) (e : Effect) : bool :=
  match e with
  | Send c' _ => bool_decide (c' = c)
  | _ => false
  end.

Definition is_close_of (c : conn_id) (e : Effect) : bool :=
  match e with
  | Close c' => bool_decide (c' = c)
  | _ => false
  end.

(** ** The specification's wording, for comparison with the program *)

(** What the call added to the trace. *)
Definition added (w w' : World) : list Effect := drop (length (trace w)) (trace w').

(** "Close connection, without reply": the call asks for [close()] on
    [c] and writes no frame on it. *)
Definition closes_without_reply (w : World) (c : conn_id) (o : Outcome) : Prop :=
  Close c ∈ added w (fst o) /\ frames_on c (added w (fst o)) = [].

(** "The peer table contains no entry for it." *)
Definition no_entry_for (w : World) (c : conn_id) : Prop :=
  c ∉ map PeerEntry.connection (Peer.peers (self w)).

(** "The entry's signature is not in [omit] and the connection the entry
    was built from is TRUSTED." *)
Definition listed_from_trusted (w : World) (omit : list string) (e : Candidate.t) : Prop :=
  exists p conn sg,
    p ∈ Peer.peers (self w)
    /\ heap w !! PeerEntry.connection p = Some conn
    /\ peer_list_entry w omit p = Some (Some e)
    /\ Candidate.signature e = Some sg /\ (sg ∉ omit)
    /\ Connection.trusted conn = true.

(** "One new candidate per port in [lo, hi], each carrying the same
    signature; if no range is configured, the peer's own listening
    port." *)
Definition port_candidates (parsedAddress : ParsedAddress.t) (peerToDiscover : Candidate.t)
  (w : World) : list Candidate.t :=
  match valid_range (Peer.range (self w)) with
  | Some (lo, hi) =>
      map (fun i => port_candidate parsedAddress peerToDiscover (PortNum i)) (ports_between lo hi)
  | None => [port_candidate parsedAddress peerToDiscover (Peer.port (self w))]
  end.


(** [connection.peerPublicKeySignature] of the connection under [k]. *)
Definition signature_at (w : World) (k : conn_id) : option Buffer :=
  heap w !! k ≫= Connection.peerPublicKeySignature.

Definition unconfirmed_of (w : World) (c : conn_id) : option (list Payload) :=
  Connection.unconfirmedMessages <$> heap w !! c.

Definition is_pm (x : Payload) : bool :=
  match x with
  | PM _ => true
  | Raw _ => false
  end.

(** "An entry whose (hash, timestamp) matches the CONFIRM's confirm
    header exactly." *)
Definition confirms (hash timestamp : string) (x : Payload) : bool :=
  match x with
  | PM e => confirm_match e hash timestamp
  | Raw _ => false
  end.

(** "Scan from the tail and remove the matching entry": the list without
    the last of its matching entries. *)
Fixpoint remove_last_match (hash timestamp : string) (l : list Payload) : list Payload :=
  match l with
  | [] => []
  | x :: rest =>
      if existsb (confirms hash timestamp) rest
      then x :: remove_last_match hash timestamp rest
      else if confirms hash timestamp x then rest else x :: rest
  end.

(** "Exactly one MESSAGE frame for that payload is written on the
    link": of the frames written on [c] between [w] and [w'], one is of
    type MESSAGE. *)
Definition one_message_frame (w w' : World) (c : conn_id) : Prop :=
  length (List.filter (fun f => loose_is (Header.type (header f)) type_message)
                      (frames_on c (added w w'))) = 1.

(** "Untrusted connections are skipped silently": the call writes
    nothing on [c] and completes by returning. *)
Definition skipped_silently (w : World) (c : conn_id) (o : Outcome) : Prop :=
  frames_on c (added w (fst o)) = [] /\ exists v, snd o = Returned v.

(** "The message's (hash, timestamp) pair is present", as the timer
    compares them. *)
Definition awaits (msg : PeerMessage) (x : Payload) : bool :=
  match x with
  | PM e => retry_match e msg
  | Raw _ => false
  end.

(** ** Vocabulary of the further properties *)

(** [n] more copies of [message] at the end of [unconfirmedMessages]. *)
Definition pushes (n : nat) (message : Payload) (x : Connection.t) : Connection.t :=
  Connection.set_unconfirmedMessages
    (Connection.unconfirmedMessages x ++ replicate n message) x.

(** What [broadcast] may ask of the outside: a frame, or a retry timer
    of 30 s, for one of the connections of [toSendTo]. *)
Definition is_broadcast_effect (toSendTo : list conn_id) (e : Effect) : bool :=
  match e with
  | Send c _ => bool_decide (c ∈ toSendTo)
  | SetTimeout ms (Retry c _) => (ms =? 30000)%Z && bool_decide (c ∈ toSendTo)
  | _ => false
  end.



(** [self] with the discovery queue put aside. *)
Definition queue_aside (s : Peer.t) : Peer.t := Peer.set_discoveryAddresses [] s.

(** What a discovery run may ask of the outside: a dial, or one of the
    two events [discovering] and [discovered]. *)
Definition is_discovery_effect (e : Effect) : bool :=
  match e with
  | Dial _ _ _ => true
  | Emit name None None =>
      bool_decide (name = "discovered") || bool_decide (name = "discovering")
  | _ => false
  end.

(** [w'] differs from [w] by the queue and by discovery effects only. *)
Definition discovery_only (w w' : World) : Prop :=
  heap w' = heap w
  /\ queue_aside (self w') = queue_aside (self w)
  /\ exists new, trace w' = trace w ++ new
       /\ Forall (fun e => is_discovery_effect e = true) new.

(** The dial that [discoverOne] makes for a candidate whose address is
    a string with a port; [None] for any other candidate. *)
Definition dial_of (d : Candidate.t) : option Effect :=
  match Candidate.address d with
  | AddrStr a =>
      let a := strip_ffff a in
      if hasPort a then
        (fun parsedAddress =>
           Dial (url_format parsedAddress) (Candidate.set_address (AddrStr a) d)
                parsedAddress) <$> parse_target a (hasProtocol a) true
      else None
  | _ => None
  end.

(** ** The handlers as steps *)

(** One handler of the class, run to its end from [w]: the world it
    leaves, however it completed. *)
Inductive step : World -> World -> Prop :=
| step_setupConnection w now a : step w (fst (setupConnection w now a))
| step_receive w now rnd_iv rnd_key c message :
    step w (fst (receive w now rnd_iv rnd_key c message))
| step_broadcast w now options : step w (fst (broadcast w now options))
| step_error w now c : step w (on_error w now c)
| step_close w now c code : step w (fst (on_close w now c code))
| step_retry w now c msg : step w (fst (fire_retry w now c msg))
| step_discover fuel w o : discover fuel w = Some o -> step w (fst o)
| step_connect fuel w now candidate target remoteAddress remotePort o :
    on_connect fuel w now candidate target remoteAddress remotePort = Some o ->
    step w (fst o)
| step_connectFailed fuel w o : on_connectFailed fuel w = Some o -> step w (fst o).

(** The worlds that handlers lead to from [w0]. *)
Inductive reachable (w0 : World) : World -> Prop :=
| reachable_here : reachable w0 w0
| reachable_step w w' : reachable w0 w -> step w w' -> reachable w0 w'.

(** Every row of the table holds the connection of its own index. *)
Definition aligned (w : World) : Prop :=
  map PeerEntry.connection (Peer.peers (self w)) = seq 0 (length (heap w)).

(** [self] without the table, the queue and the [discovering] flag. *)
Definition identity (s : Peer.t) : Peer.t :=
  Peer.set_peers [] (Peer.set_discoveryAddresses [] (Peer.set_discovering false s)).

(** What the handshake has established on a connection: when it carries
    a signature, that signature is not this peer's own, the ring key has
    verified it for the public key text whose key the connection holds,
    and the session key and iv are there; when it carries none, the
    connection is not trusted. *)
Definition vouched (s : Peer.t) (x : Connection.t) : Prop :=
  match Connection.peerPublicKeySignature x with
  | Some sg =>
      isOwnSignature s (Some sg) = false
      /\ is_Some (Connection.iv x) /\ is_Some (Connection.key x)
      /\ exists publicKey pk,
           NodeRSA_new publicKey = Some pk
           /\ Connection.peerPublicKey x = Some pk
           /\ rsa_verify (Peer.ringPublicKey s) publicKey sg = Some true
  | None => Connection.trusted x = false
  end.

(** The store of [w'] has the connections of [w], vouched for if they
    were. *)
Definition store_kept (s : Peer.t) (w w' : World) : Prop :=
  length (heap w') = length (heap w)
  /\ (Forall (vouched s) (heap w) -> Forall (vouched s) (heap w')).

(** ** [close] *)

(** The peer with the two things of [close()] that the handlers never
    read: the [ready] flag and whether the HTTPS server is open. *)
Record Site := mkSite { world : World; ready : bool; serving : bool }.

(** [close()]: every row's connection is asked to close (an exception of
    the transport is caught), then the server is closed. *)
Definition close (s : Site) : Site :=
  mkSite
    (fold_left (fun w p => effect (Close (PeerEntry.connection p)) w)
               (Peer.peers (self (world s))) (world s))
    false false.

End Program.

(** ** A small implementation of the libraries, to run the model on

    Keys are their own text, a signature of [data] under [key] is the text
    [key/data], encryption under the session key prefixes the key, and a
    [PeerMessage] copy keeps the header.  Dates print to the second with
    [toString] and to the millisecond with [toISOString]. *)
Module Toy.

Definition strip_prefix (p s : string) : option string :=
  if String.prefix p s
  then Some (substring (String.length p) (String.length s - String.length p) s)
  else None.

Definition sign (key data : string) : string := key ++ "/" ++ data.

Definition stringify (b : Body) : string :=
  match b with
  | BodyString s => s
  | BodyJson j => j
  | _ => "{}"
  end.

Definition format (p : ParsedAddress.t) : string :=
  default "" (ParsedAddress.protocol p) ++ "//" ++ default "" (ParsedAddress.hostname p)
  ++ ":" ++ show_port (Some (ParsedAddress.port p)).

Definition new_message (type : option HType) (b : option Body) (now : Date) : PeerMessage :=
  mkMessage (Header.mk (default (TNum 0) type) ("h" ++ pretty now) now None ConfirmAbsent)
            (default BodyEmpty b).

Definition runtime : Runtime := {|
  type_helo := 0;
  type_trusted := 1;
  type_confirm := 2;
  type_peers := 3;
  type_message := 4;
  PEER_MESSAGE_STRING := fun t => match t with TStr s => s | TNum n => pretty n end;
  PeerMessage_new := new_message;
  PeerMessage_of := fun p => match p with PM m => Some m | Raw _ => None end;
  loose_eq_string_number := fun s n => bool_decide (s = pretty n);
  Date_toString := fun d => pretty (d / 1000)%Z;
  Date_toISOString := fun d => pretty d;
  JSON_stringify := stringify;
  JSON_parse := fun s => Some (BodyString s);
  parseInt := fun _ => PortNaN;
  NodeRSA_new := fun pem => pem;
  exportKey_public := fun k => Some k;
  Buffer_from_base64 := fun s => s;
  rsa_verify := fun key data sg =>
    match data with
    | Some d => Some (bool_decide (sg = sign key d))
    | None => None
    end;
  rsa_encrypt := fun _ b => Some b;
  rsa_decrypt := fun _ b => Some b;
  rsa_sign := fun key data => Some (sign key data);
  aes_encrypt := fun key iv s =>
    match key, iv with
    | Some k, Some _ => Some (k +:+ s)
    | _, _ => None
    end;
  aes_decrypt := fun key iv b =>
    match key, iv with
    | Some k, Some _ => strip_prefix k b
    | _, _ => None
    end;
  url_parse := fun a => Some (UrlObject.mk None None None a None);
  url_format := format
|}.

(** Peer A of a ring whose authority key is [ring]. *)
Definition peerA : Peer.t :=
  Peer.mk [] [] false (PortNum 26781) (AddrStr "127.0.0.1") (Some [26780; 26790]%Z)
          true "A" "A" "ring" (sign "ring" "A").

Definition start : World := mkWorld peerA [] [].

(** An accepted connection from 10.0.0.2. *)
Definition inbound : Accepted.t :=
  Accepted.mk "::ffff:10.0.0.2" 50000 None None None None.

Definition helo_from (pem sg : string) : PeerMessage :=
  mkMessage (Header.mk (TNum 0) "h0" 0%Z None ConfirmAbsent) (BodyHelo (Some pem) (Some sg)).

#[local] Existing Instance runtime.

(** A accepts the connection and writes its HELO. *)
Definition accepted : World := fst (setupConnection start 1500%Z inbound).

(** Then B's HELO, signed by the ring, arrives on it. *)
Definition trusted_B : World :=
  fst (receive accepted 2500%Z "iv" "key" 0 (PM (helo_from "B" (sign "ring" "B")))).

(** Then the connection closes normally. *)
Definition closed_B : World := fst (on_close trusted_B 9000%Z 0 1000%Z).

(** The row of B in the peer list. *)
Definition entry_B (trusted : bool) : Candidate.t :=
  Candidate.mk (AddrStr "10.0.0.2:50000") (Some (sign "ring" "B"))
               (Some (PeerInfo.mk 1000 2000 trusted)).

(** An application message of A, and B's receipt for it. *)
Definition hello : PeerMessage :=
  mkMessage (Header.mk (TNum 4) "h3000" 3000 None ConfirmAbsent) (BodyString "hello").

Definition receipt : PeerMessage :=
  mkMessage
    (Header.mk (TNum 2) "h3100" 3100 None
               (ConfirmObj (Some "h3000") (Some (pretty 3000%Z))))
    (BodyString "").

(** A broadcasts [hello] twice: the same object is pushed twice. *)
Definition sent_once : World := fst (broadcast trusted_B 3000%Z (OptPeerMessage hello)).
Definition sent_twice : World := fst (broadcast sent_once 3001%Z (OptPeerMessage hello)).

(** B acknowledges once, then the same receipt arrives again. *)
Definition confirmed_once : World := fst (receive sent_twice 3200%Z "" "" 0 (PM receipt)).
Definition confirmed_twice : World := fst (receive confirmed_once 3300%Z "" "" 0 (PM receipt)).

(** On the fresh connection: a HELO that the ring did not sign, and a
    HELO with A's own signature. *)
Definition after_bogus_helo : World :=
  fst (receive accepted 2500%Z "iv" "key" 0 (PM (helo_from "B" "bogus"))).
Definition after_self_helo : World :=
  fst (receive accepted 2500%Z "iv" "key" 0 (PM (helo_from "A" (sign "ring" "A")))).

(** A frame on the data channel before B's session key is known. *)
Definition damaged : PeerMessage :=
  mkMessage (Header.mk (TNum 4) "h5000" 5000 (Some "B/x") ConfirmAbsent) (BodyString "x").

(** The same peer, not requiring confirmation, with [hello] sent to B. *)
Definition lenient_A : Peer.t :=
  Peer.mk [] [] false (PortNum 26781) (AddrStr "127.0.0.1") (Some [26780; 26790]%Z)
          false "A" "A" "ring" (sign "ring" "A").
Definition lenient_sent : World :=
  fst (broadcast
         (fst (receive (fst (setupConnection (mkWorld lenient_A [] []) 1500%Z inbound))
                       2500%Z "iv" "key" 0 (PM (helo_from "B" (sign "ring" "B")))))
         3000%Z (OptPeerMessage hello)).

(** A with one candidate without a port to discover. *)
Definition portless : Candidate.t := Candidate.mk (AddrStr "10.0.0.9") None None.
Definition seeking : World :=
  mkWorld (Peer.set_discoveryAddresses [portless] peerA) [] [].

(** The connection under identifier 0. *)
Definition connection0 (w : World) : Connection.t :=
  default (new_connection inbound) (heap w !! 0).

(** B's TRUSTED message: its session key and iv, where it listens, whether
    it wants confirmations, and one peer it knows. *)
Definition known_C : Candidate.t :=
  Candidate.mk (AddrStr "::ffff:10.0.0.3:26781") (Some (sign "ring" "C"))
               (Some (PeerInfo.mk 500 600 true)).

Definition trusted_from_B (address : Addr) (confirm : bool) : PeerMessage :=
  mkMessage (Header.mk (TNum 1) "h2600" 2600 None ConfirmAbsent)
    (BodyTrusted (TrustedBody.mk (Some "kB") (Some "ivB") (Some [known_C])
                    (Some (Listening.mk (Some address) (Some (PortNum 26781))))
                    (Some confirm))).

(** A after B's TRUSTED message. *)
Definition session_B (confirm : bool) : World :=
  fst (receive trusted_B 2600%Z "" "" 0 (PM (trusted_from_B (AddrStr "10.0.0.2") confirm))).

(** A data frame of B under its session key, with B's signature. *)
Definition from_B : PeerMessage :=
  mkMessage (Header.mk (TNum 4) "h4000" 4000 (Some (sign "B" "news")) ConfirmAbsent)
            (BodyString ("kB" +:+ "news")).

(** B's end of the connection, as B holds it after A's TRUSTED message. *)
Definition B_side : Connection.t :=
  Connection.mk true "10.0.0.1" 26781 true [] true
    (Some (AddrStr "10.0.0.1")) (Some (PortNum 26781))
    (Some "A") (Some (sign "ring" "A")) (Some "ivB") (Some "kB") (Some "iv") (Some "key")
    None.

(** A HELO without a public key, and a PEERS request. *)
Definition helo_without_key : PeerMessage :=
  mkMessage (Header.mk (TNum 0) "h0" 0%Z None ConfirmAbsent) (BodyHelo None (Some "x")).

Definition peers_request : PeerMessage :=
  mkMessage (Header.mk (TNum 3) "h6000" 6000 None ConfirmAbsent) BodyEmpty.

(** A with connections to B and to C, both past the HELO, and [hello]
    broadcast to both. *)
Definition inbound_C : Accepted.t :=
  Accepted.mk "::ffff:10.0.0.3" 50001 None None None None.

Definition both : World :=
  fst (receive (fst (setupConnection trusted_B 2700%Z inbound_C))
               2800%Z "iv2" "key2" 1 (PM (helo_from "C" (sign "ring" "C")))).

Definition both_sent : World := fst (broadcast both 3000%Z (OptPeerMessage hello)).

(** The copy of [hello] that went to B, which B's retry timer holds. *)
Definition sealed_hello : PeerMessage :=
  fst (seal peerA (connection0 trusted_B) hello).

(** The connection under identifier 1. *)
Definition connection1 (w : World) : Connection.t :=
  default (new_connection inbound_C) (heap w !! 1).

(** The copy of [hello] that went to C, which C's retry timer holds. *)
Definition sealed_hello_C : PeerMessage :=
  fst (seal peerA (connection1 both) hello).

(** A with a connection on which B's HELO has not arrived yet, and a
    second one, to C, past the HELO. *)
Definition waiting_and_C : World :=
  fst (receive (fst (setupConnection accepted 2700%Z inbound_C))
               2800%Z "iv2" "key2" 1 (PM (helo_from "C" (sign "ring" "C")))).



(** A second connection from B's address. *)
Definition twice : World := fst (setupConnection accepted 1600%Z inbound).

(** A, connected to B, with B's address back on the queue. *)
Definition B_again : Candidate.t :=
  Candidate.mk (AddrStr "wss://10.0.0.2:26781") (Some (sign "ring" "B")) None.

Definition returning : World :=
  set_self (Peer.set_discoveryAddresses [B_again]) trusted_B.

(** The libraries with a [PeerMessage] constructor that also takes the
    text of a message. *)
Definition parsing_runtime : Runtime := {|
  type_helo := 0;
  type_trusted := 1;
  type_confirm := 2;
  type_peers := 3;
  type_message := 4;
  PEER_MESSAGE_STRING := fun t => match t with TStr s => s | TNum n => pretty n end;
  PeerMessage_new := new_message;
  PeerMessage_of := fun p =>
    match p with
    | PM m => Some m
    | Raw s => Some (new_message (Some (TNum 4)) (Some (BodyString s)) 0%Z)
    end;
  loose_eq_string_number := fun s n => bool_decide (s = pretty n);
  Date_toString := fun d => pretty (d / 1000)%Z;
  Date_toISOString := fun d => pretty d;
  JSON_stringify := stringify;
  JSON_parse := fun s => Some (BodyString s);
  parseInt := fun _ => PortNaN;
  NodeRSA_new := fun pem => pem;
  exportKey_public := fun k => Some k;
  Buffer_from_base64 := fun s => s;
  rsa_verify := fun key data sg =>
    match data with
    | Some d => Some (bool_decide (sg = sign key d))
    | None => None
    end;
  rsa_encrypt := fun _ b => Some b;
  rsa_decrypt := fun _ b => Some b;
  rsa_sign := fun key data => Some (sign key data);
  aes_encrypt := fun key iv s =>
    match key, iv with
    | Some k, Some _ => Some (k +:+ s)
    | _, _ => None
    end;
  aes_decrypt := fun key iv b =>
    match key, iv with
    | Some k, Some _ => strip_prefix k b
    | _, _ => None
    end;
  url_parse := fun a => Some (UrlObject.mk None None None a None);
  url_format := format
|}.

(** What the discovery of [seeking] leads to. *)
Definition sought : Outcome := default (seeking, Thrown) (discover 2 seeking).

(** The dial for [B_again]. *)
Definition dial_B_again : Effect := default (Close 0) (dial_of B_again).

(** The row of B in the peer list when B was last heard from at [active]. *)
Definition entry_B_at (active : Date) : Candidate.t :=
  Candidate.mk (AddrStr "10.0.0.2:50000") (Some (sign "ring" "B"))
               (Some (PeerInfo.mk 1000 (utc_seconds active) true)).

End Toy.

(** * Properties *)

(** The three patterns on addresses of the kinds the program meets. *)
Example hasPort_examples :
  hasPort "127.0.0.1:26784" = true
  /\ hasPort "127.0.0.1" = false
  /\ hasPort "wss://peer.example" = false
  /\ hasPort "wss://peer.example:443" = true
  /\ hasPort "::1" = true
  /\ hasPort "peer.example:" = false.
Proof. by repeat split. Qed.

Example hasProtocol_examples :
  hasProtocol "wss://peer.example:443" = true
  /\ hasProtocol "127.0.0.1:26784" = false.
Proof. by repeat split. Qed.

Example strip_ffff_examples :
  strip_ffff "::ffff:10.0.0.2" = "10.0.0.2"
  /\ strip_ffff "::FFFF:10.0.0.2" = "10.0.0.2"
  /\ strip_ffff "10.0.0.2" = "10.0.0.2"
  /\ strip_ffff "::1" = "::1".
Proof. by repeat split. Qed.

Example peer_list_address_examples :
  peer_list_address "10.0.0.2" (Some (PortNum 26781)) = "10.0.0.2:26781"
  /\ peer_list_address "::ffff:10.0.0.2" (Some (PortNum 26781)) = "10.0.0.2"
  /\ peer_list_address "10.0.0.2:9" (Some (PortNum 26781)) = "10.0.0.2:9".
Proof. by repeat split. Qed.

Example ports_between_example : ports_between 26780 26783 = [26780; 26781; 26782; 26783]%Z.
Proof. reflexivity. Qed.

Section Properties.

Context {RT : Runtime}.

(** ** The store under the three kinds of update *)

Lemma stamp_active_heap w now conn : heap (stamp_active w now conn) = heap w.
Proof. reflexivity. Qed.

Lemma stamp_active_trace w now conn : trace (stamp_active w now conn) = trace w.
Proof. reflexivity. Qed.

Lemma stamp_active_queue w now conn :
  Peer.discoveryAddresses (self (stamp_active w now conn)) = Peer.discoveryAddresses (self w).
Proof. reflexivity. Qed.

Lemma touch_active_connections w a stamp ps :
  map PeerEntry.connection (touch_active w a stamp ps) = map PeerEntry.connection ps.
Proof.
  induction ps as [|p rest IH]; simpl; [reflexivity|].
  destruct a as [x|]; [|simpl; by rewrite IH].
  destruct (heap w !! PeerEntry.connection p ≫= Connection.originalAddress) as [y|];
    [|simpl; by rewrite IH].
  destruct (decide (x = y)); simpl; [reflexivity | by rewrite IH].
Qed.

Lemma stamp_active_connections w now conn :
  map PeerEntry.connection (Peer.peers (self (stamp_active w now conn)))
  = map PeerEntry.connection (Peer.peers (self w)).
Proof. apply touch_active_connections. Qed.

(** [receive] at a message that parses, on a connection of the store. *)
Lemma receive_unfold w now rnd_iv rnd_key c message m conn :
  falsy message = false ->
  PeerMessage_of message = Some m ->
  heap w !! c = Some conn ->
  receive w now rnd_iv rnd_key c message =
    let w1 := stamp_active w now conn in
    let type := Header.type (header m) in
    if loose_is type type_helo then receive_helo w1 now rnd_iv rnd_key c m
    else if Connection.trusted conn then
      if loose_is type type_trusted then receive_trusted w1 c m
      else if loose_is type type_confirm then receive_confirm w1 c conn m
      else if loose_is type type_peers then receive_peers w1 now c
      else receive_data w1 now c conn m
    else (w1, Returned VUndefined).
Proof. intros Hf Hm Hc. unfold receive. by rewrite Hf, Hm, Hc. Qed.

Lemma frame_failure_open conn m : frame_failure conn m -> open_frame conn m = None.
Proof.
  intros H. unfold open_frame.
  destruct H as [[H|H] | enc He Hd | enc sg plain He Hs Hd Hv | enc plain He Hd Hp].
  - by rewrite H.
  - rewrite H. by destruct (Buffer_from_base64 (body_base64 (body m))).
  - rewrite He, Hd. by destruct (Buffer_from_base64 (Header.signature (header m))).
  - rewrite He, Hs, Hd.
    destruct (Connection.peerPublicKey conn) as [pk|] eqn:Hpk; [|reflexivity].
    specialize (Hv pk eq_refl).
    destruct (rsa_verify pk (Some plain) sg) as [[|]|]; congruence.
  - rewrite He, Hd.
    destruct (Buffer_from_base64 (Header.signature (header m))); [|reflexivity].
    destruct (Connection.peerPublicKey conn) as [pk|]; [|reflexivity].
    by destruct (rsa_verify pk (Some plain) _) as [[|]|].
Qed.

Lemma open_frame_failure conn m : open_frame conn m = None -> frame_failure conn m.
Proof.
  unfold open_frame. intros H.
  destruct (Buffer_from_base64 (body_base64 (body m))) as [enc|] eqn:He;
    [|apply decode_fails; by left].
  destruct (Buffer_from_base64 (Header.signature (header m))) as [sg|] eqn:Hs;
    [|apply decode_fails; by right].
  destruct (aes_decrypt _ _ enc) as [plain|] eqn:Hd; [|by eapply decrypt_fails].
  destruct (Connection.peerPublicKey conn) as [pk|] eqn:Hpk.
  - destruct (rsa_verify pk (Some plain) sg) as [[|]|] eqn:Hv.
    + by eapply parse_fails.
    + apply (verify_fails conn m enc sg plain He Hs Hd). intros pk' Hpk'. congruence.
    + apply (verify_fails conn m enc sg plain He Hs Hd). intros pk' Hpk'. congruence.
  - apply (verify_fails conn m enc sg plain He Hs Hd). intros pk' Hpk'. congruence.
Qed.

(** ** C9: a peer that does not require confirmation ignores CONFIRM *)

(** C9.  When the local peer's own [requireConfirmation] is false, a
    CONFIRM that reaches the CONFIRM branch of [receive] on a trusted
    connection is discarded at once: the call returns, every connection of
    the store (its [unconfirmedMessages] included) is as before, and
    nothing is written, closed or emitted.  Nothing is asked of the list
    or of the [confirm] header, so neither is looked at; the
    [requireConfirmation] that the sender announced, stored on the
    connection, plays no part. *)
Theorem C9_confirm_ignored_without_requireConfirmation
  w now rnd_iv rnd_key c message m conn :
  falsy message = false ->
  PeerMessage_of message = Some m ->
  heap w !! c = Some conn ->
  Connection.trusted conn = true ->
  loose_is (Header.type (header m)) type_helo = false ->
  loose_is (Header.type (header m)) type_trusted = false ->
  loose_is (Header.type (header m)) type_confirm = true ->
  Peer.requireConfirmation (self w) = false ->
  receive w now rnd_iv rnd_key c message = (stamp_active w now conn, Returned VUndefined)
  /\ heap (stamp_active w now conn) = heap w
  /\ trace (stamp_active w now conn) = trace w.
Proof.
  intros Hf Hm Hc Ht Hh Htr Hcf Hrc.
  rewrite (receive_unfold _ _ _ _ _ _ _ _ Hf Hm Hc). simpl.
  rewrite Hh, Ht, Htr, Hcf. unfold receive_confirm.
  change (Peer.requireConfirmation (self (stamp_active w now conn)))
    with (Peer.requireConfirmation (self w)).
  by rewrite Hrc.
Qed.

(** ** C6: a data frame that fails to open is dropped *)

(** C6.  On a trusted connection, a frame that reaches the data branch of
    [receive] and fails to decrypt, to verify against the peer's public
    key or to parse is dropped: the call returns, every connection of the
    store is as before (none is closed or loses its trust), and the trace
    is as before, so no event is emitted, nothing is written and no
    [close()] is called. *)
Theorem C6_failed_data_frame_is_dropped
  w now rnd_iv rnd_key c message m conn :
  falsy message = false ->
  PeerMessage_of message = Some m ->
  heap w !! c = Some conn ->
  Connection.trusted conn = true ->
  loose_is (Header.type (header m)) type_helo = false ->
  loose_is (Header.type (header m)) type_trusted = false ->
  loose_is (Header.type (header m)) type_confirm = false ->
  loose_is (Header.type (header m)) type_peers = false ->
  frame_failure conn m ->
  receive w now rnd_iv rnd_key c message = (stamp_active w now conn, Returned VUndefined)
  /\ heap (stamp_active w now conn) = heap w
  /\ trace (stamp_active w now conn) = trace w.
Proof.
  intros Hf Hm Hc Ht Hh Htr Hcf Hp Hfail.
  rewrite (receive_unfold _ _ _ _ _ _ _ _ Hf Hm Hc). simpl.
  rewrite Hh, Ht, Htr, Hcf, Hp. unfold receive_data.
  by rewrite (frame_failure_open _ _ Hfail).
Qed.

(** ** C1 and C3: the HELO branch *)

Lemma helo_check_stamp w now conn b :
  helo_check (self (stamp_active w now conn)) b = helo_check (self w) b.
Proof. reflexivity. Qed.

(** C1, amended.  A HELO for which [ringPublicKey.verify] returns false
    gets no reply and no event, and the connection is not marked trusted
    by it; but the connection is not closed either: the call returns with
    every connection of the store, that one's [trusted] flag included, and
    the trace as they were. *)
Theorem C1_unverified_helo_is_ignored
  w now rnd_iv rnd_key c message m conn publicKey signature pk sg :
  falsy message = false ->
  PeerMessage_of message = Some m ->
  heap w !! c = Some conn ->
  loose_is (Header.type (header m)) type_helo = true ->
  helo_fields (body m) = (publicKey, signature) ->
  NodeRSA_new publicKey = Some pk ->
  Buffer_from_base64 signature = Some sg ->
  isOwnSignature (self w) (Some sg) = false ->
  rsa_verify (Peer.ringPublicKey (self w)) publicKey sg = Some false ->
  receive w now rnd_iv rnd_key c message = (stamp_active w now conn, Returned VUndefined)
  /\ heap (stamp_active w now conn) = heap w
  /\ trace (stamp_active w now conn) = trace w
  /\ added w (stamp_active w now conn) = [].
Proof.
  intros Hf Hm Hc Hh Hb Hk Hs Hown Hv.
  rewrite (receive_unfold _ _ _ _ _ _ _ _ Hf Hm Hc). simpl.
  rewrite Hh. unfold receive_helo. rewrite helo_check_stamp.
  unfold helo_check. rewrite Hb, Hk, Hs, Hown, Hv.
  repeat split. unfold added. by rewrite stamp_active_trace, drop_all.
Qed.

Lemma setupConnection_id w now a : snd (setupConnection w now a) = length (heap w).
Proof. unfold setupConnection. by destruct (helo_message (self w) now). Qed.

Lemma setupConnection_heap w now a :
  heap (fst (setupConnection w now a)) = heap w ++ [new_connection a].
Proof. unfold setupConnection. by destruct (helo_message (self w) now). Qed.

Lemma setupConnection_peers w now a :
  Peer.peers (self (fst (setupConnection w now a)))
  = Peer.peers (self w) ++ [PeerEntry.mk (length (heap w)) (utc_seconds now) (utc_seconds now)].
Proof. unfold setupConnection. by destruct (helo_message (self w) now). Qed.

Lemma setupConnection_signature w now a :
  Peer.signature (self (fst (setupConnection w now a))) = Peer.signature (self w).
Proof. unfold setupConnection. by destruct (helo_message (self w) now). Qed.

Lemma setupConnection_lookup w now a :
  heap (fst (setupConnection w now a)) !! snd (setupConnection w now a)
  = Some (new_connection a).
Proof.
  rewrite setupConnection_heap, setupConnection_id.
  rewrite lookup_app_r by lia. by rewrite Nat.sub_diag.
Qed.

(** C3, amended.  A HELO carrying the receiver's own ring signature makes
    [receive] call [close()] on the connection and return, with no frame
    written and no event.  The connection is never marked: its
    [peerPublicKeySignature] stays absent and its [trusted] flag false.
    The row that [setupConnection] pushed on [self.peers] for it stays in
    the table: after the self-connection the table is one row longer than
    before it. *)
Theorem C3_self_helo_closes_and_row_remains
  w now now' a rnd_iv rnd_key message m publicKey signature pk sg :
  let w1 := fst (setupConnection w now a) in
  let c := snd (setupConnection w now a) in
  falsy message = false ->
  PeerMessage_of message = Some m ->
  loose_is (Header.type (header m)) type_helo = true ->
  helo_fields (body m) = (publicKey, signature) ->
  NodeRSA_new publicKey = Some pk ->
  Buffer_from_base64 signature = Some sg ->
  isOwnSignature (self w) (Some sg) = true ->
  exists w2,
    receive w1 now' rnd_iv rnd_key c message = (w2, Returned VUndefined)
    /\ trace w2 = trace w1 ++ [Close c]
    /\ heap w2 = heap w1
    /\ heap w2 !! c = Some (new_connection a)
    /\ map PeerEntry.connection (Peer.peers (self w2))
       = map PeerEntry.connection (Peer.peers (self w)) ++ [c]
    /\ length (Peer.peers (self w2)) = S (length (Peer.peers (self w))).
Proof.
  intros w1 c Hf Hm Hh Hb Hk Hs Hown.
  pose proof (setupConnection_lookup w now a) as Hc. fold w1 c in Hc.
  rewrite (receive_unfold _ _ _ _ _ _ _ _ Hf Hm Hc). simpl.
  rewrite Hh. unfold receive_helo. rewrite helo_check_stamp.
  unfold helo_check. rewrite Hb, Hk, Hs.
  assert (isOwnSignature (self w1) (Some sg) = true) as ->.
  { unfold isOwnSignature, w1. by rewrite setupConnection_signature. }
  eexists. split; [reflexivity|].
  assert (map PeerEntry.connection
            (Peer.peers (self (effect (Close c) (stamp_active w1 now' (new_connection a)))))
          = map PeerEntry.connection (Peer.peers (self w)) ++ [c]) as Hrows.
  { change (self (effect (Close c) (stamp_active w1 now' (new_connection a))))
      with (self (stamp_active w1 now' (new_connection a))).
    rewrite stamp_active_connections. unfold w1, c.
    rewrite setupConnection_peers, setupConnection_id, map_app. reflexivity. }
  repeat split; try done.
  apply (f_equal length) in Hrows.
  rewrite length_app, !length_map in Hrows. rewrite Hrows. simpl. lia.
Qed.

(** ** C2: what [getPeerList] lists *)

Lemma peer_list_entry_Some w omit p e :
  peer_list_entry w omit p = Some (Some e) ->
  exists conn sg a,
    heap w !! PeerEntry.connection p = Some conn
    /\ Connection.peerPublicKeySignature conn = Some sg
    /\ Connection.originalAddress conn = Some (AddrStr a)
    /\ (sg ∉ omit)
    /\ e = Candidate.mk (AddrStr (peer_list_address a (Connection.originalPort conn)))
                        (Some sg)
                        (Some (PeerInfo.mk (PeerEntry.created p) (PeerEntry.active p)
                                           (Connection.trusted conn))).
Proof.
  unfold peer_list_entry. intros H.
  destruct (heap w !! PeerEntry.connection p) as [conn|]; [|discriminate].
  destruct (Connection.peerPublicKeySignature conn) as [sg|] eqn:Hsg; [|discriminate].
  destruct (Connection.originalAddress conn) as [a|] eqn:Ha; [|discriminate].
  destruct (bool_decide (sg ∈ omit)) eqn:Hom; [discriminate|].
  apply bool_decide_eq_false in Hom.
  destruct a as [s| |]; try discriminate.
  injection H as <-. by exists conn, sg, s.
Qed.

Lemma getPeerList_loop_elem w omit ps acc l e :
  getPeerList_loop w omit ps acc = Some l ->
  e ∈ l ->
  e ∈ acc \/ exists p, p ∈ ps /\ peer_list_entry w omit p = Some (Some e).
Proof.
  revert acc. induction ps as [|p rest IH]; intros acc Hl He; simpl in Hl.
  - injection Hl as <-. by left.
  - destruct (peer_list_entry w omit p) as [[e'|]|] eqn:Hp; [| |discriminate].
    + destruct (IH _ Hl He) as [Hin|(q & Hq & Hqe)].
      * apply elem_of_app in Hin as [Hin|Hin]; [by left|].
        apply list_elem_of_singleton in Hin as ->.
        right. exists p. split; [apply elem_of_cons; by left | done].
      * right. exists q. split; [apply elem_of_cons; by right | done].
    + destruct (IH _ Hl He) as [Hin|(q & Hq & Hqe)]; [by left|].
      right. exists q. split; [apply elem_of_cons; by right | done].
Qed.

(** C2, amended.  Every entry of a list that [getPeerList(omit)] returns
    has a signature that is not a member of [omit], and was built from a
    row of [self.peers] whose connection carries a [peerPublicKeySignature]
    (a HELO was verified on it) and a string [originalAddress].  The
    connection need not be trusted at the time of the call: the entry's
    own [trusted] field reports the connection's flag, whichever it is. *)
Theorem C2_peer_list_entries
  w (omit : option (list string)) l e :
  getPeerList w omit = Some l ->
  e ∈ l ->
  exists p conn sg a,
    p ∈ Peer.peers (self w)
    /\ heap w !! PeerEntry.connection p = Some conn
    /\ Connection.peerPublicKeySignature conn = Some sg
    /\ Connection.originalAddress conn = Some (AddrStr a)
    /\ Candidate.signature e = Some sg
    /\ (sg ∉ default [] omit)
    /\ Candidate.info e
       = Some (PeerInfo.mk (PeerEntry.created p) (PeerEntry.active p)
                           (Connection.trusted conn)).
Proof.
  unfold getPeerList. intros Hl He.
  destruct (getPeerList_loop_elem _ _ _ _ _ _ Hl He) as [Hin|(p & Hp & Hpe)].
  - by apply elem_of_nil in Hin.
  - destruct (peer_list_entry_Some _ _ _ _ Hpe) as (conn & sg & a & Hc & Hsg & Ha & Hom & ->).
    exists p, conn, sg, a. by repeat split.
Qed.

(** ** C10: the close handler *)

Lemma lookup_update_connection_eq w c f :
  heap (update_connection c f w) !! c = f <$> heap w !! c.
Proof. apply list_lookup_alter_eq. Qed.

Lemma lookup_update_connection_ne w c f k :
  c <> k -> heap (update_connection c f w) !! k = heap w !! k.
Proof. apply list_lookup_alter_ne. Qed.

(** [offer] touches the queue only. *)
Lemma offer_frame w d :
  heap (offer w d) = heap w
  /\ trace (offer w d) = trace w
  /\ Peer.peers (self (offer w d)) = Peer.peers (self w)
  /\ Peer.signature (self (offer w d)) = Peer.signature (self w)
  /\ Peer.range (self (offer w d)) = Peer.range (self w)
  /\ Peer.port (self (offer w d)) = Peer.port (self w).
Proof. unfold offer. by destruct (_ && _). Qed.

(** Who writes [peerPublicKeySignature]: no update but the one of a
    verified HELO. *)
Lemma signature_at_update w c f k :
  (forall x, Connection.peerPublicKeySignature (f x) = Connection.peerPublicKeySignature x) ->
  signature_at (update_connection c f w) k = signature_at w k.
Proof.
  intros Hf. unfold signature_at. simpl.
  destruct (decide (c = k)) as [->|Hne].
  - rewrite list_lookup_alter_eq. destruct (heap w !! k); simpl; [apply Hf | reflexivity].
  - by rewrite list_lookup_alter_ne.
Qed.

Lemma signature_at_heap w w' k : heap w' = heap w -> signature_at w' k = signature_at w k.
Proof. unfold signature_at. by intros ->. Qed.

Lemma broadcast_to_signature message w c w' r k :
  broadcast_to message w c = (w', r) -> signature_at w' k = signature_at w k.
Proof.
  unfold broadcast_to.
  destruct (heap w !! c) as [conn|]; [|by intros [= <- <-]].
  destruct (Connection.connected conn); [|by intros [= <- <-]].
  destruct (Connection.trusted conn).
  - destruct (PeerMessage_of message) as [copy|]; [|by intros [= <- <-]].
    destruct (seal (self w) conn copy) as [final sent].
    intros [= <- <-].
    transitivity (signature_at
      (update_connection c (fun x =>
         Connection.set_unconfirmedMessages (Connection.unconfirmedMessages x ++ [message]) x)
         w) k).
    + apply signature_at_heap. by destruct sent, (_ && _).
    + by apply signature_at_update.
  - destruct message as [m|s]; [|by intros [= <- <-]].
    destruct (loose_is _ _); by intros [= <- <-].
Qed.

Lemma broadcast_loop_signature message toSendTo w w' r k :
  broadcast_loop message toSendTo w = (w', r) -> signature_at w' k = signature_at w k.
Proof.
  revert w. induction toSendTo as [|c rest IH]; intros w; simpl; [by intros [= <- <-]|].
  destruct (broadcast_to message w c) as [w1 r1] eqn:Hstep.
  apply broadcast_to_signature with (k := k) in Hstep.
  destruct r1; [|by intros [= <- <-]..].
  intros Hrest. rewrite <- Hstep. by apply IH.
Qed.

Lemma broadcast_signature w now options w' r k :
  broadcast w now options = (w', r) -> signature_at w' k = signature_at w k.
Proof.
  unfold broadcast. destruct (Peer.peers (self w)); [by intros [= <- <-]|].
  destruct (_ ≫= as_payload); [|by intros [= <- <-]].
  apply broadcast_loop_signature.
Qed.

Lemma gossip_heap w l : heap (fst (gossip w l)) = heap w.
Proof.
  revert w. induction l as [|d l IH]; intros w; simpl; [reflexivity|].
  destruct (Candidate.address d); try reflexivity.
  rewrite IH. by destruct (offer_frame w (Candidate.set_address
    (AddrStr (if String.prefix "::ffff:" s then substring 7 (String.length s - 7) s else s))
    d)) as [-> _].
Qed.

Lemma record_listening_signature l x :
  Connection.peerPublicKeySignature (record_listening l x)
  = Connection.peerPublicKeySignature x.
Proof.
  unfold record_listening. destruct l as [[a p|]|]; [|reflexivity..].
  simpl. by destruct a, p.
Qed.

Lemma receive_trusted_signature w c m w' r k :
  receive_trusted w c m = (w', r) -> signature_at w' k = signature_at w k.
Proof.
  unfold receive_trusted.
  destruct (body m) as [| | t | | |]; try by intros [= <- <-].
  destruct (TrustedBody.iv t) as [iv64|]; [|by intros [= <- <-]].
  destruct (TrustedBody.key t) as [key64|]; [|by intros [= <- <-]].
  destruct (_ ≫= rsa_decrypt _) as [peerIv|]; [|by intros [= <- <-]].
  set (w1 := update_connection c (Connection.set_peerIv (Some peerIv)) w).
  assert (signature_at w1 k = signature_at w k) as H1 by by apply signature_at_update.
  destruct (_ ≫= rsa_decrypt _) as [peerKey|]; [|by intros [= <- <-]].
  set (w2 := update_connection c (Connection.set_peerKey (Some peerKey)) w1).
  assert (signature_at w2 k = signature_at w k) as H2.
  { rewrite <- H1. by apply signature_at_update. }
  match goal with |- context [update_connection c ?f (effect ?e w2)] =>
    set (w4 := update_connection c f (effect e w2));
    assert (signature_at w4 k = signature_at w k) as H4
  end.
  { rewrite <- H2. unfold w4. rewrite signature_at_update.
    - reflexivity.
    - intros x. rewrite record_listening_signature.
      by destruct (TrustedBody.requireConfirmation t). }
  destruct (listening_throws _); [by intros [= <- <-]|].
  destruct (TrustedBody.peers t) as [l|]; [|by intros [= <- <-]].
  pose proof (gossip_heap w4 l) as Hg.
  destruct (gossip w4 l) as [w5 ok]. simpl in Hg.
  assert (signature_at w5 k = signature_at w k) as H5.
  { rewrite <- H4. by apply signature_at_heap. }
  destruct ok; [|by intros [= <- <-]].
  destruct (_ <? _)%nat; by intros [= <- <-].
Qed.

Lemma helo_trust_heap w now rnd_iv rnd_key c pk sg :
  heap (fst (helo_trust w now rnd_iv rnd_key c pk sg))
  = heap (update_connection c (Connection.set_session pk sg rnd_iv rnd_key) w).
Proof.
  unfold helo_trust.
  destruct (rsa_encrypt pk rnd_iv); [|reflexivity].
  destruct (rsa_encrypt pk rnd_key); [|reflexivity].
  destruct (getPeerList _ _); [|reflexivity].
  by destruct (rsa_sign _ _).
Qed.

Lemma receive_data_signature w now c conn m w' r k :
  receive_data w now c conn m = (w', r) -> signature_at w' k = signature_at w k.
Proof.
  unfold receive_data.
  destruct (open_frame conn m) as [b|]; [|by intros [= <- <-]].
  destruct (Connection.requireConfirmation conn).
  - destruct (broadcast w now _) as [w1 r1] eqn:Hb.
    apply broadcast_signature with (k := k) in Hb.
    destruct r1; [|by intros [= <- <-]..].
    destruct (Header.type (header (set_body b m))); by intros [= <- <-].
  - destruct (Header.type (header (set_body b m))); by intros [= <- <-].
Qed.

(** [receive] gives a connection a [peerPublicKeySignature] only in the
    HELO branch, on the connection the HELO came on, after the ring key
    has verified it. *)
Lemma receive_assigns_signature w now rnd_iv rnd_key c message w' r k sg :
  receive w now rnd_iv rnd_key c message = (w', r) ->
  signature_at w k = None ->
  signature_at w' k = Some sg ->
  k = c
  /\ exists m pk,
       PeerMessage_of message = Some m
       /\ loose_is (Header.type (header m)) type_helo = true
       /\ helo_check (self w) (body m) = HeloChecked pk sg true.
Proof.
  unfold receive. intros Hrecv Hnone Hsome.
  destruct (falsy message); [injection Hrecv as <- <-; congruence|].
  destruct (PeerMessage_of message) as [m|]; [|injection Hrecv as <- <-; congruence].
  destruct (heap w !! c) as [conn|] eqn:Hc; [|injection Hrecv as <- <-; congruence].
  assert (signature_at (stamp_active w now conn) k = None) as Hstamp by exact Hnone.
  destruct (loose_is (Header.type (header m)) type_helo) eqn:Hh.
  - unfold receive_helo in Hrecv. rewrite helo_check_stamp in Hrecv.
    destruct (helo_check (self w) (body m)) as [| |pk sg' [|]] eqn:Hchk;
      try (injection Hrecv as <- <-; exfalso;
           change (signature_at (stamp_active w now conn) k = Some sg) in Hsome; congruence).
    assert (signature_at w' k
            = signature_at (update_connection c
                (Connection.set_session pk sg' rnd_iv rnd_key) (stamp_active w now conn)) k)
      as Hw'.
    { apply signature_at_heap. rewrite <- helo_trust_heap with (now := now). by rewrite Hrecv. }
    rewrite Hw' in Hsome. unfold signature_at in Hsome. simpl in Hsome.
    destruct (decide (c = k)) as [->|Hne].
    + rewrite list_lookup_alter_eq, Hc in Hsome. simpl in Hsome. injection Hsome as ->.
      split; [reflexivity|]. by exists m, pk.
    + rewrite list_lookup_alter_ne in Hsome by done.
      unfold signature_at in Hnone. congruence.
  - exfalso.
    assert (signature_at w' k = signature_at (stamp_active w now conn) k) as Hsame;
      [|congruence].
    destruct (Connection.trusted conn); [|by injection Hrecv as <- <-].
    destruct (loose_is _ type_trusted); [by eapply receive_trusted_signature|].
    destruct (loose_is _ type_confirm).
    { unfold receive_confirm in Hrecv.
      destruct (negb _); [by injection Hrecv as <- <-|].
      destruct (Header.confirm (header m)) as [| |[h|] [t|]];
        try by injection Hrecv as <- <-.
      destruct (confirm_loop _ _ _ _); injection Hrecv as <- <-; [|reflexivity].
      by apply signature_at_update. }
    destruct (loose_is _ type_peers).
    { unfold receive_peers in Hrecv.
      destruct (getPeerList _ _); [|by injection Hrecv as <- <-].
      destruct (rsa_sign _ _); by injection Hrecv as <- <-. }
    by eapply receive_data_signature.
Qed.

(** C10.  On a close with a code other than 1000 the handler reads
    [peerPublicKeySignature] of the connection.  When the field is absent
    the handler throws before anything is pushed: the discovery queue and
    the trace are as before (the connection has lost its [trusted] flag by
    then).  When the field is present the handler returns and the queue
    has grown by the connection's address with that signature.  A
    connection fresh from [setupConnection] has the field absent, so an
    abnormal close before a HELO was verified on it makes the handler
    throw; and a call of [receive] that leaves the field present where it
    was absent is a HELO on that connection which the ring key
    verified. *)
Theorem C10_abnormal_close_reads_signature
  w now c code conn :
  heap w !! c = Some conn ->
  code <> 1000%Z ->
  (Connection.peerPublicKeySignature conn = None ->
     snd (on_close w now c code) = Thrown
     /\ Peer.discoveryAddresses (self (fst (on_close w now c code)))
        = Peer.discoveryAddresses (self w)
     /\ trace (fst (on_close w now c code)) = trace w)
  /\ (forall sg, Connection.peerPublicKeySignature conn = Some sg ->
     snd (on_close w now c code) = Returned VUndefined
     /\ Peer.discoveryAddresses (self (fst (on_close w now c code)))
        = Peer.discoveryAddresses (self w)
          ++ [Candidate.mk (default AddrNull (Connection.originalAddress conn)) (Some sg) None])
  /\ (forall w0 now0 a,
     w = fst (setupConnection w0 now0 a) ->
     c = snd (setupConnection w0 now0 a) ->
     snd (on_close w now c code) = Thrown)
  /\ (forall w0 now0 rnd_iv rnd_key c0 message r sg,
     receive w0 now0 rnd_iv rnd_key c0 message = (w, r) ->
     signature_at w0 c = None ->
     Connection.peerPublicKeySignature conn = Some sg ->
     c = c0
     /\ exists m pk,
          PeerMessage_of message = Some m
          /\ loose_is (Header.type (header m)) type_helo = true
          /\ helo_check (self w0) (body m) = HeloChecked pk sg true).
Proof.
  intros Hc Hcode.
  assert (forall o, Connection.peerPublicKeySignature conn = o ->
    on_close w now c code =
      let w1 := update_connection c
        (fun x => Connection.set_active (Some (utc_seconds now)) (Connection.set_trusted false x)) w in
      match o with
      | None => (w1, Thrown)
      | Some sg =>
          let d := Candidate.mk (default AddrNull (Connection.originalAddress conn)) (Some sg) None in
          let w2 := set_self (fun s =>
            Peer.set_discoveryAddresses (Peer.discoveryAddresses s ++ [d]) s) w1 in
          if Peer.discovering (self w2) then (w2, Returned VUndefined)
          else (effect (SetTimeout 60000 RestartDiscovery) w2, Returned VUndefined)
      end) as Hunf.
  { intros o Ho. unfold on_close. rewrite lookup_update_connection_eq, Hc. simpl.
    apply Z.eqb_neq in Hcode. rewrite Hcode, Ho. reflexivity. }
  split; [|split; [|split]].
  - intros Hn. rewrite (Hunf _ Hn). by repeat split.
  - intros sg Hs. rewrite (Hunf _ Hs). simpl.
    destruct (Peer.discovering (self w)); by split.
  - intros w0 now0 a -> ->.
    rewrite setupConnection_lookup in Hc. injection Hc as <-.
    by rewrite (Hunf None eq_refl).
  - intros w0 now0 rnd_iv rnd_key c0 message r sg Hrecv Hbefore Hafter.
    apply (receive_assigns_signature _ _ _ _ _ _ _ _ c sg Hrecv Hbefore).
    unfold signature_at. by rewrite Hc.
Qed.

(** ** C7: [broadcast] and the connections that are not trusted *)

Lemma added_app w w' new : trace w' = trace w ++ new -> added w w' = new.
Proof. intros H. unfold added. rewrite H. apply drop_app_length. Qed.

Lemma elem_of_frames_on c t frame : frame ∈ frames_on c t <-> Send c frame ∈ t.
Proof.
  unfold frames_on. rewrite list_elem_of_omap. split.
  - intros (e & He & Hf). destruct e as [c' f| | | |]; try discriminate.
    destruct (decide (c' = c)) as [->|]; [|discriminate]. by injection Hf as ->.
  - intros H. exists (Send c frame). split; [done|]. by rewrite decide_True.
Qed.

(** One turn of the loop leaves every untrusted connection as it was,
    and writes on one only the message itself, when its type is HELO. *)
Lemma broadcast_to_untrusted message w c w1 r :
  broadcast_to message w c = (w1, r) ->
  (forall k conn, heap w !! k = Some conn -> Connection.trusted conn = false ->
                  heap w1 !! k = Some conn)
  /\ exists new, trace w1 = trace w ++ new
     /\ forall k conn frame,
          heap w !! k = Some conn -> Connection.trusted conn = false ->
          Send k frame ∈ new ->
          message = PM frame /\ loose_is (Header.type (header frame)) type_helo = true.
Proof.
  unfold broadcast_to.
  destruct (heap w !! c) as [connc|] eqn:Hc.
  2:{ intros [= <- <-]. split; [done|]. exists []. rewrite app_nil_r. split; [done|].
      intros k conn frame _ _ H. by apply elem_of_nil in H. }
  destruct (Connection.connected connc).
  2:{ intros [= <- <-]. split; [done|]. exists []. rewrite app_nil_r. split; [done|].
      intros k conn frame _ _ H. by apply elem_of_nil in H. }
  destruct (Connection.trusted connc) eqn:Htc.
  - destruct (PeerMessage_of message) as [copy|].
    2:{ intros [= <- <-]. split; [done|]. exists []. rewrite app_nil_r. split; [done|].
        intros k conn frame _ _ H. by apply elem_of_nil in H. }
    destruct (seal (self w) connc copy) as [final sent].
    intros [= <- <-]. split.
    + intros k conn Hk Ht.
      assert (c <> k) as Hne by (intros ->; congruence).
      destruct sent, (Peer.requireConfirmation (self w)
                      && negb (strict_is (Header.type (header copy)) type_confirm));
        simpl; by rewrite list_lookup_alter_ne.
    + exists ((if Peer.requireConfirmation (self w)
                  && negb (strict_is (Header.type (header copy)) type_confirm)
               then [SetTimeout 30000 (Retry c final)] else [])
              ++ (if sent then [Send c final] else [])).
      split.
      * destruct sent, (Peer.requireConfirmation (self w)
                        && negb (strict_is (Header.type (header copy)) type_confirm));
          simpl; rewrite ?app_nil_r, <- ?app_assoc; reflexivity.
      * intros k conn frame Hk Ht Hin.
        assert (c <> k) as Hne by (intros ->; congruence).
        apply elem_of_app in Hin as [Hin|Hin].
        -- destruct (_ && _); [|by apply elem_of_nil in Hin].
           by apply list_elem_of_singleton in Hin.
        -- destruct sent; [|by apply elem_of_nil in Hin].
           apply list_elem_of_singleton in Hin. congruence.
  - destruct message as [m|s].
    2:{ intros [= <- <-]. split; [done|]. exists []. rewrite app_nil_r. split; [done|].
        intros k conn frame _ _ H. by apply elem_of_nil in H. }
    destruct (loose_is (Header.type (header m)) type_helo) eqn:Hh.
    + intros [= <- <-]. split; [done|]. exists [Send c m]. split; [done|].
      intros k conn frame _ _ Hin.
      apply list_elem_of_singleton in Hin. injection Hin as -> ->. by split.
    + intros [= <- <-]. split; [done|]. exists []. rewrite app_nil_r. split; [done|].
      intros k conn frame _ _ H. by apply elem_of_nil in H.
Qed.

Lemma broadcast_loop_untrusted message toSendTo w w' r :
  broadcast_loop message toSendTo w = (w', r) ->
  (forall k conn, heap w !! k = Some conn -> Connection.trusted conn = false ->
                  heap w' !! k = Some conn)
  /\ exists new, trace w' = trace w ++ new
     /\ forall k conn frame,
          heap w !! k = Some conn -> Connection.trusted conn = false ->
          Send k frame ∈ new ->
          message = PM frame /\ loose_is (Header.type (header frame)) type_helo = true.
Proof.
  revert w. induction toSendTo as [|c rest IH]; intros w; simpl.
  - intros [= <- <-]. split; [done|]. exists []. rewrite app_nil_r. split; [done|].
    intros k conn frame _ _ H. by apply elem_of_nil in H.
  - destruct (broadcast_to message w c) as [w1 r1] eqn:Hstep.
    destruct (broadcast_to_untrusted _ _ _ _ _ Hstep) as (Hkeep1 & new1 & Ht1 & Hs1).
    destruct r1 as [v| |].
    + intros Hrest. destruct (IH _ Hrest) as (Hkeep2 & new2 & Ht2 & Hs2).
      split; [auto|]. exists (new1 ++ new2). split.
      * by rewrite Ht2, Ht1, app_assoc.
      * intros k conn frame Hk Htr Hin. apply elem_of_app in Hin as [Hin|Hin]; eauto.
    + intros [= <- <-]. split; [done|]. by exists new1.
    + intros [= <- <-]. split; [done|]. by exists new1.
Qed.

(** A turn of the loop ends by returning or by throwing. *)
Lemma broadcast_to_completion message w c :
  snd (broadcast_to message w c) = Returned VUndefined
  \/ snd (broadcast_to message w c) = Thrown.
Proof.
  unfold broadcast_to. destruct (heap w !! c) as [x|]; [|by right].
  destruct (Connection.connected x); [|by left].
  destruct (Connection.trusted x).
  - destruct (PeerMessage_of message) as [copy|]; [|by right].
    destruct (seal (self w) x copy). by left.
  - destruct message as [m|s]; [|by right].
    destruct (loose_is _ _); by left.
Qed.

(** A string at a connected connection that is not trusted: the read of
    [message.header.type] throws, whatever turns came before. *)
Lemma broadcast_loop_raw s toSendTo w c conn :
  c ∈ toSendTo ->
  heap w !! c = Some conn ->
  Connection.connected conn = true ->
  Connection.trusted conn = false ->
  snd (broadcast_loop (Raw s) toSendTo w) = Thrown.
Proof.
  intros Hin Hc Hcon Htr. revert w Hin Hc.
  induction toSendTo as [|k rest IH]; intros w Hin Hc; [by apply elem_of_nil in Hin|].
  cbn [broadcast_loop].
  destruct (decide (k = c)) as [->|Hne].
  - unfold broadcast_to. by rewrite Hc, Hcon, Htr.
  - apply elem_of_cons in Hin as [->|Hin]; [done|].
    destruct (broadcast_to (Raw s) w k) as [w1 r1] eqn:Hstep.
    destruct (broadcast_to_untrusted _ _ _ _ _ Hstep) as [Hkeep _].
    destruct (broadcast_to_completion (Raw s) w k) as [Hr|Hr];
      rewrite Hstep in Hr; simpl in Hr; subst r1; [|reflexivity].
    apply IH; [done|]. by apply Hkeep.
Qed.

(** A HELO reaches every connected connection of the targets that is not
    trusted, when the loop runs to its end. *)
Lemma broadcast_loop_helo m toSendTo w w' c conn :
  broadcast_loop (PM m) toSendTo w = (w', Returned VThis) ->
  c ∈ toSendTo ->
  heap w !! c = Some conn ->
  Connection.connected conn = true ->
  Connection.trusted conn = false ->
  loose_is (Header.type (header m)) type_helo = true ->
  exists new, trace w' = trace w ++ new /\ Send c m ∈ new.
Proof.
  intros Hloop Hin Hc Hcon Htr Hh. revert w Hloop Hin Hc.
  induction toSendTo as [|k rest IH]; intros w Hloop Hin Hc; [by apply elem_of_nil in Hin|].
  cbn [broadcast_loop] in Hloop.
  destruct (broadcast_to (PM m) w k) as [w1 r1] eqn:Hstep.
  destruct (broadcast_to_untrusted _ _ _ _ _ Hstep) as (Hkeep & new1 & Ht1 & _).
  destruct r1 as [v| |]; [|discriminate..].
  destruct (broadcast_loop_untrusted _ _ _ _ _ Hloop) as (_ & new2 & Ht2 & _).
  destruct (decide (k = c)) as [->|Hne].
  - unfold broadcast_to in Hstep. rewrite Hc, Hcon, Htr, Hh in Hstep.
    injection Hstep as <- _. exists ([Send c m] ++ new2). split.
    + rewrite Ht2. simpl. by rewrite <- app_assoc.
    + apply elem_of_app. left. by apply list_elem_of_singleton.
  - apply elem_of_cons in Hin as [->|Hin]; [done|].
    destruct (IH w1 Hloop Hin (Hkeep _ _ Hc Htr)) as (new & Hnew & Hsend).
    exists (new1 ++ new). split; [by rewrite Hnew, Ht1, app_assoc|].
    apply elem_of_app. by right.
Qed.

(** C7.  [broadcast] leaves every connection that is not trusted as it
    was, and the only frame it can write on one is the message itself,
    when the message is a [PeerMessage] whose header type is HELO.
    - For a [PeerMessage] of any other type nothing is written on the
      connection, and the turn of the loop on it is silent: it returns
      with the world as it was.
    - A HELO is written on every connected, untrusted connection among
      the targets when [broadcast] runs to its end.
    - For a message that is a string (given as [{ message: s }], or what
      [JSON.stringify] makes of an object) the turn on a connected,
      untrusted connection throws at the read of [message.header.type]:
      nothing is written on the connection, but [broadcast] throws and
      the rows after it are not served. *)
Theorem C7_untrusted_connections_get_only_helo
  w now options c conn :
  heap w !! c = Some conn ->
  Connection.trusted conn = false ->
  let message := broadcast_message now options ≫= as_payload in
  let o := broadcast w now options in
  heap (fst o) !! c = Some conn
  /\ (forall frame,
        frame ∈ frames_on c (added w (fst o)) ->
        message = Some (PM frame)
        /\ loose_is (Header.type (header frame)) type_helo = true)
  /\ (forall m,
        message = Some (PM m) ->
        loose_is (Header.type (header m)) type_helo = false ->
        frames_on c (added w (fst o)) = []
        /\ forall v, heap v !! c = Some conn ->
             broadcast_to (PM m) v c = (v, Returned VUndefined))
  /\ (forall m,
        message = Some (PM m) ->
        loose_is (Header.type (header m)) type_helo = true ->
        Connection.connected conn = true ->
        c ∈ targets w options ->
        snd o = Returned VThis ->
        Send c m ∈ added w (fst o))
  /\ (forall s,
        message = Some (Raw s) ->
        Connection.connected conn = true ->
        c ∈ targets w options ->
        Peer.peers (self w) <> [] ->
        snd o = Thrown
        /\ frames_on c (added w (fst o)) = []
        /\ forall v, heap v !! c = Some conn -> broadcast_to (Raw s) v c = (v, Thrown)).
Proof.
  intros Hc Ht message o.
  assert (heap (fst o) !! c = Some conn
    /\ (forall frame,
        frame ∈ frames_on c (added w (fst o)) ->
        message = Some (PM frame)
        /\ loose_is (Header.type (header frame)) type_helo = true)) as [Hheap Hframes].
  { unfold o, message, broadcast.
    destruct (Peer.peers (self w)) as [|p ps] eqn:Hps.
    { simpl. split; [done|]. intros frame. unfold added. rewrite drop_all.
      intros H. by apply elem_of_nil in H. }
    destruct (broadcast_message now options ≫= as_payload) as [msg|] eqn:Hmsg.
    2:{ simpl. split; [done|]. intros frame. unfold added. rewrite drop_all.
        intros H. by apply elem_of_nil in H. }
    match goal with |- context [broadcast_loop msg ?ts w] =>
      destruct (broadcast_loop msg ts w) as [w' r] eqn:Hloop end.
    destruct (broadcast_loop_untrusted _ _ _ _ _ Hloop) as (Hkeep & new & Htr & Hs).
    simpl. split; [eauto|].
    intros frame Hin. rewrite (added_app _ _ _ Htr) in Hin.
    apply elem_of_frames_on in Hin.
    destruct (Hs _ _ _ Hc Ht Hin) as [-> Hh]. by split. }
  assert (forall msg, message = Some msg ->
            (forall frame, msg <> PM frame) \/
            (exists frame, msg = PM frame
               /\ loose_is (Header.type (header frame)) type_helo = false) ->
            frames_on c (added w (fst o)) = []) as Hnone.
  { intros msg Hmsg Hno.
    destruct (frames_on c (added w (fst o))) as [|f l] eqn:Hfr; [reflexivity|].
    destruct (Hframes f) as [Heq Hhelo]; [apply elem_of_cons; by left|].
    rewrite Hmsg in Heq. injection Heq as ->.
    destruct Hno as [Hno|(frame & [= <-] & Hh)]; [by destruct (Hno f) | congruence]. }
  split; [exact Hheap|]. split; [exact Hframes|]. split; [|split].
  - intros m Hm Hh. split; [apply (Hnone _ Hm); right; by exists m|].
    intros v Hv. unfold broadcast_to. rewrite Hv, Ht, Hh.
    by destruct (Connection.connected conn).
  - intros m Hm Hh Hcon Hin Hret. unfold o, broadcast in Hret |- *.
    fold message in Hret |- *. rewrite Hm in Hret |- *.
    destruct (Peer.peers (self w)) as [|p ps]; [discriminate|].
    destruct (broadcast_loop (PM m) (targets w options) w) as [w' r] eqn:Hloop.
    simpl in Hret. subst r. simpl.
    destruct (broadcast_loop_helo _ _ _ _ _ _ Hloop Hin Hc Hcon Ht Hh) as (new & Hnew & Hsend).
    by rewrite (added_app _ _ _ Hnew).
  - intros s Hs Hcon Hin Hps. split; [|split].
    + unfold o, broadcast. fold message. rewrite Hs.
      destruct (Peer.peers (self w)) as [|p ps]; [done|].
      by apply broadcast_loop_raw with c conn.
    + apply (Hnone _ Hs). by left.
    + intros v Hv. unfold broadcast_to. by rewrite Hv, Hcon, Ht.
Qed.

(** ** C5: confirmation intake *)

Lemma delete_middle {A} (l1 l2 : list A) x : delete (length l1) (l1 ++ x :: l2) = l1 ++ l2.
Proof. induction l1 as [|y l1 IH]; simpl; [reflexivity | by rewrite IH]. Qed.

(** The loop looks only at the part of the list below its index. *)
Lemma confirm_loop_app hash timestamp pre suf :
  confirm_loop (length pre) hash timestamp (pre ++ suf)
  = (fun r => r ++ suf) <$> confirm_loop (length pre) hash timestamp pre.
Proof.
  revert suf. induction pre as [|x pre IH] using rev_ind; intros suf; [reflexivity|].
  rewrite length_app, Nat.add_1_r. simpl.
  rewrite <- app_assoc. simpl. rewrite !list_lookup_middle by reflexivity.
  destruct x as [e|s]; [|reflexivity].
  destruct (confirm_match e hash timestamp).
  - rewrite delete_middle. replace (pre ++ [PM e]) with (pre ++ PM e :: []) by reflexivity.
    rewrite delete_middle, app_nil_r. reflexivity.
  - rewrite (IH (PM e :: suf)), (IH [PM e]).
    destruct (confirm_loop (length pre) hash timestamp pre); simpl; [|reflexivity].
    by rewrite <- app_assoc.
Qed.

Lemma confirm_loop_snoc hash timestamp l x :
  confirm_loop (length (l ++ [x])) hash timestamp (l ++ [x])
  = match x with
    | PM e =>
        if confirm_match e hash timestamp then Some l
        else (fun r => r ++ [x]) <$> confirm_loop (length l) hash timestamp l
    | Raw _ => None
    end.
Proof.
  rewrite length_app, Nat.add_1_r. simpl.
  rewrite list_lookup_middle by reflexivity.
  destruct x as [e|s]; [|reflexivity].
  destruct (confirm_match e hash timestamp).
  - replace (l ++ [PM e]) with (l ++ PM e :: []) by reflexivity.
    by rewrite delete_middle, app_nil_r.
  - apply confirm_loop_app.
Qed.

Lemma existsb_snoc {A} (f : A -> bool) l x : existsb f (l ++ [x]) = existsb f l || f x.
Proof. rewrite existsb_app. simpl. by rewrite orb_false_r. Qed.

Lemma remove_last_match_snoc hash timestamp l x :
  remove_last_match hash timestamp (l ++ [x])
  = if confirms hash timestamp x then l else remove_last_match hash timestamp l ++ [x].
Proof.
  induction l as [|y l IH]; simpl.
  - by destruct (confirms hash timestamp x).
  - rewrite existsb_snoc, IH.
    destruct (confirms hash timestamp x); simpl.
    + by rewrite orb_true_r.
    + rewrite orb_false_r.
      destruct (existsb (confirms hash timestamp) l); [reflexivity|].
      by destruct (confirms hash timestamp y).
Qed.

(** The loop of the source against the specification's wording. *)
Lemma confirm_loop_removes_last_match hash timestamp l :
  Forall (fun x => is_pm x = true) l ->
  confirm_loop (length l) hash timestamp l = Some (remove_last_match hash timestamp l).
Proof.
  induction l as [|x l IH] using rev_ind; intros Hpm; [reflexivity|].
  apply Forall_app in Hpm as [Hl Hx]. apply Forall_cons in Hx as [Hx _].
  rewrite confirm_loop_snoc, remove_last_match_snoc.
  destruct x as [e|s]; [|discriminate]. simpl.
  destruct (confirm_match e hash timestamp); [reflexivity|].
  by rewrite (IH Hl).
Qed.

Lemma remove_last_match_none hash timestamp l :
  existsb (confirms hash timestamp) l = false -> remove_last_match hash timestamp l = l.
Proof.
  induction l as [|x l IH]; simpl; [reflexivity|].
  intros H. apply orb_false_iff in H as [Hx Hl]. by rewrite Hl, Hx.
Qed.

Lemma remove_last_match_split hash timestamp l1 x l2 :
  confirms hash timestamp x = true ->
  existsb (confirms hash timestamp) l2 = false ->
  remove_last_match hash timestamp (l1 ++ x :: l2) = l1 ++ l2.
Proof.
  intros Hx Hl2. induction l1 as [|y l1 IH]; simpl.
  - by rewrite Hl2, Hx.
  - rewrite existsb_app. simpl. rewrite Hx, orb_true_r. by rewrite IH.
Qed.

Lemma remove_last_match_pm hash timestamp l :
  Forall (fun x => is_pm x = true) l ->
  Forall (fun x => is_pm x = true) (remove_last_match hash timestamp l).
Proof.
  induction l as [|x l IH]; simpl; [done|].
  intros H. apply Forall_cons in H as [Hx Hl].
  destruct (existsb (confirms hash timestamp) l).
  - apply Forall_cons. split; auto.
  - destruct (confirms hash timestamp x); [done|]. by apply Forall_cons.
Qed.

(** With at most one matching entry, none is left after the removal. *)
Lemma remove_last_match_unique hash timestamp l :
  length (List.filter (confirms hash timestamp) l) <= 1 ->
  existsb (confirms hash timestamp) (remove_last_match hash timestamp l) = false.
Proof.
  induction l as [|x l IH]; simpl; [reflexivity|].
  destruct (confirms hash timestamp x) eqn:Hx; simpl; intros Hn.
  - assert (List.filter (confirms hash timestamp) l = []) as Hnil.
    { destruct (List.filter (confirms hash timestamp) l); [reflexivity | simpl in Hn; lia]. }
    assert (existsb (confirms hash timestamp) l = false) as Hl.
    { destruct (existsb (confirms hash timestamp) l) eqn:He; [|reflexivity].
      apply existsb_exists in He as (y & Hy & Hcy).
      assert (In y (List.filter (confirms hash timestamp) l)) as Hin
        by (apply filter_In; by split).
      rewrite Hnil in Hin. destruct Hin. }
    by rewrite Hl.
  - destruct (existsb (confirms hash timestamp) l) eqn:Hl; simpl.
    + by rewrite Hx, (IH Hn).
    + by rewrite Hx, Hl.
Qed.

Lemma alter_fixed {A} (f : A -> A) (l : list A) i x :
  l !! i = Some x -> f x = x -> alter f i l = l.
Proof.
  intros Hl Hf. apply list_eq. intros k.
  destruct (decide (i = k)) as [->|Hne].
  - by rewrite list_lookup_alter_eq, Hl; simpl; rewrite Hf.
  - by rewrite list_lookup_alter_ne.
Qed.

(** The CONFIRM branch on a list of [PeerMessage] objects. *)
Lemma receive_confirm_removes w now rnd_iv rnd_key c message m conn hash timestamp :
  falsy message = false ->
  PeerMessage_of message = Some m ->
  heap w !! c = Some conn ->
  Connection.trusted conn = true ->
  loose_is (Header.type (header m)) type_helo = false ->
  loose_is (Header.type (header m)) type_trusted = false ->
  loose_is (Header.type (header m)) type_confirm = true ->
  Peer.requireConfirmation (self w) = true ->
  Header.confirm (header m) = ConfirmObj (Some hash) (Some timestamp) ->
  Forall (fun x => is_pm x = true) (Connection.unconfirmedMessages conn) ->
  receive w now rnd_iv rnd_key c message =
    (update_connection c
       (Connection.set_unconfirmedMessages
          (remove_last_match hash timestamp (Connection.unconfirmedMessages conn)))
       (stamp_active w now conn),
     Returned VUndefined).
Proof.
  intros Hf Hm Hc Ht Hh Htr Hcf Hrc Hconf Hpm.
  rewrite (receive_unfold _ _ _ _ _ _ _ _ Hf Hm Hc). simpl.
  rewrite Hh, Ht, Htr, Hcf. unfold receive_confirm.
  change (Peer.requireConfirmation (self (stamp_active w now conn)))
    with (Peer.requireConfirmation (self w)).
  rewrite Hrc, Hconf. simpl.
  by rewrite (confirm_loop_removes_last_match _ _ _ Hpm).
Qed.

(** C5, amended.  On a trusted connection of a peer that requires
    confirmation, a CONFIRM whose [confirm] header carries the strings
    [hash] and [timestamp], arriving while the connection's
    [unconfirmedMessages] holds [PeerMessage] objects, removes the last
    entry of the list whose hash is [hash] and whose
    [timestamp.toISOString()] is [timestamp], and no other entry; when no
    entry matches the list is unchanged.  A second receipt of the same
    CONFIRM leaves the store unchanged when the list held at most one
    matching entry.  (When it held several, each receipt removes one of
    them.) *)
Theorem C5_confirm_removes_last_matching_entry
  w now rnd_iv rnd_key c message m conn hash timestamp :
  falsy message = false ->
  PeerMessage_of message = Some m ->
  heap w !! c = Some conn ->
  Connection.trusted conn = true ->
  loose_is (Header.type (header m)) type_helo = false ->
  loose_is (Header.type (header m)) type_trusted = false ->
  loose_is (Header.type (header m)) type_confirm = true ->
  Peer.requireConfirmation (self w) = true ->
  Header.confirm (header m) = ConfirmObj (Some hash) (Some timestamp) ->
  Forall (fun x => is_pm x = true) (Connection.unconfirmedMessages conn) ->
  let l := Connection.unconfirmedMessages conn in
  let w' := fst (receive w now rnd_iv rnd_key c message) in
  snd (receive w now rnd_iv rnd_key c message) = Returned VUndefined
  /\ unconfirmed_of w' c = Some (remove_last_match hash timestamp l)
  /\ trace w' = trace w
  /\ (forall l1 e l2,
        l = l1 ++ PM e :: l2 ->
        confirm_match e hash timestamp = true ->
        existsb (confirms hash timestamp) l2 = false ->
        unconfirmed_of w' c = Some (l1 ++ l2))
  /\ (existsb (confirms hash timestamp) l = false -> unconfirmed_of w' c = Some l)
  /\ (length (List.filter (confirms hash timestamp) l) <= 1 ->
      forall now' rnd_iv' rnd_key',
        heap (fst (receive w' now' rnd_iv' rnd_key' c message)) = heap w').
Proof.
  intros Hf Hm Hc Ht Hh Htr Hcf Hrc Hconf Hpm l w'.
  pose proof (receive_confirm_removes _ now rnd_iv rnd_key _ _ _ _ _ _
                Hf Hm Hc Ht Hh Htr Hcf Hrc Hconf Hpm) as Hrecv.
  fold l in Hrecv.
  assert (unconfirmed_of w' c = Some (remove_last_match hash timestamp l)) as Hlist.
  { unfold w', unconfirmed_of. rewrite Hrecv. simpl.
    rewrite list_lookup_alter_eq, Hc. reflexivity. }
  split; [by rewrite Hrecv|]. split; [exact Hlist|]. split; [unfold w'; by rewrite Hrecv|].
  split; [|split].
  - intros l1 e l2 Hl He Hl2. rewrite Hlist, Hl.
    by rewrite remove_last_match_split.
  - intros Hnone. by rewrite Hlist, remove_last_match_none.
  - intros Huniq now' rnd_iv' rnd_key'.
    set (conn' := Connection.set_unconfirmedMessages (remove_last_match hash timestamp l) conn).
    assert (heap w' !! c = Some conn') as Hc'.
    { unfold w'. rewrite Hrecv. simpl. rewrite list_lookup_alter_eq, Hc. reflexivity. }
    assert (Peer.requireConfirmation (self w') = true) as Hrc'.
    { unfold w'. rewrite Hrecv. exact Hrc. }
    rewrite (receive_confirm_removes w' now' rnd_iv' rnd_key' c message m conn' hash timestamp
               Hf Hm Hc' Ht Hh Htr Hcf Hrc' Hconf (remove_last_match_pm _ _ _ Hpm)).
    simpl. rewrite (remove_last_match_none _ _ _ (remove_last_match_unique _ _ _ Huniq)).
    by apply alter_fixed with conn'.
Qed.

(** ** C4: the confirmation retry *)

Lemma retry_scan_pm l msg :
  Forall (fun x => is_pm x = true) l ->
  retry_scan l msg = Some (existsb (awaits msg) l).
Proof.
  induction l as [|x l IH]; intros H; [reflexivity|].
  apply Forall_cons in H as [Hx Hl].
  destruct x as [e|s]; [|discriminate]. simpl.
  destruct (retry_match e msg); [reflexivity|]. by apply IH.
Qed.

Lemma awaits_exists l msg :
  existsb (awaits msg) l = true <->
  exists e, PM e ∈ l
    /\ Header.hash (header e) = Header.hash (header msg)
    /\ Date_toString (Header.timestamp (header e))
       = Date_toString (Header.timestamp (header msg)).
Proof.
  rewrite existsb_exists. split.
  - intros (x & Hin & Hx). destruct x as [e|s]; [|discriminate].
    simpl in Hx. unfold retry_match in Hx. apply andb_true_iff in Hx as [H1 H2].
    apply bool_decide_eq_true in H1, H2.
    exists e. split; [by apply list_elem_of_In | by split].
  - intros (e & Hin & H1 & H2). exists (PM e). split; [by apply list_elem_of_In|].
    simpl. unfold retry_match. apply andb_true_iff.
    split; by apply bool_decide_eq_true.
Qed.

(** Sealing touches the signature and the body only. *)
Lemma seal_header s conn copy :
  Header.hash (header (fst (seal s conn copy))) = Header.hash (header copy)
  /\ Header.timestamp (header (fst (seal s conn copy))) = Header.timestamp (header copy)
  /\ Header.type (header (fst (seal s conn copy))) = Header.type (header copy).
Proof.
  unfold seal. destruct (rsa_sign _ _); [|done].
  by destruct (aes_encrypt _ _ _).
Qed.

(** The turn of the loop on a connected, trusted connection. *)
Lemma broadcast_to_trusted message w c conn copy :
  heap w !! c = Some conn ->
  Connection.connected conn = true ->
  Connection.trusted conn = true ->
  PeerMessage_of message = Some copy ->
  broadcast_to message w c =
    (let final := fst (seal (self w) conn copy) in
     let w1 := if Peer.requireConfirmation (self w)
                  && negb (strict_is (Header.type (header copy)) type_confirm)
               then effect (SetTimeout 30000 (Retry c final)) w else w in
     let w2 := update_connection c (fun x =>
       Connection.set_unconfirmedMessages (Connection.unconfirmedMessages x ++ [message]) x) w1 in
     if snd (seal (self w) conn copy) then effect (Send c final) w2 else w2,
     Returned VUndefined).
Proof.
  intros Hc Hcon Htr Hcopy. unfold broadcast_to. rewrite Hc, Hcon, Htr, Hcopy.
  by destruct (seal (self w) conn copy).
Qed.

Lemma retry_scan_found l1 l2 msg :
  Forall (fun x => is_pm x = true) l1 ->
  existsb (awaits msg) l1 = true ->
  retry_scan (l1 ++ l2) msg = Some true.
Proof.
  induction l1 as [|x l1 IH]; intros Hpm Hex; [discriminate|].
  apply Forall_cons in Hpm as [Hx Hl]. destruct x as [e|s]; [|discriminate].
  simpl in Hex |- *. destruct (retry_match e msg); [reflexivity|]. by apply IH.
Qed.

(** One turn of the loop on a [PeerMessage] that the copy constructor
    accepts: the world it leaves. *)
Lemma broadcast_to_turn m copy w c x :
  PeerMessage_of (PM m) = Some copy ->
  heap w !! c = Some x ->
  broadcast_to (PM m) w c
  = (mkWorld (self w)
       (alter (fun y => if Connection.connected x && Connection.trusted x
                        then pushes 1 (PM m) y else y) c (heap w))
       (trace w ++ turn_trace (self w) m copy c x),
     Returned VUndefined).
Proof.
  intros Hcopy Hc.
  assert (alter (fun y : Connection.t => y) c (heap w) = heap w) as Hid
    by by apply list_alter_id.
  unfold turn_trace.
  destruct (Connection.connected x) eqn:Hcon; [destruct (Connection.trusted x) eqn:Htr|].
  - rewrite (broadcast_to_trusted _ _ _ _ _ Hc Hcon Htr Hcopy). simpl.
    destruct (seal (self w) x copy) as [final sent]. simpl.
    destruct sent, (_ && _); unfold effect, update_connection; simpl;
      rewrite <- ?app_assoc, ?app_nil_r; reflexivity.
  - unfold broadcast_to. rewrite Hc, Hcon, Htr. simpl. rewrite Hid.
    destruct (loose_is _ _); [reflexivity|]. rewrite app_nil_r. by destruct w.
  - unfold broadcast_to. rewrite Hc, Hcon. simpl. rewrite Hid, app_nil_r. by destruct w.
Qed.

(** The loop over distinct connections of the store: every turn is made,
    each on the connection as [broadcast] found it. *)
Lemma broadcast_loop_turns m copy toSendTo w :
  PeerMessage_of (PM m) = Some copy ->
  NoDup toSendTo ->
  (forall k, k ∈ toSendTo -> is_Some (heap w !! k)) ->
  exists w',
    broadcast_loop (PM m) toSendTo w = (w', Returned VThis)
    /\ self w' = self w
    /\ (forall k, heap w' !! k
          = (fun x => if bool_decide (k ∈ toSendTo)
                         && Connection.connected x && Connection.trusted x
                      then pushes 1 (PM m) x else x) <$> heap w !! k)
    /\ trace w'
       = trace w ++ concat (map (fun k => match heap w !! k with
                                          | Some x => turn_trace (self w) m copy k x
                                          | None => []
                                          end) toSendTo).
Proof.
  intros Hcopy. revert w.
  induction toSendTo as [|c rest IH]; intros w Hnd Hex; cbn [broadcast_loop].
  - exists w. cbn [map concat]. rewrite app_nil_r.
    split; [done|]. split; [done|]. split; [|done].
    intros k. rewrite bool_decide_false by apply not_elem_of_nil.
    by destruct (heap w !! k).
  - apply NoDup_cons in Hnd as [Hc Hnd].
    destruct (Hex c) as [x Hx]; [apply elem_of_cons; by left|].
    rewrite (broadcast_to_turn m copy w c x Hcopy Hx).
    set (w1 := mkWorld _ _ _).
    assert (forall k, k <> c -> heap w1 !! k = heap w !! k) as Hother
      by (intros k Hk; unfold w1; simpl; by rewrite list_lookup_alter_ne).
    destruct (IH w1 Hnd) as (w' & Hloop & Hs2 & Hh2 & Ht2).
    { intros k Hk. rewrite Hother; [apply Hex, elem_of_cons; by right|].
      intros ->. contradiction. }
    exists w'. split; [exact Hloop|]. split; [by rewrite Hs2|]. split.
    + intros k. rewrite Hh2. destruct (decide (k = c)) as [->|Hne].
      * unfold w1. simpl. rewrite list_lookup_alter_eq, Hx.
        rewrite (bool_decide_false (c ∈ rest)) by done.
        rewrite (bool_decide_true (c ∈ c :: rest)) by (apply elem_of_cons; by left).
        reflexivity.
      * rewrite Hother by done.
        assert (bool_decide (k ∈ c :: rest) = bool_decide (k ∈ rest)) as ->; [|reflexivity].
        apply bool_decide_ext. rewrite elem_of_cons. tauto.
    + rewrite Ht2. unfold w1 at 1 2. simpl. rewrite Hx, <- app_assoc. do 3 f_equal.
      apply map_ext_in. intros k Hk. apply list_elem_of_In in Hk.
      rewrite Hother; [reflexivity|]. intros ->. contradiction.
Qed.

Lemma frames_on_app c t1 t2 : frames_on c (t1 ++ t2) = frames_on c t1 ++ frames_on c t2.
Proof. apply omap_app. Qed.

Lemma retries_on_app c t1 t2 : retries_on c (t1 ++ t2) = retries_on c t1 ++ retries_on c t2.
Proof. apply omap_app. Qed.

(** A turn asks for nothing on a connection other than its own. *)
Lemma turn_trace_other s m copy k x c :
  k <> c ->
  frames_on c (turn_trace s m copy k x) = [] /\ retries_on c (turn_trace s m copy k x) = [].
Proof.
  intros Hne. unfold turn_trace.
  destruct (Connection.connected x); [|done].
  destruct (Connection.trusted x).
  - destruct (_ && _), (snd (seal s x copy)); simpl; by rewrite ?decide_False.
  - destruct (loose_is _ _); simpl; by rewrite ?decide_False.
Qed.

(** Of the turns on distinct connections, the one on [c] alone counts
    for [c]. *)
Lemma turns_on s m copy (h : list Connection.t) toSendTo c x :
  NoDup toSendTo ->
  c ∈ toSendTo ->
  h !! c = Some x ->
  let t := concat (map (fun k => match h !! k with
                                 | Some y => turn_trace s m copy k y
                                 | None => []
                                 end) toSendTo) in
  frames_on c t = frames_on c (turn_trace s m copy c x)
  /\ retries_on c t = retries_on c (turn_trace s m copy c x).
Proof.
  intros Hnd Hin Hx. cbv zeta.
  assert (forall l, c ∉ l ->
    frames_on c (concat (map (fun k => match h !! k with
                                       | Some y => turn_trace s m copy k y
                                       | None => []
                                       end) l)) = []
    /\ retries_on c (concat (map (fun k => match h !! k with
                                           | Some y => turn_trace s m copy k y
                                           | None => []
                                           end) l)) = []) as Hnone.
  { induction l as [|k l IHl]; intros Hni; [done|].
    apply not_elem_of_cons in Hni as [Hne Hni]. simpl.
    rewrite frames_on_app, retries_on_app.
    destruct (IHl Hni) as [-> ->]. rewrite !app_nil_r.
    destruct (h !! k) as [y|]; [|done]. by apply turn_trace_other. }
  induction toSendTo as [|k rest IH]; [by apply elem_of_nil in Hin|].
  apply NoDup_cons in Hnd as [Hk Hnd]. simpl.
  rewrite frames_on_app, retries_on_app.
  destruct (decide (k = c)) as [->|Hne].
  - rewrite Hx. destruct (Hnone rest Hk) as [-> ->]. by rewrite !app_nil_r.
  - apply elem_of_cons in Hin as [->|Hin]; [done|].
    destruct (IH Hnd Hin) as [-> ->].
    assert (frames_on c (match h !! k with
                         | Some y => turn_trace s m copy k y
                         | None => []
                         end) = []
            /\ retries_on c (match h !! k with
                             | Some y => turn_trace s m copy k y
                             | None => []
                             end) = []) as [-> ->]; [|done].
    destruct (h !! k) as [y|]; [|done]. by apply turn_trace_other.
Qed.

(** [broadcast] of a [PeerMessage] to distinct connections of the store,
    seen from one of them that is connected and trusted. *)
Lemma broadcast_at w now options m c conn copy :
  Peer.peers (self w) <> [] ->
  broadcast_message now options ≫= as_payload = Some (PM m) ->
  NoDup (targets w options) ->
  (forall k, k ∈ targets w options -> is_Some (heap w !! k)) ->
  c ∈ targets w options ->
  heap w !! c = Some conn ->
  Connection.connected conn = true ->
  Connection.trusted conn = true ->
  PeerMessage_of (PM m) = Some copy ->
  let w1 := fst (broadcast w now options) in
  snd (broadcast w now options) = Returned VThis
  /\ self w1 = self w
  /\ heap w1 !! c = Some (pushes 1 (PM m) conn)
  /\ frames_on c (added w w1) = frames_on c (turn_trace (self w) m copy c conn)
  /\ retries_on c (added w w1) = retries_on c (turn_trace (self w) m copy c conn).
Proof.
  intros Hps Hmsg Hnd Hex Hin Hc Hcon Htr Hcopy. cbv zeta.
  unfold broadcast. destruct (Peer.peers (self w)) as [|p ps]; [done|].
  rewrite Hmsg.
  destruct (broadcast_loop_turns m copy _ w Hcopy Hnd Hex) as (w' & -> & Hs & Hh & Ht).
  simpl. split; [done|]. split; [done|]. split.
  - rewrite Hh, Hc. simpl. rewrite bool_decide_true by done. by rewrite Hcon, Htr.
  - rewrite (added_app _ _ _ Ht). by apply turns_on.
Qed.

(** C4, amended.  When the sending peer's [requireConfirmation] is true
    and a [PeerMessage] whose copy is not of type CONFIRM is broadcast,
    to one connection or to every row of the table (the targets being
    distinct connections of the store, as the rows are in every world
    that the handlers lead to), then for a target [c] that is connected
    and trusted:
    - the message is pushed on the [unconfirmedMessages] of [c], one
      timer of 30000 ms is set for [c], holding the copy made for [c],
      and at most one frame, that copy as sealed, is written on [c];
    - when the timer fires it reads the list of [c] as it is then.  If,
      before any entry that is a string, an entry has the copy's hash and
      a timestamp that compares equal to the copy's, the timer hands its
      copy to [broadcast] again, with no connection given, so for every
      row of the table, and returns undefined; if the list holds
      [PeerMessage] objects and no such entry, nothing happens;
    - so if the list held [PeerMessage] objects and no such entry
      before, the copy keeps the hash and timestamp of the message, and
      the peer's CONFIRM for the frame arrives before the timer fires,
      then the entry is gone by then, the timer of [c] does nothing, and
      the frame written at first is still the only frame on [c]. *)
Theorem C4_retry_reads_unconfirmed_when_it_fires
  w now options m c conn copy :
  Peer.peers (self w) <> [] ->
  broadcast_message now options ≫= as_payload = Some (PM m) ->
  NoDup (targets w options) ->
  (forall k, k ∈ targets w options -> is_Some (heap w !! k)) ->
  c ∈ targets w options ->
  heap w !! c = Some conn ->
  Connection.connected conn = true ->
  Connection.trusted conn = true ->
  PeerMessage_of (PM m) = Some copy ->
  Peer.requireConfirmation (self w) = true ->
  strict_is (Header.type (header copy)) type_confirm = false ->
  let final := fst (seal (self w) conn copy) in
  let sent := snd (seal (self w) conn copy) in
  let w1 := fst (broadcast w now options) in
  (snd (broadcast w now options) = Returned VThis
   /\ retries_on c (added w w1) = [(30000%Z, final)]
   /\ frames_on c (added w w1) = (if sent then [final] else [])
   /\ unconfirmed_of w1 c = Some (Connection.unconfirmedMessages conn ++ [PM m]))
  /\ (forall w' now' conn',
        heap w' !! c = Some conn' ->
        let pending (l : list Payload) :=
          exists e, PM e ∈ l
            /\ Header.hash (header e) = Header.hash (header final)
            /\ Date_toString (Header.timestamp (header e))
               = Date_toString (Header.timestamp (header final)) in
        let again := broadcast w' now' (OptPeerMessage final) in
        (forall l1 l2,
           Connection.unconfirmedMessages conn' = l1 ++ l2 ->
           Forall (fun x => is_pm x = true) l1 ->
           pending l1 ->
           fire_retry w' now' c final
           = (fst again, match snd again with
                         | Returned _ => Returned VUndefined
                         | other => other
                         end)
           /\ targets w' (OptPeerMessage final)
              = map PeerEntry.connection (Peer.peers (self w')))
        /\ (Forall (fun x => is_pm x = true) (Connection.unconfirmedMessages conn') ->
            ~ pending (Connection.unconfirmedMessages conn') ->
            fire_retry w' now' c final = (w', Returned VUndefined)))
  /\ (forall cmsg cm now1 rnd_iv rnd_key now2,
        Forall (fun x => is_pm x = true) (Connection.unconfirmedMessages conn) ->
        existsb (awaits final) (Connection.unconfirmedMessages conn) = false ->
        Header.hash (header copy) = Header.hash (header m) ->
        Header.timestamp (header copy) = Header.timestamp (header m) ->
        sent = true ->
        falsy cmsg = false ->
        PeerMessage_of cmsg = Some cm ->
        loose_is (Header.type (header cm)) type_helo = false ->
        loose_is (Header.type (header cm)) type_trusted = false ->
        loose_is (Header.type (header cm)) type_confirm = true ->
        Header.confirm (header cm)
        = ConfirmObj (Some (Header.hash (header final)))
                     (Some (Date_toISOString (Header.timestamp (header final)))) ->
        let w2 := fst (receive w1 now1 rnd_iv rnd_key c cmsg) in
        let w3 := fst (fire_retry w2 now2 c final) in
        frames_on c (added w w3) = [final]
        /\ unconfirmed_of w3 c = Some (Connection.unconfirmedMessages conn)
        /\ fire_retry w2 now2 c final = (w2, Returned VUndefined)).
Proof.
  intros Hps Hmsg Hnd Hex Hin Hc Hcon Htr Hcopy Hrc Hty final sent w1.
  destruct (broadcast_at _ _ _ _ _ _ _ Hps Hmsg Hnd Hex Hin Hc Hcon Htr Hcopy)
    as (Hret & Hs1 & Hc1 & Hfr & Hrt).
  fold w1 in Hs1, Hc1, Hfr, Hrt.
  assert (turn_trace (self w) m copy c conn
          = SetTimeout 30000 (Retry c final) :: (if sent then [Send c final] else [])) as Hturn.
  { unfold turn_trace. by rewrite Hcon, Htr, Hrc, Hty. }
  rewrite Hturn in Hfr, Hrt.
  assert (frames_on c (added w w1) = (if sent then [final] else [])) as Hfr'.
  { rewrite Hfr. destruct sent; simpl; by rewrite ?decide_True. }
  assert (Peer.requireConfirmation (self w1) = true) as Hrc1 by by rewrite Hs1.
  split; [|split].
  - split; [done|]. split; [|split; [done|]].
    + rewrite Hrt. destruct sent; simpl; by rewrite decide_True.
    + unfold unconfirmed_of. by rewrite Hc1.
  - intros w' now' conn' Hc' pending again. split.
    + intros l1 l2 Hl Hpm Hp. split; [|reflexivity].
      unfold fire_retry. rewrite Hc', Hl.
      rewrite (retry_scan_found l1 l2 final Hpm) by by apply awaits_exists.
      fold again. by destruct again as [wa [v| |]].
    + intros Hpm Hn. unfold fire_retry. rewrite Hc', (retry_scan_pm _ _ Hpm).
      destruct (existsb (awaits final) (Connection.unconfirmedMessages conn')) eqn:Hex';
        [|reflexivity].
      exfalso. apply Hn. by apply awaits_exists.
  - intros cmsg cm now1 rnd_iv rnd_key now2 Hpm Hfree Hhash Hts Hsent
           Hf Hcm Hh Htrd Hcf Hconf w2 w3.
    destruct (seal_header (self w) conn copy) as (Hsh & Hst & _). fold final in Hsh, Hst.
    assert (Forall (fun x => is_pm x = true) (Connection.unconfirmedMessages conn ++ [PM m]))
      as Hpm1 by (apply Forall_app; split; [done | by apply Forall_cons]).
    pose proof (receive_confirm_removes w1 now1 rnd_iv rnd_key c cmsg cm _ _ _
                  Hf Hcm Hc1 Htr Hh Htrd Hcf Hrc1 Hconf Hpm1) as Hrecv.
    simpl in Hrecv. rewrite remove_last_match_snoc in Hrecv.
    assert (confirms (Header.hash (header final))
                     (Date_toISOString (Header.timestamp (header final))) (PM m) = true) as Hm.
    { simpl. unfold confirm_match. apply andb_true_iff.
      split; apply bool_decide_eq_true; congruence. }
    rewrite Hm in Hrecv.
    assert (heap w2 !! c
            = Some (Connection.set_unconfirmedMessages (Connection.unconfirmedMessages conn)
                      (pushes 1 (PM m) conn))) as Hc2.
    { unfold w2. rewrite Hrecv. simpl. by rewrite list_lookup_alter_eq, Hc1. }
    assert (fire_retry w2 now2 c final = (w2, Returned VUndefined)) as Hfire.
    { unfold fire_retry. rewrite Hc2. simpl. by rewrite (retry_scan_pm _ _ Hpm), Hfree. }
    unfold w3. rewrite Hfire. simpl.
    assert (trace w2 = trace w1) as Ht2 by (unfold w2; by rewrite Hrecv).
    split; [|split; [|done]].
    + unfold added. rewrite Ht2. fold (added w w1). rewrite Hfr'. fold sent. by rewrite Hsent.
    + unfold unconfirmed_of. by rewrite Hc2.
Qed.

(** ** C8: port expansion *)

Lemma inDiscoveryAddresses_elem s d :
  inDiscoveryAddresses s d = bool_decide (d ∈ Peer.discoveryAddresses s).
Proof.
  unfold inDiscoveryAddresses. symmetry.
  destruct (existsb _ _) eqn:He.
  - apply existsb_exists in He as (x & Hin & Hx). apply bool_decide_eq_true in Hx as ->.
    apply bool_decide_eq_true. by apply list_elem_of_In.
  - apply bool_decide_eq_false. intros Hin. apply list_elem_of_In in Hin.
    assert (existsb (fun d0 => bool_decide (d0 = d)) (Peer.discoveryAddresses s) = true) as H.
    { apply existsb_exists. exists d. split; [done | by apply bool_decide_eq_true]. }
    congruence.
Qed.








Lemma fold_left_map_offer {A} (f : A -> Candidate.t) l w :
  fold_left (fun w i => offer w (f i)) l w = fold_left offer (map f l) w.
Proof. revert w. induction l as [|x l IH]; intros w; simpl; [reflexivity | apply IH]. Qed.

Lemma expand_fold parsedAddress peerToDiscover w :
  expand parsedAddress peerToDiscover w
  = fold_left offer (port_candidates parsedAddress peerToDiscover w) w.
Proof.
  unfold expand, port_candidates.
  destruct (valid_range (Peer.range (self w))) as [[lo hi]|]; [|reflexivity].
  apply fold_left_map_offer.
Qed.








(** One call of [discoverOne], in terms of [next]. *)
Lemma discoverOne_unfold fuel w d rest :
  Peer.discoveryAddresses (self w) = d :: rest ->
  discoverOne (S fuel) w
  = let w0 := set_self (Peer.set_discoveryAddresses rest) w in
    match (if isConnectedTo w0 d then next fuel w0 else Some (w0, Returned VUndefined)) with
    | None => None
    | Some (w1, Returned _) =>
        match Candidate.address d with
        | AddrStr a =>
            let a := strip_ffff a in
            match parse_target a (hasProtocol a) (hasPort a) with
            | None => Some (w1, Thrown)
            | Some parsedAddress =>
                if negb (hasPort a)
                then next fuel (expand parsedAddress d w1)
                else
                  Some (effect (Dial (url_format parsedAddress)
                                     (Candidate.set_address (AddrStr a) d)
                                     parsedAddress) w1,
                        Returned VUndefined)
            end
        | _ => Some (w1, Thrown)
        end
    | Some (w1, other) => Some (w1, other)
    end.
Proof. intros Hq. cbn [discoverOne]. rewrite Hq. reflexivity. Qed.







End Properties.

(** * More of the program's behaviour *)

Section Behaviour.

Context {RT : Runtime}.

(** ** The HELO branch: the other outcomes *)

Lemma helo_check_verified s b pk sg :
  helo_check s b = HeloChecked pk sg true <->
  NodeRSA_new (fst (helo_fields b)) = Some pk
  /\ Buffer_from_base64 (snd (helo_fields b)) = Some sg
  /\ isOwnSignature s (Some sg) = false
  /\ rsa_verify (Peer.ringPublicKey s) (fst (helo_fields b)) sg = Some true.
Proof.
  unfold helo_check. destruct (helo_fields b) as [publicKey signature]. cbn [fst snd].
  destruct (NodeRSA_new publicKey) as [pk'|].
  2:{ split; [intros H; discriminate H | intros (H & _); discriminate H]. }
  destruct (Buffer_from_base64 signature) as [sg'|].
  2:{ split; [intros H; discriminate H | intros (_ & H & _); discriminate H]. }
  destruct (isOwnSignature s (Some sg')) eqn:Hown.
  { split; [intros H; discriminate H|]. intros (_ & H & H' & _). congruence. }
  destruct (rsa_verify _ publicKey sg') as [v|] eqn:Hv.
  - split.
    + intros H. injection H as -> -> ->. by repeat split.
    + intros (H1 & H2 & _ & H3). congruence.
  - split; [intros H; discriminate H|]. intros (_ & H & _ & H'). congruence.
Qed.

(** X1.  A HELO that the ring key verifies marks the connection at once:
    [trusted], the peer's key and signature and fresh session material,
    on that connection and no other.  Whether the peer is already
    connected on another connection is not asked.  Then either building
    the reply throws and nothing is written, or exactly one frame is
    written, of type TRUSTED, with the session material encrypted under
    the peer's key, this peer's port, public address and
    [requireConfirmation], and a peer list without the peer itself. *)
Theorem verified_helo_establishes_session
  w now rnd_iv rnd_key c message m conn pk sg :
  falsy message = false ->
  PeerMessage_of message = Some m ->
  heap w !! c = Some conn ->
  loose_is (Header.type (header m)) type_helo = true ->
  helo_check (self w) (body m) = HeloChecked pk sg true ->
  heap (fst (receive w now rnd_iv rnd_key c message))
  = alter (Connection.set_session pk sg rnd_iv rnd_key) c (heap w)
  /\ (snd (receive w now rnd_iv rnd_key c message) = Thrown
      /\ added w (fst (receive w now rnd_iv rnd_key c message)) = []
      \/ snd (receive w now rnd_iv rnd_key c message) = Returned VUndefined
         /\ exists encryptedIV encryptedKey knownPeers frame,
              rsa_encrypt pk rnd_iv = Some encryptedIV
              /\ rsa_encrypt pk rnd_key = Some encryptedKey
              /\ added w (fst (receive w now rnd_iv rnd_key c message)) = [Send c frame]
              /\ Header.type (header frame) = TNum type_trusted
              /\ body frame
                 = BodyTrusted
                     (TrustedBody.mk (Some encryptedKey) (Some encryptedIV) (Some knownPeers)
                        (Some (Listening.mk (Some (Peer.publicAddress (self w)))
                                            (Some (Peer.port (self w)))))
                        (Some (Peer.requireConfirmation (self w))))
              /\ forall e, e ∈ knownPeers -> Candidate.signature e <> Some sg).
Proof.
  intros Hf Hm Hc Hh Hchk.
  rewrite (receive_unfold _ _ _ _ _ _ _ _ Hf Hm Hc). simpl.
  rewrite Hh. unfold receive_helo. rewrite helo_check_stamp, Hchk.
  split; [by rewrite helo_trust_heap|].
  unfold helo_trust.
  destruct (rsa_encrypt pk rnd_iv) as [encryptedIV|];
    [|left; split; [done | apply added_app; by rewrite app_nil_r]].
  destruct (rsa_encrypt pk rnd_key) as [encryptedKey|];
    [|left; split; [done | apply added_app; by rewrite app_nil_r]].
  destruct (getPeerList _ (Some [sg])) as [knownPeers|] eqn:Hlist;
    [|left; split; [done | apply added_app; by rewrite app_nil_r]].
  destruct (rsa_sign _ _) as [sgn|];
    [|left; split; [done | apply added_app; by rewrite app_nil_r]].
  right. split; [done|].
  eexists encryptedIV, encryptedKey, knownPeers, _.
  split; [done|]. split; [done|]. split; [by apply added_app|].
  split; [done|]. split; [done|].
  intros e He. unfold getPeerList in Hlist.
  destruct (getPeerList_loop_elem _ _ _ _ _ _ Hlist He) as [Hin|(p & _ & Hp)];
    [by apply elem_of_nil in Hin|].
  destruct (peer_list_entry_Some _ _ _ _ Hp) as (conn' & sg' & a & _ & _ & _ & Hom & ->).
  simpl. intros [= ->]. apply Hom. simpl. apply elem_of_cons. by left.
Qed.

(** X2.  A HELO whose public key or signature does not parse, or whose
    verification throws, is caught: [receive] returns [false], and no
    connection is closed, marked or written on. *)
Theorem unparsable_helo_is_caught
  w now rnd_iv rnd_key c message m conn :
  falsy message = false ->
  PeerMessage_of message = Some m ->
  heap w !! c = Some conn ->
  loose_is (Header.type (header m)) type_helo = true ->
  (NodeRSA_new (fst (helo_fields (body m))) = None
   \/ Buffer_from_base64 (snd (helo_fields (body m))) = None
   \/ exists sg, Buffer_from_base64 (snd (helo_fields (body m))) = Some sg
        /\ isOwnSignature (self w) (Some sg) = false
        /\ rsa_verify (Peer.ringPublicKey (self w)) (fst (helo_fields (body m))) sg = None) ->
  receive w now rnd_iv rnd_key c message = (stamp_active w now conn, Returned VFalse)
  /\ heap (stamp_active w now conn) = heap w
  /\ added w (stamp_active w now conn) = [].
Proof.
  intros Hf Hm Hc Hh Hbad.
  rewrite (receive_unfold _ _ _ _ _ _ _ _ Hf Hm Hc). simpl.
  rewrite Hh. unfold receive_helo. rewrite helo_check_stamp.
  assert (helo_check (self w) (body m) = HeloCaught) as ->.
  { unfold helo_check. destruct (helo_fields (body m)) as [publicKey signature].
    cbn [fst snd] in Hbad.
    destruct Hbad as [H|[H|(sg & Hs & Hown & Hv)]].
    - by rewrite H.
    - rewrite H. by destruct (NodeRSA_new publicKey).
    - rewrite Hs, Hown, Hv. by destruct (NodeRSA_new publicKey). }
  repeat split. apply added_app. by rewrite app_nil_r.
Qed.

(** X3.  Before a connection is trusted, anything but a HELO is ignored:
    TRUSTED, CONFIRM, PEERS and data frames alike leave every connection
    and the trace as they were. *)
Theorem untrusted_connection_accepts_only_helo
  w now rnd_iv rnd_key c message m conn :
  falsy message = false ->
  PeerMessage_of message = Some m ->
  heap w !! c = Some conn ->
  Connection.trusted conn = false ->
  loose_is (Header.type (header m)) type_helo = false ->
  receive w now rnd_iv rnd_key c message = (stamp_active w now conn, Returned VUndefined)
  /\ heap (stamp_active w now conn) = heap w
  /\ added w (stamp_active w now conn) = [].
Proof.
  intros Hf Hm Hc Ht Hh.
  rewrite (receive_unfold _ _ _ _ _ _ _ _ Hf Hm Hc). simpl.
  rewrite Hh, Ht. repeat split. apply added_app. by rewrite app_nil_r.
Qed.


(** [isConnectedTo] looks at this peer's signature, at the rows'
    connections and at their [peerPublicKeySignature] only. *)
Lemma has_signature_at w sg p :
  has_signature w sg p
  = match signature_at w (PeerEntry.connection p) with
    | Some b => bool_decide (b = sg)
    | None => false
    end.
Proof.
  unfold has_signature, signature_at.
  by destruct (heap w !! PeerEntry.connection p) as [conn|].
Qed.

Lemma isConnectedTo_ext w w' d :
  Peer.signature (self w') = Peer.signature (self w) ->
  map PeerEntry.connection (Peer.peers (self w'))
  = map PeerEntry.connection (Peer.peers (self w)) ->
  (forall k, signature_at w' k = signature_at w k) ->
  isConnectedTo w' d = isConnectedTo w d.
Proof.
  intros Hs Hp Hk. unfold isConnectedTo.
  destruct (Candidate.signature d) as [sg|]; [|reflexivity].
  rewrite Hs. f_equal.
  assert (forall v l,
    existsb (has_signature v sg) l
    = existsb (fun k => match signature_at v k with
                        | Some b => bool_decide (b = sg)
                        | None => false
                        end) (map PeerEntry.connection l)) as Hmap.
  { intros v l. induction l as [|p l IH]; simpl; [reflexivity|].
    by rewrite has_signature_at, IH. }
  rewrite !Hmap, Hp. clear Hp Hmap.
  induction (map PeerEntry.connection (Peer.peers (self w))) as [|k ks IH]; simpl;
    [reflexivity | by rewrite Hk, IH].
Qed.

(** ** The TRUSTED branch *)

Lemma gossip_trace w l : trace (fst (gossip w l)) = trace w.
Proof.
  revert w. induction l as [|d l IH]; intros w; simpl; [reflexivity|].
  destruct (Candidate.address d); try reflexivity.
  rewrite IH. by destruct (offer_frame w (Candidate.set_address
    (AddrStr (if String.prefix "::ffff:" s then substring 7 (String.length s - 7) s else s))
    d)) as (_ & -> & _).
Qed.



(** X4.  A TRUSTED message on a trusted connection, with [iv] and [key]
    that this peer's private key decrypts, records both on the connection
    as [peerIv] and [peerKey], emits one [connection] event and nothing
    else, and records the peer's [requireConfirmation] and listening
    address and port when the body has them; no other connection changes.
    When [iv] decrypts and [key] does not, [peerIv] has been recorded
    already, no event is emitted and [receive] returns [false]. *)
Theorem trusted_message_records_session
  w now rnd_iv rnd_key c message m conn t iv64 key64 peerIv :
  falsy message = false ->
  PeerMessage_of message = Some m ->
  heap w !! c = Some conn ->
  Connection.trusted conn = true ->
  loose_is (Header.type (header m)) type_helo = false ->
  loose_is (Header.type (header m)) type_trusted = true ->
  body m = BodyTrusted t ->
  TrustedBody.iv t = Some iv64 ->
  TrustedBody.key t = Some key64 ->
  Buffer_from_base64 (Some iv64) ≫= rsa_decrypt (Peer.privateKey (self w)) = Some peerIv ->
  match Buffer_from_base64 (Some key64) ≫= rsa_decrypt (Peer.privateKey (self w)) with
  | None =>
      receive w now rnd_iv rnd_key c message
      = (update_connection c (Connection.set_peerIv (Some peerIv)) (stamp_active w now conn),
         Returned VFalse)
  | Some peerKey =>
      added w (fst (receive w now rnd_iv rnd_key c message))
      = [Emit "connection" (Some c) None]
      /\ heap (fst (receive w now rnd_iv rnd_key c message)) !! c
         = Some (record_listening (TrustedBody.listening t)
                   (match TrustedBody.requireConfirmation t with
                    | Some b => Connection.set_requireConfirmation b
                    | None => fun x => x
                    end
                      (Connection.set_peerKey (Some peerKey)
                         (Connection.set_peerIv (Some peerIv) conn))))
      /\ (forall k, k <> c ->
            heap (fst (receive w now rnd_iv rnd_key c message)) !! k = heap w !! k)
  end.
Proof.
  intros Hf Hm Hc Ht Hh Htr Hb Hiv Hkey Hdi.
  rewrite (receive_unfold _ _ _ _ _ _ _ _ Hf Hm Hc). simpl.
  rewrite Hh, Ht, Htr. unfold receive_trusted. rewrite Hb, Hiv, Hkey.
  change (Peer.privateKey (self (stamp_active w now conn))) with (Peer.privateKey (self w)).
  rewrite Hdi.
  destruct (Buffer_from_base64 (Some key64) ≫= rsa_decrypt (Peer.privateKey (self w)))
    as [peerKey|]; [|reflexivity].
  match goal with |- context [update_connection c ?f (effect ?e ?w2)] =>
    set (w4 := update_connection c f (effect e w2)) end.
  assert (trace w4 = trace w ++ [Emit "connection" (Some c) None]) as Htrace by reflexivity.
  assert (heap w4 !! c
          = Some (record_listening (TrustedBody.listening t)
                    (match TrustedBody.requireConfirmation t with
                     | Some b => Connection.set_requireConfirmation b
                     | None => fun x => x
                     end
                       (Connection.set_peerKey (Some peerKey)
                          (Connection.set_peerIv (Some peerIv) conn))))) as Hc4.
  { unfold w4. simpl. rewrite !list_lookup_alter_eq, Hc. simpl.
    by destruct (TrustedBody.requireConfirmation t). }
  assert (forall k, k <> c -> heap w4 !! k = heap w !! k) as Hother.
  { intros k Hk. unfold w4. simpl. by rewrite !list_lookup_alter_ne. }
  destruct (listening_throws _); [simpl; split; [by apply added_app|]; by split|].
  destruct (TrustedBody.peers t) as [l|].
  - pose proof (gossip_heap w4 l) as Hg. pose proof (gossip_trace w4 l) as Hgt.
    destruct (gossip w4 l) as [w5 ok] eqn:Hgo. simpl in Hg, Hgt.
    assert (added w w5 = [Emit "connection" (Some c) None]) as Hadded
      by (apply added_app; by rewrite Hgt).
    destruct ok; [destruct (_ <? _)%nat|]; simpl; rewrite Hg; by repeat split.
  - simpl. split; [by apply added_app|]. by split.
Qed.



(** ** The data branch *)

Lemma touch_active_nonempty w a stamp ps : ps <> [] -> touch_active w a stamp ps <> [].
Proof.
  intros Hps Hnil. apply Hps.
  pose proof (touch_active_connections w a stamp ps) as Hmap.
  rewrite Hnil in Hmap. by destruct ps.
Qed.

(** X6.  A data frame that opens on a connection whose peer did not ask
    for confirmation is delivered and nothing else happens: one [message]
    event with the decrypted body in place of the ciphertext, followed by
    one event named after the type when the type is a string; no frame is
    written and no connection changes. *)
Theorem data_frame_is_delivered
  w now rnd_iv rnd_key c message m conn b :
  falsy message = false ->
  PeerMessage_of message = Some m ->
  heap w !! c = Some conn ->
  Connection.trusted conn = true ->
  loose_is (Header.type (header m)) type_helo = false ->
  loose_is (Header.type (header m)) type_trusted = false ->
  loose_is (Header.type (header m)) type_confirm = false ->
  loose_is (Header.type (header m)) type_peers = false ->
  open_frame conn m = Some b ->
  Connection.requireConfirmation conn = false ->
  snd (receive w now rnd_iv rnd_key c message) = Returned VUndefined
  /\ heap (fst (receive w now rnd_iv rnd_key c message)) = heap w
  /\ added w (fst (receive w now rnd_iv rnd_key c message))
     = Emit "message" (Some c) (Some (set_body b m))
       :: match Header.type (header m) with
          | TStr s => [Emit (PEER_MESSAGE_STRING (TStr s)) (Some c) (Some (set_body b m))]
          | TNum _ => []
          end.
Proof.
  intros Hf Hm Hc Ht Hh Htr Hcf Hp Hopen Hrc.
  rewrite (receive_unfold _ _ _ _ _ _ _ _ Hf Hm Hc). simpl.
  rewrite Hh, Ht, Htr, Hcf, Hp. unfold receive_data. rewrite Hopen, Hrc. simpl.
  destruct (Header.type (header m)) as [n|s]; simpl;
    (split; [done|]; split; [done|]; apply added_app; simpl;
     by rewrite <- ?app_assoc).
Qed.

(** X7.  A data frame that opens on a connection whose peer asked for
    confirmation is acknowledged before it is delivered: a CONFIRM naming
    the frame's hash and timestamp is sealed and written on that
    connection alone, then the events follow.  No retry timer is set for
    the CONFIRM, but the CONFIRM itself is pushed on the connection's
    [unconfirmedMessages], whether or not sealing it succeeded. *)
Theorem data_frame_is_acknowledged
  w now rnd_iv rnd_key c message m conn b copy :
  falsy message = false ->
  PeerMessage_of message = Some m ->
  heap w !! c = Some conn ->
  Connection.trusted conn = true ->
  Connection.connected conn = true ->
  Peer.peers (self w) <> [] ->
  loose_is (Header.type (header m)) type_helo = false ->
  loose_is (Header.type (header m)) type_trusted = false ->
  loose_is (Header.type (header m)) type_confirm = false ->
  loose_is (Header.type (header m)) type_peers = false ->
  open_frame conn m = Some b ->
  Connection.requireConfirmation conn = true ->
  PeerMessage_of (PM (confirmation_for (set_body b m) now)) = Some copy ->
  strict_is (Header.type (header copy)) type_confirm = true ->
  let confirmation := confirmation_for (set_body b m) now in
  let w' := fst (receive w now rnd_iv rnd_key c message) in
  snd (receive w now rnd_iv rnd_key c message) = Returned VUndefined
  /\ Header.confirm (header confirmation)
     = ConfirmObj (Some (Header.hash (header m)))
                  (Some (Date_toISOString (Header.timestamp (header m))))
  /\ heap w' = alter (pushes 1 (PM confirmation)) c (heap w)
  /\ added w w'
     = (if snd (seal (self w) conn copy) then [Send c (fst (seal (self w) conn copy))] else [])
       ++ Emit "message" (Some c) (Some (set_body b m))
          :: match Header.type (header m) with
             | TStr s => [Emit (PEER_MESSAGE_STRING (TStr s)) (Some c) (Some (set_body b m))]
             | TNum _ => []
             end.
Proof.
  intros Hf Hm Hc Ht Hcon Hps Hh Htr Hcf Hp Hopen Hrc Hcopy Hty confirmation w'.
  unfold w'. rewrite (receive_unfold _ _ _ _ _ _ _ _ Hf Hm Hc). simpl.
  rewrite Hh, Ht, Htr, Hcf, Hp. unfold receive_data. rewrite Hopen, Hrc.
  fold confirmation.
  assert (broadcast (stamp_active w now conn) now
            (OptObject (Some (ArgPeerMessage confirmation)) (Some c))
          = (let w2 := update_connection c (pushes 1 (PM confirmation))
                         (stamp_active w now conn) in
             if snd (seal (self w) conn copy)
             then effect (Send c (fst (seal (self w) conn copy))) w2 else w2,
             Returned VThis)) as ->.
  { unfold broadcast.
    destruct (Peer.peers (self (stamp_active w now conn))) as [|p ps] eqn:Hrows.
    { exfalso. by apply (touch_active_nonempty w (Connection.originalAddress conn)
                           (utc_seconds now) _ Hps). }
    simpl. rewrite (broadcast_to_trusted _ _ _ conn copy) by done.
    simpl. rewrite Hty, andb_false_r. reflexivity. }
  simpl. split; [by destruct (snd (seal _ _ _)), (Header.type (header m))|].
  split; [done|]. split.
  - by destruct (snd (seal _ _ _)), (Header.type (header m)).
  - apply added_app.
    destruct (snd (seal _ _ _)), (Header.type (header m)); simpl;
      by rewrite <- ?app_assoc.
Qed.

(** What [seal] produces when signing and encrypting succeed, and how
    the receiver's [open_frame] reads it. *)
Lemma seal_sealed s connA copy sg enc :
  rsa_sign (Peer.privateKey s) (JSON_stringify (body copy)) = Some sg ->
  aes_encrypt (Connection.key connA) (Connection.iv connA) (JSON_stringify (body copy))
  = Some enc ->
  seal s connA copy
  = (mkMessage (Header.set_signature (Some sg) (header copy)) (BodyString enc), true).
Proof. intros Hsign Henc. unfold seal. rewrite Hsign. simpl. by rewrite Henc. Qed.

Lemma open_sealed connB h sg enc text pk :
  Buffer_from_base64 (Some enc) = Some enc ->
  Buffer_from_base64 (Some sg) = Some sg ->
  aes_decrypt (Connection.peerKey connB) (Connection.peerIv connB) enc = Some text ->
  Connection.peerPublicKey connB = Some pk ->
  rsa_verify pk (Some text) sg = Some true ->
  open_frame connB (mkMessage (Header.set_signature (Some sg) h) (BodyString enc))
  = JSON_parse text.
Proof.
  intros Hb1 Hb2 Hdec Hpk Hver. unfold open_frame. simpl.
  by rewrite Hb1, Hb2, Hdec, Hpk, Hver.
Qed.

(** X8.  Round trip of the data channel.  When the plaintext that the
    sender signs and encrypts for a connection is one that the receiver's
    side of the session decrypts and verifies, the frame that [seal]
    produces opens at the receiver to [JSON.parse] of the [JSON.stringify]
    text of the body; the header is sent as it is, with the signature
    added. *)
Theorem sealed_frame_opens
  s connA copy connB text sg enc pk :
  JSON_stringify (body copy) = text ->
  rsa_sign (Peer.privateKey s) text = Some sg ->
  aes_encrypt (Connection.key connA) (Connection.iv connA) text = Some enc ->
  Buffer_from_base64 (Some enc) = Some enc ->
  Buffer_from_base64 (Some sg) = Some sg ->
  aes_decrypt (Connection.peerKey connB) (Connection.peerIv connB) enc = Some text ->
  Connection.peerPublicKey connB = Some pk ->
  rsa_verify pk (Some text) sg = Some true ->
  seal s connA copy
  = (mkMessage (Header.set_signature (Some sg) (header copy)) (BodyString enc), true)
  /\ open_frame connB (fst (seal s connA copy)) = JSON_parse text.
Proof.
  intros <- Hsign Henc Hb1 Hb2 Hdec Hpk Hver.
  rewrite (seal_sealed _ _ _ _ _ Hsign Henc). split; [reflexivity|].
  by apply open_sealed with pk.
Qed.

(** ** [broadcast]: what it changes and what it leaves *)

Lemma pushes_0 message x : pushes 0 message x = x.
Proof. destruct x. unfold pushes. simpl. by rewrite app_nil_r. Qed.

Lemma pushes_pushes a b message x :
  pushes a message (pushes b message x) = pushes (b + a) message x.
Proof. unfold pushes. simpl. by rewrite <- app_assoc, replicate_add. Qed.

Lemma is_broadcast_effect_mono l l' e :
  (forall k, k ∈ l -> k ∈ l') ->
  is_broadcast_effect l e = true -> is_broadcast_effect l' e = true.
Proof.
  intros Hsub. destruct e as [k f|k|n k m|u d t|ms [k f|]]; simpl; try done.
  - intros H. apply bool_decide_eq_true in H. apply bool_decide_eq_true. auto.
  - intros H. apply andb_true_iff in H as [H1 H2]. apply bool_decide_eq_true in H2.
    apply andb_true_iff. split; [done|]. apply bool_decide_eq_true. auto.
Qed.

(** One turn of the loop, whatever the message and the connection. *)
Lemma broadcast_to_frame message w c w1 r :
  broadcast_to message w c = (w1, r) ->
  self w1 = self w
  /\ (exists n, heap w1 = alter (pushes n message) c (heap w)
        /\ (0 < n -> exists x, heap w !! c = Some x
                     /\ Connection.connected x = true /\ Connection.trusted x = true))
  /\ (exists new, trace w1 = trace w ++ new
        /\ Forall (fun e => is_broadcast_effect [c] e = true) new)
  /\ (r = Returned VUndefined \/ r = Thrown).
Proof.
  assert (forall v : World, heap v = alter (pushes 0 message) c (heap v)) as Hid.
  { intros v. symmetry. apply list_alter_id. apply pushes_0. }
  assert (forall (v : World) (r0 : Completion),
    r0 = Returned VUndefined \/ r0 = Thrown ->
    self v = self v
    /\ (exists n, heap v = alter (pushes n message) c (heap v)
          /\ (0 < n -> exists x, heap v !! c = Some x
                       /\ Connection.connected x = true /\ Connection.trusted x = true))
    /\ (exists new, trace v = trace v ++ new
          /\ Forall (fun e => is_broadcast_effect [c] e = true) new)
    /\ (r0 = Returned VUndefined \/ r0 = Thrown)) as Hsame.
  { intros v r0 Hr0. split; [done|]. split; [exists 0; split; [apply Hid | lia]|].
    split; [|done]. exists []. by rewrite app_nil_r. }
  assert (bool_decide (c ∈ [c]) = true) as Hin.
  { apply bool_decide_eq_true, list_elem_of_singleton. reflexivity. }
  unfold broadcast_to.
  destruct (heap w !! c) as [x|] eqn:Hc;
    [|intros [= <- <-]; rewrite <- Hc; apply Hsame; by right].
  destruct (Connection.connected x) eqn:Hcon;
    [|intros [= <- <-]; rewrite <- Hc; apply Hsame; by left].
  destruct (Connection.trusted x) eqn:Htr.
  - destruct (PeerMessage_of message) as [copy|];
      [|intros [= <- <-]; rewrite <- Hc; apply Hsame; by right].
    destruct (seal (self w) x copy) as [final sent].
    intros [= <- <-]. split; [by destruct sent, (_ && _)|]. split; [|split; [|by left]].
    + exists 1. split; [by destruct sent, (_ && _)|]. intros _. by exists x.
    + exists ((if Peer.requireConfirmation (self w)
                  && negb (strict_is (Header.type (header copy)) type_confirm)
               then [SetTimeout 30000 (Retry c final)] else [])
              ++ (if sent then [Send c final] else [])).
      split.
      * destruct sent, (_ && _); simpl; rewrite ?app_nil_r, <- ?app_assoc; reflexivity.
      * apply Forall_app. split.
        -- destruct (_ && _); repeat constructor. simpl. by rewrite Hin.
        -- destruct sent; repeat constructor. simpl. by rewrite Hin.
  - destruct message as [m|s]; [|intros [= <- <-]; rewrite <- Hc; apply Hsame; by right].
    destruct (loose_is (Header.type (header m)) type_helo);
      [|intros [= <- <-]; rewrite <- Hc; apply Hsame; by left].
    intros [= <- <-]. split; [done|]. split; [exists 0; split; [apply (Hid w) | lia]|].
    split; [|by left]. exists [Send c m]. split; [done|].
    repeat constructor. simpl. by rewrite Hin.
Qed.

Lemma broadcast_loop_frame message toSendTo w w' r :
  broadcast_loop message toSendTo w = (w', r) ->
  self w' = self w
  /\ (forall k, exists n,
        heap w' !! k = pushes n message <$> heap w !! k
        /\ (0 < n -> k ∈ toSendTo
                     /\ exists x, heap w !! k = Some x
                          /\ Connection.connected x = true /\ Connection.trusted x = true))
  /\ (exists new, trace w' = trace w ++ new
        /\ Forall (fun e => is_broadcast_effect toSendTo e = true) new)
  /\ (r = Returned VThis \/ r = Thrown).
Proof.
  revert w. induction toSendTo as [|c rest IH]; intros w; simpl.
  - intros [= <- <-]. split; [done|]. split.
    + intros k. exists 0. split; [|lia].
      destruct (heap w !! k); simpl; by rewrite ?pushes_0.
    + split; [|by left]. exists []. by rewrite app_nil_r.
  - destruct (broadcast_to message w c) as [w1 r1] eqn:Hstep.
    destruct (broadcast_to_frame _ _ _ _ _ Hstep)
      as (Hs1 & (n1 & Hh1 & Hn1) & (new1 & Ht1 & Hf1) & Hr1).
    assert (forall k, exists n,
              heap w1 !! k = pushes n message <$> heap w !! k
              /\ (0 < n -> k ∈ c :: rest
                           /\ exists x, heap w !! k = Some x
                                /\ Connection.connected x = true
                                /\ Connection.trusted x = true)) as Hk1.
    { intros k. rewrite Hh1, list_lookup_alter. destruct (decide (c = k)) as [->|Hne].
      - exists n1. split; [done|]. intros Hpos.
        split; [apply elem_of_cons; by left | auto].
      - exists 0. split; [|lia]. destruct (heap w !! k); simpl; by rewrite ?pushes_0. }
    assert (Forall (fun e => is_broadcast_effect (c :: rest) e = true) new1) as Hf1'.
    { eapply Forall_impl; [exact Hf1|]. intros e. apply is_broadcast_effect_mono.
      intros k Hk. apply list_elem_of_singleton in Hk as ->. apply elem_of_cons. by left. }
    destruct Hr1 as [-> | ->].
    + intros Hrest. destruct (IH _ Hrest) as (Hs2 & Hk2 & (new2 & Ht2 & Hf2) & Hr2).
      split; [congruence|]. split; [|split; [|exact Hr2]].
      * intros k. destruct (Hk1 k) as (a & Ha & Hpa). destruct (Hk2 k) as (b & Hb & Hpb).
        exists (a + b). split.
        -- rewrite Hb, Ha. destruct (heap w !! k); simpl; by rewrite ?pushes_pushes.
        -- intros Hpos. destruct (decide (0 < a)) as [Hapos|Hazero]; [auto|].
           assert (a = 0) as -> by lia.
           destruct Hpb as (Hin & x & Hx & Hcx & Htx); [lia|].
           split; [apply elem_of_cons; by right|].
           rewrite Ha in Hx. destruct (heap w !! k) as [y|]; [|discriminate].
           simpl in Hx. rewrite pushes_0 in Hx. injection Hx as ->. by exists x.
      * exists (new1 ++ new2). split; [by rewrite Ht2, Ht1, app_assoc|].
        apply Forall_app. split; [done|].
        eapply Forall_impl; [exact Hf2|]. intros e. apply is_broadcast_effect_mono.
        intros k Hk. apply elem_of_cons. by right.
    + intros [= <- <-]. split; [done|]. split; [done|]. split; [by exists new1 | by right].
Qed.

Lemma broadcast_self w now options : self (fst (broadcast w now options)) = self w.
Proof.
  unfold broadcast. destruct (Peer.peers (self w)); [reflexivity|].
  destruct (_ ≫= as_payload) as [message|]; [|reflexivity].
  destruct (broadcast_loop message (targets w options) w) as [w' r] eqn:Hloop.
  by destruct (broadcast_loop_frame _ _ _ _ _ Hloop) as [H _].
Qed.

(** X9.  What [broadcast] never does.  Whatever its argument and however
    it ends, [broadcast] leaves [self] as it is (table, queue and keys),
    and a connection differs afterwards at most by copies of the message
    appended to its [unconfirmedMessages], which happens only to targets
    that are connected and trusted; all it asks for are frames and 30 s
    retry timers on targets.  It returns [false], having done nothing, exactly
    when the table is empty (even if a connection is given) or there is no
    message to send. *)
Theorem broadcast_frame w now options :
  let w' := fst (broadcast w now options) in
  self w' = self w
  /\ (forall k, exists n message,
        heap w' !! k = pushes n message <$> heap w !! k
        /\ (0 < n ->
              broadcast_message now options ≫= as_payload = Some message
              /\ k ∈ targets w options
              /\ exists x, heap w !! k = Some x
                   /\ Connection.connected x = true /\ Connection.trusted x = true))
  /\ (exists new, trace w' = trace w ++ new
        /\ Forall (fun e => is_broadcast_effect (targets w options) e = true) new)
  /\ (snd (broadcast w now options) = Returned VFalse
        <-> Peer.peers (self w) = [] \/ broadcast_message now options ≫= as_payload = None)
  /\ (snd (broadcast w now options) = Returned VFalse -> w' = w)
  /\ snd (broadcast w now options) <> ThenDiscover.
Proof.
  assert (forall k, exists n message,
    heap w !! k = pushes n message <$> heap w !! k
    /\ (0 < n ->
          broadcast_message now options ≫= as_payload = Some message
          /\ k ∈ targets w options
          /\ exists x, heap w !! k = Some x
               /\ Connection.connected x = true /\ Connection.trusted x = true)) as Hsame.
  { intros k. exists 0, (Raw ""). split; [|lia].
    destruct (heap w !! k); simpl; by rewrite ?pushes_0. }
  unfold broadcast. destruct (Peer.peers (self w)) as [|p ps] eqn:Hps.
  { simpl. split; [done|]. split; [done|]. split; [exists []; by rewrite app_nil_r|].
    split; [split; [by left | done]|]. by split. }
  destruct (broadcast_message now options ≫= as_payload) as [message|] eqn:Hmsg.
  2:{ simpl. split; [done|]. split; [done|]. split; [exists []; by rewrite app_nil_r|].
      split; [split; [by right | done]|]. by split. }
  destruct (broadcast_loop message (targets w options) w) as [w' r] eqn:Hloop.
  destruct (broadcast_loop_frame _ _ _ _ _ Hloop) as (Hs & Hk & Hnew & Hr).
  simpl. split; [done|]. split; [|split; [done|]].
  - intros k. destruct (Hk k) as (n & Hn & Hpos). exists n, message.
    split; [done|]. intros H. destruct (Hpos H) as [Hin Hx]. by repeat split.
  - destruct Hr as [-> | ->].
    + split; [split; [done | intros [H|H]; discriminate H]|]. by split.
    + split; [split; [done | intros [H|H]; discriminate H]|]. by split.
Qed.

(** One turn of the loop on a [PeerMessage] that the copy constructor
    accepts: it does not throw. *)
Lemma broadcast_to_exact m copy w c x :
  PeerMessage_of (PM m) = Some copy ->
  heap w !! c = Some x ->
  exists w1 new1,
    broadcast_to (PM m) w c = (w1, Returned VUndefined)
    /\ self w1 = self w
    /\ heap w1
       = alter (fun y => if Connection.connected x && Connection.trusted x
                         then pushes 1 (PM m) y else y) c (heap w)
    /\ trace w1 = trace w ++ new1
    /\ (Connection.connected x = true -> Connection.trusted x = true ->
        snd (seal (self w) x copy) = true ->
        Send c (fst (seal (self w) x copy)) ∈ new1).
Proof.
  intros Hcopy Hc.
  assert (heap w = alter (fun y : Connection.t => y) c (heap w)) as Hid
    by (symmetry; by apply list_alter_id).
  destruct (Connection.connected x) eqn:Hcon; [destruct (Connection.trusted x) eqn:Htr|].
  - rewrite (broadcast_to_trusted _ _ _ _ _ Hc Hcon Htr Hcopy). simpl.
    destruct (seal (self w) x copy) as [final sent]. simpl.
    eexists _, ((if Peer.requireConfirmation (self w)
                    && negb (strict_is (Header.type (header copy)) type_confirm)
                 then [SetTimeout 30000 (Retry c final)] else [])
                ++ (if sent then [Send c final] else [])).
    split; [reflexivity|]. split; [by destruct sent, (_ && _)|].
    split; [by destruct sent, (_ && _)|]. split.
    + destruct sent, (_ && _); simpl; rewrite ?app_nil_r, <- ?app_assoc; reflexivity.
    + intros _ _ ->. apply elem_of_app. right. apply list_elem_of_singleton. reflexivity.
  - unfold broadcast_to. rewrite Hc, Hcon, Htr.
    destruct (loose_is (Header.type (header m)) type_helo).
    + eexists _, [Send c m]. split; [reflexivity|]. simpl. by repeat split.
    + exists w, []. rewrite app_nil_r. simpl. by repeat split.
  - unfold broadcast_to. rewrite Hc, Hcon.
    exists w, []. rewrite app_nil_r. simpl. by repeat split.
Qed.

(** The loop over distinct connections of the store. *)
Lemma broadcast_loop_exact m copy toSendTo w :
  PeerMessage_of (PM m) = Some copy ->
  NoDup toSendTo ->
  (forall k, k ∈ toSendTo -> is_Some (heap w !! k)) ->
  exists w' new,
    broadcast_loop (PM m) toSendTo w = (w', Returned VThis)
    /\ self w' = self w
    /\ (forall k, heap w' !! k
          = (fun x => if bool_decide (k ∈ toSendTo)
                         && Connection.connected x && Connection.trusted x
                      then pushes 1 (PM m) x else x) <$> heap w !! k)
    /\ trace w' = trace w ++ new
    /\ (forall k x, k ∈ toSendTo -> heap w !! k = Some x ->
          Connection.connected x = true -> Connection.trusted x = true ->
          snd (seal (self w) x copy) = true ->
          Send k (fst (seal (self w) x copy)) ∈ new).
Proof.
  intros Hcopy. revert w.
  induction toSendTo as [|c rest IH]; intros w Hnd Hex; cbn [broadcast_loop].
  - exists w, []. rewrite app_nil_r. split; [done|]. split; [done|]. split; [|split; [done|]].
    + intros k. rewrite bool_decide_false by apply not_elem_of_nil.
      by destruct (heap w !! k).
    + intros k x Hk. by apply elem_of_nil in Hk.
  - apply NoDup_cons in Hnd as [Hc Hnd].
    destruct (Hex c) as [x Hx]; [apply elem_of_cons; by left|].
    destruct (broadcast_to_exact m copy w c x Hcopy Hx)
      as (w1 & new1 & Hstep & Hs1 & Hh1 & Ht1 & Hsend1).
    rewrite Hstep.
    assert (forall k, k <> c -> heap w1 !! k = heap w !! k) as Hother
      by (intros k Hk; by rewrite Hh1, list_lookup_alter_ne).
    destruct (IH w1 Hnd) as (w' & new2 & Hloop & Hs2 & Hh2 & Ht2 & Hsend2).
    { intros k Hk. rewrite Hother; [apply Hex, elem_of_cons; by right|].
      intros ->. contradiction. }
    exists w', (new1 ++ new2). split; [exact Hloop|]. split; [congruence|].
    split; [|split; [by rewrite Ht2, Ht1, app_assoc|]].
    + intros k. rewrite Hh2. destruct (decide (k = c)) as [->|Hne].
      * rewrite Hh1, list_lookup_alter_eq, Hx.
        rewrite (bool_decide_false (c ∈ rest)) by done.
        rewrite (bool_decide_true (c ∈ c :: rest)) by (apply elem_of_cons; by left).
        reflexivity.
      * rewrite Hother by done.
        assert (bool_decide (k ∈ c :: rest) = bool_decide (k ∈ rest)) as ->; [|reflexivity].
        apply bool_decide_ext. rewrite elem_of_cons. tauto.
    + intros k y Hk Hy Hcon Htr Hsent. apply elem_of_app.
      apply elem_of_cons in Hk as [->|Hk].
      * left. assert (y = x) as -> by congruence. by apply Hsend1.
      * right. rewrite <- Hs1. apply Hsend2; try done; [|by rewrite Hs1].
        rewrite Hother; [done|]. intros ->. contradiction.
Qed.

Lemma broadcast_nonempty w now options :
  Peer.peers (self w) <> [] ->
  broadcast w now options
  = match broadcast_message now options ≫= as_payload with
    | None => (w, Returned VFalse)
    | Some message => broadcast_loop message (targets w options) w
    end.
Proof. intros Hps. unfold broadcast. by destruct (Peer.peers (self w)). Qed.

(** X10.  The retry goes to everybody.  When the timer of a message finds
    a matching entry on its connection, the sealed copy is broadcast again
    to every row of the table, not only to the connection that owes the
    confirmation: every connected and trusted connection gets the sealed
    copy pushed on its [unconfirmedMessages] and a frame made from it.
    The entry that the timer found stays, so the connection now holds one
    more entry for the same message than before. *)
Theorem retry_reaches_every_connection
  w now c final conn copy2 :
  heap w !! c = Some conn ->
  retry_scan (Connection.unconfirmedMessages conn) final = Some true ->
  Peer.peers (self w) <> [] ->
  NoDup (map PeerEntry.connection (Peer.peers (self w))) ->
  (forall k, k ∈ map PeerEntry.connection (Peer.peers (self w)) -> is_Some (heap w !! k)) ->
  PeerMessage_of (PM final) = Some copy2 ->
  let w' := fst (fire_retry w now c final) in
  let rows := map PeerEntry.connection (Peer.peers (self w)) in
  snd (fire_retry w now c final) = Returned VUndefined
  /\ self w' = self w
  /\ (forall k, heap w' !! k
        = (fun x => if bool_decide (k ∈ rows)
                       && Connection.connected x && Connection.trusted x
                    then pushes 1 (PM final) x else x) <$> heap w !! k)
  /\ (forall k x, k ∈ rows -> heap w !! k = Some x ->
        Connection.connected x = true -> Connection.trusted x = true ->
        snd (seal (self w) x copy2) = true ->
        Send k (fst (seal (self w) x copy2)) ∈ added w w')
  /\ (c ∈ rows -> Connection.connected conn = true -> Connection.trusted conn = true ->
      unconfirmed_of w' c = Some (Connection.unconfirmedMessages conn ++ [PM final])).
Proof.
  intros Hc Hscan Hps Hnd Hex Hcopy. cbv zeta.
  destruct (broadcast_loop_exact final copy2 _ w Hcopy Hnd Hex)
    as (w1 & new & Hloop & Hs & Hh & Ht & Hsend).
  assert (fire_retry w now c final = (w1, Returned VUndefined)) as Hfire.
  { assert (broadcast w now (OptPeerMessage final) = (w1, Returned VThis)) as Hb
      by (rewrite broadcast_nonempty by done; exact Hloop).
    unfold fire_retry. by rewrite Hc, Hscan, Hb. }
  rewrite Hfire. simpl.
  split; [done|]. split; [done|]. split; [done|]. split.
  - intros k x Hk Hx Hcon Htr Hsent. rewrite (added_app _ _ _ Ht). by apply Hsend.
  - intros Hin Hcon Htr. unfold unconfirmed_of. rewrite Hh, Hc. simpl.
    rewrite bool_decide_true by done. by rewrite Hcon, Htr.
Qed.

(** X11.  What a retry delivers.  The timer hands the sealed copy to
    [broadcast], which seals it once more: when the copy made from the
    sealed copy keeps its body, the text that is signed and encrypted the
    second time is the JSON text of the first ciphertext.  A receiver that
    decrypts and verifies the second frame therefore gets the ciphertext
    as the body of the message, not the body that was sent. *)
Theorem retried_frame_carries_ciphertext
  s connA copy copy2 connB sg enc text2 sg2 enc2 pk :
  rsa_sign (Peer.privateKey s) (JSON_stringify (body copy)) = Some sg ->
  aes_encrypt (Connection.key connA) (Connection.iv connA) (JSON_stringify (body copy))
  = Some enc ->
  PeerMessage_of (PM (fst (seal s connA copy))) = Some copy2 ->
  body copy2 = body (fst (seal s connA copy)) ->
  JSON_stringify (BodyString enc) = text2 ->
  rsa_sign (Peer.privateKey s) text2 = Some sg2 ->
  aes_encrypt (Connection.key connA) (Connection.iv connA) text2 = Some enc2 ->
  Buffer_from_base64 (Some enc2) = Some enc2 ->
  Buffer_from_base64 (Some sg2) = Some sg2 ->
  aes_decrypt (Connection.peerKey connB) (Connection.peerIv connB) enc2 = Some text2 ->
  Connection.peerPublicKey connB = Some pk ->
  rsa_verify pk (Some text2) sg2 = Some true ->
  snd (seal s connA copy2) = true
  /\ body (fst (seal s connA copy2)) = BodyString enc2
  /\ open_frame connB (fst (seal s connA copy2)) = JSON_parse (JSON_stringify (BodyString enc)).
Proof.
  intros Hsign Henc Hcopy Hbody <- Hsign2 Henc2 Hb1 Hb2 Hdec Hpk Hver.
  rewrite (seal_sealed _ _ _ _ _ Hsign Henc) in Hbody. simpl in Hbody.
  assert (seal s connA copy2
          = (mkMessage (Header.set_signature (Some sg2) (header copy2)) (BodyString enc2), true))
    as Hseal by (apply seal_sealed; by rewrite Hbody).
  rewrite Hseal. simpl. split; [done|]. split; [done|].
  by apply open_sealed with pk.
Qed.

(** ** Strings on [unconfirmedMessages] *)

Lemma retry_scan_raw l s l2 msg :
  Forall (fun x => is_pm x = true) l ->
  existsb (awaits msg) l = false ->
  retry_scan (l ++ Raw s :: l2) msg = None.
Proof.
  induction l as [|x l IH]; intros Hpm Hno; [reflexivity|].
  apply Forall_cons in Hpm as [Hx Hl]. destruct x as [e|t]; [|discriminate].
  simpl in Hno. apply orb_false_iff in Hno as [He Hno].
  simpl. rewrite He. by apply IH.
Qed.

(** X12.  A string message breaks the confirmation scans.  [broadcast]
    given [{ message: s, connection }] with a string [s] pushes the string
    itself on [unconfirmedMessages].  From then on a CONFIRM on that
    connection (with a well-formed [confirm] header, at a peer that
    requires confirmation) makes [receive] throw, since the scan from the
    tail meets the string first; and a retry timer on that connection
    throws when it fires, unless an entry before the string matches. *)
Theorem string_message_breaks_confirmation
  w now s c conn copy :
  Peer.peers (self w) <> [] ->
  s <> "" ->
  heap w !! c = Some conn ->
  Connection.connected conn = true ->
  Connection.trusted conn = true ->
  PeerMessage_of (Raw s) = Some copy ->
  Peer.requireConfirmation (self w) = true ->
  let w1 := fst (broadcast w now (OptObject (Some (ArgString s)) (Some c))) in
  unconfirmed_of w1 c = Some (Connection.unconfirmedMessages conn ++ [Raw s])
  /\ (forall now' rnd_iv rnd_key cmsg cm hash timestamp,
        falsy cmsg = false ->
        PeerMessage_of cmsg = Some cm ->
        loose_is (Header.type (header cm)) type_helo = false ->
        loose_is (Header.type (header cm)) type_trusted = false ->
        loose_is (Header.type (header cm)) type_confirm = true ->
        Header.confirm (header cm) = ConfirmObj (Some hash) (Some timestamp) ->
        snd (receive w1 now' rnd_iv rnd_key c cmsg) = Thrown
        /\ heap (fst (receive w1 now' rnd_iv rnd_key c cmsg)) = heap w1)
  /\ (forall now' msg,
        Forall (fun x => is_pm x = true) (Connection.unconfirmedMessages conn) ->
        existsb (awaits msg) (Connection.unconfirmedMessages conn) = false ->
        fire_retry w1 now' c msg = (w1, Thrown)).
Proof.
  intros Hps Hs Hc Hcon Htr Hcopy Hrc w1.
  assert (heap w1 !! c
          = Some (Connection.set_unconfirmedMessages
                    (Connection.unconfirmedMessages conn ++ [Raw s]) conn)
          /\ self w1 = self w) as [Hc1 Hs1].
  { unfold w1, broadcast. destruct (Peer.peers (self w)) as [|p ps]; [done|].
    simpl. rewrite decide_False by done. simpl.
    rewrite (broadcast_to_trusted _ _ _ _ _ Hc Hcon Htr Hcopy). simpl.
    destruct (snd (seal (self w) conn copy)), (_ && _); simpl;
      by rewrite list_lookup_alter_eq, Hc. }
  split; [unfold unconfirmed_of; by rewrite Hc1|]. split.
  - intros now' rnd_iv rnd_key cmsg cm hash timestamp Hf Hcm Hh Htrd Hcf Hconf.
    rewrite (receive_unfold _ _ _ _ _ _ _ _ Hf Hcm Hc1). simpl.
    rewrite Hh, Htr, Htrd, Hcf. unfold receive_confirm.
    change (Peer.requireConfirmation (self (stamp_active w1 now' _)))
      with (Peer.requireConfirmation (self w1)).
    rewrite Hs1, Hrc, Hconf. simpl.
    by rewrite confirm_loop_snoc.
  - intros now' msg Hpm Hno. unfold fire_retry. rewrite Hc1. simpl.
    by rewrite retry_scan_raw.
Qed.

(** ** [getPeerList]: order, completeness and the one way it throws *)

Lemma getPeerList_loop_omap w omit ps acc l :
  getPeerList_loop w omit ps acc = Some l ->
  l = acc ++ omap (fun p => default None (peer_list_entry w omit p)) ps.
Proof.
  revert acc. induction ps as [|p rest IH]; intros acc; simpl.
  - intros [= <-]. by rewrite app_nil_r.
  - destruct (peer_list_entry w omit p) as [[e|]|]; simpl; [| |discriminate].
    + intros H. rewrite (IH _ H), <- app_assoc. reflexivity.
    + apply IH.
Qed.

Lemma getPeerList_loop_None w omit ps acc :
  getPeerList_loop w omit ps acc = None
  <-> exists p, p ∈ ps /\ peer_list_entry w omit p = None.
Proof.
  revert acc. induction ps as [|p rest IH]; intros acc; simpl.
  - split; [discriminate|]. intros (p & Hp & _). by apply elem_of_nil in Hp.
  - destruct (peer_list_entry w omit p) as [[e|]|] eqn:Hp.
    + rewrite IH. split.
      * intros (q & Hq & Hn). exists q. split; [apply elem_of_cons; by right | done].
      * intros (q & Hq & Hn). apply elem_of_cons in Hq as [->|Hq]; [congruence|].
        by exists q.
    + rewrite IH. split.
      * intros (q & Hq & Hn). exists q. split; [apply elem_of_cons; by right | done].
      * intros (q & Hq & Hn). apply elem_of_cons in Hq as [->|Hq]; [congruence|].
        by exists q.
    + split; [|done]. intros _. exists p. split; [apply elem_of_cons; by left | done].
Qed.

Lemma peer_list_entry_None w omit p :
  peer_list_entry w omit p = None
  <-> heap w !! PeerEntry.connection p = None
      \/ exists conn sg a,
           heap w !! PeerEntry.connection p = Some conn
           /\ Connection.peerPublicKeySignature conn = Some sg
           /\ (sg ∉ omit)
           /\ Connection.originalAddress conn = Some a
           /\ forall s, a <> AddrStr s.
Proof.
  unfold peer_list_entry. destruct (heap w !! PeerEntry.connection p) as [conn|].
  2:{ split; [by left | done]. }
  split.
  - intros H. right.
    destruct (Connection.peerPublicKeySignature conn) as [sg|] eqn:Hsg; [|discriminate].
    destruct (Connection.originalAddress conn) as [a|] eqn:Ha; [|discriminate].
    destruct (bool_decide (sg ∈ omit)) eqn:Hom; [discriminate|].
    apply bool_decide_eq_false in Hom.
    exists conn, sg, a. split; [done|]. split; [done|]. split; [done|]. split; [done|].
    intros s ->. discriminate.
  - intros [H|(conn' & sg & a & [= <-] & -> & Hom & -> & Ha)]; [discriminate|].
    rewrite bool_decide_false by done.
    destruct a as [s| |]; [by destruct (Ha s) | done | done].
Qed.

(** X13.  [getPeerList] lists, in table order, every row whose connection
    carries a signature that is not omitted and a string address, closed
    and untrusted connections included, and nothing else.  It throws
    exactly when such a row's connection has an [originalAddress] that is
    not a string (or a row has no connection in the store). *)
Theorem peer_list_in_table_order w omit :
  (forall l, getPeerList w omit = Some l ->
     l = omap (fun p => default None (peer_list_entry w (default [] omit) p))
              (Peer.peers (self w))
     /\ forall p conn sg a,
          p ∈ Peer.peers (self w) ->
          heap w !! PeerEntry.connection p = Some conn ->
          Connection.peerPublicKeySignature conn = Some sg ->
          sg ∉ default [] omit ->
          Connection.originalAddress conn = Some (AddrStr a) ->
          Candidate.mk (AddrStr (peer_list_address a (Connection.originalPort conn)))
                       (Some sg)
                       (Some (PeerInfo.mk (PeerEntry.created p) (PeerEntry.active p)
                                          (Connection.trusted conn))) ∈ l)
  /\ (getPeerList w omit = None
      <-> exists p, p ∈ Peer.peers (self w)
            /\ (heap w !! PeerEntry.connection p = None
                \/ exists conn sg a,
                     heap w !! PeerEntry.connection p = Some conn
                     /\ Connection.peerPublicKeySignature conn = Some sg
                     /\ (sg ∉ default [] omit)
                     /\ Connection.originalAddress conn = Some a
                     /\ forall s, a <> AddrStr s)).
Proof.
  unfold getPeerList. split.
  - intros l Hl. apply getPeerList_loop_omap in Hl. simpl in Hl. split; [exact Hl|].
    intros p conn sg a Hp Hc Hsg Hom Ha. rewrite Hl. apply list_elem_of_omap.
    exists p. split; [done|]. unfold peer_list_entry. rewrite Hc, Hsg, Ha.
    by rewrite bool_decide_false.
  - rewrite getPeerList_loop_None. split.
    + intros (p & Hp & Hn). exists p. split; [done|]. by apply peer_list_entry_None.
    + intros (p & Hp & Hn). exists p. split; [done|]. by apply peer_list_entry_None.
Qed.

Lemma gossip_peers w l : Peer.peers (self (fst (gossip w l))) = Peer.peers (self w).
Proof.
  revert w. induction l as [|d l IH]; intros w; simpl; [reflexivity|].
  destruct (Candidate.address d); try reflexivity.
  rewrite IH. by destruct (offer_frame w (Candidate.set_address
    (AddrStr (if String.prefix "::ffff:" s then substring 7 (String.length s - 7) s else s))
    d)) as (_ & _ & -> & _).
Qed.

(** The world after a TRUSTED message whose [iv] and [key] decrypt. *)
Lemma trusted_message_world
  w now rnd_iv rnd_key c message m conn t iv64 key64 peerIv peerKey :
  falsy message = false ->
  PeerMessage_of message = Some m ->
  heap w !! c = Some conn ->
  Connection.trusted conn = true ->
  loose_is (Header.type (header m)) type_helo = false ->
  loose_is (Header.type (header m)) type_trusted = true ->
  body m = BodyTrusted t ->
  TrustedBody.iv t = Some iv64 ->
  TrustedBody.key t = Some key64 ->
  Buffer_from_base64 (Some iv64) ≫= rsa_decrypt (Peer.privateKey (self w)) = Some peerIv ->
  Buffer_from_base64 (Some key64) ≫= rsa_decrypt (Peer.privateKey (self w)) = Some peerKey ->
  heap (fst (receive w now rnd_iv rnd_key c message)) !! c
  = Some (record_listening (TrustedBody.listening t)
            (match TrustedBody.requireConfirmation t with
             | Some b => Connection.set_requireConfirmation b
             | None => fun x => x
             end
               (Connection.set_peerKey (Some peerKey)
                  (Connection.set_peerIv (Some peerIv) conn))))
  /\ (forall k, k <> c ->
        heap (fst (receive w now rnd_iv rnd_key c message)) !! k = heap w !! k)
  /\ Peer.peers (self (fst (receive w now rnd_iv rnd_key c message)))
     = Peer.peers (self (stamp_active w now conn)).
Proof.
  intros Hf Hm Hc Ht Hh Htr Hb Hiv Hkey Hdi Hdk.
  rewrite (receive_unfold _ _ _ _ _ _ _ _ Hf Hm Hc). simpl.
  rewrite Hh, Ht, Htr. unfold receive_trusted. rewrite Hb, Hiv, Hkey.
  change (Peer.privateKey (self (stamp_active w now conn))) with (Peer.privateKey (self w)).
  rewrite Hdi, Hdk.
  match goal with |- context [update_connection c ?f (effect ?e ?w2)] =>
    set (w4 := update_connection c f (effect e w2)) end.
  assert (heap w4 !! c
          = Some (record_listening (TrustedBody.listening t)
                    (match TrustedBody.requireConfirmation t with
                     | Some b => Connection.set_requireConfirmation b
                     | None => fun x => x
                     end
                       (Connection.set_peerKey (Some peerKey)
                          (Connection.set_peerIv (Some peerIv) conn))))) as Hc4.
  { unfold w4. simpl. rewrite !list_lookup_alter_eq, Hc. simpl.
    by destruct (TrustedBody.requireConfirmation t). }
  assert (forall k, k <> c -> heap w4 !! k = heap w !! k) as Hother.
  { intros k Hk. unfold w4. simpl. by rewrite !list_lookup_alter_ne. }
  assert (Peer.peers (self w4) = Peer.peers (self (stamp_active w now conn))) as Hp4
    by reflexivity.
  destruct (listening_throws _); [done|].
  destruct (TrustedBody.peers t) as [l|]; [|done].
  pose proof (gossip_heap w4 l) as Hg. pose proof (gossip_peers w4 l) as Hgp.
  destruct (gossip w4 l) as [w5 ok]. simpl in Hg, Hgp.
  destruct ok; [destruct (_ <? _)%nat|]; simpl; rewrite Hg, Hgp; by repeat split.
Qed.

Lemma elem_of_connections (ps : list PeerEntry.t) c :
  c ∈ map PeerEntry.connection ps <-> exists p, p ∈ ps /\ PeerEntry.connection p = c.
Proof.
  rewrite list_elem_of_In, in_map_iff. split.
  - intros (p & Hp & Hin). exists p. split; [by apply list_elem_of_In | done].
  - intros (p & Hin & Hp). exists p. split; [done | by apply list_elem_of_In].
Qed.

(** X14.  A listening address that is not a string breaks the peer list.
    A TRUSTED message reporting a listening address that is not a string
    ([false] is what a peer without [publicAddress] reports) is recorded
    as the connection's [originalAddress].  From then on [getPeerList]
    throws whenever the peer's signature is not omitted, and with it the
    answer to a PEERS request. *)
Theorem false_listening_address_breaks_peer_list
  w now rnd_iv rnd_key c message m conn t iv64 key64 peerIv peerKey sg a port :
  falsy message = false ->
  PeerMessage_of message = Some m ->
  heap w !! c = Some conn ->
  Connection.trusted conn = true ->
  Connection.peerPublicKeySignature conn = Some sg ->
  c ∈ map PeerEntry.connection (Peer.peers (self w)) ->
  loose_is (Header.type (header m)) type_helo = false ->
  loose_is (Header.type (header m)) type_trusted = true ->
  body m = BodyTrusted t ->
  TrustedBody.iv t = Some iv64 ->
  TrustedBody.key t = Some key64 ->
  Buffer_from_base64 (Some iv64) ≫= rsa_decrypt (Peer.privateKey (self w)) = Some peerIv ->
  Buffer_from_base64 (Some key64) ≫= rsa_decrypt (Peer.privateKey (self w)) = Some peerKey ->
  TrustedBody.listening t = Some (Listening.mk (Some a) port) ->
  (forall s, a <> AddrStr s) ->
  let w' := fst (receive w now rnd_iv rnd_key c message) in
  (Connection.originalAddress <$> heap w' !! c) = Some (Some a)
  /\ (forall omit, sg ∉ default [] omit -> getPeerList w' omit = None)
  /\ (forall now' rnd_iv' rnd_key' pmsg pm,
        falsy pmsg = false ->
        PeerMessage_of pmsg = Some pm ->
        loose_is (Header.type (header pm)) type_helo = false ->
        loose_is (Header.type (header pm)) type_trusted = false ->
        loose_is (Header.type (header pm)) type_confirm = false ->
        loose_is (Header.type (header pm)) type_peers = true ->
        snd (receive w' now' rnd_iv' rnd_key' c pmsg) = Thrown
        /\ added w' (fst (receive w' now' rnd_iv' rnd_key' c pmsg)) = []).
Proof.
  intros Hf Hm Hc Ht Hsg Hrow Hh Htr Hb Hiv Hkey Hdi Hdk Hl Ha w'.
  destruct (trusted_message_world w now rnd_iv rnd_key c message m conn t iv64 key64
              peerIv peerKey Hf Hm Hc Ht Hh Htr Hb Hiv Hkey Hdi Hdk) as (Hc' & _ & Hps).
  fold w' in Hc', Hps. rewrite Hl in Hc'.
  set (conn' := record_listening (Some (Listening.mk (Some a) port))
                  (match TrustedBody.requireConfirmation t with
                   | Some b => Connection.set_requireConfirmation b
                   | None => fun x => x
                   end
                     (Connection.set_peerKey (Some peerKey)
                        (Connection.set_peerIv (Some peerIv) conn)))) in Hc'.
  assert (Connection.originalAddress conn' = Some a) as Ha'.
  { unfold conn', record_listening. simpl. by destruct port. }
  assert (Connection.peerPublicKeySignature conn' = Some sg) as Hsg'.
  { unfold conn'. rewrite record_listening_signature.
    by destruct (TrustedBody.requireConfirmation t). }
  assert (Connection.trusted conn' = true) as Ht'.
  { unfold conn', record_listening. simpl.
    by destruct port, (TrustedBody.requireConfirmation t). }
  assert (forall omit, sg ∉ default [] omit -> getPeerList w' omit = None) as Hlist.
  { intros omit Hom. unfold getPeerList. apply getPeerList_loop_None.
    assert (c ∈ map PeerEntry.connection (Peer.peers (self w'))) as Hrow'.
    { by rewrite Hps, stamp_active_connections. }
    apply elem_of_connections in Hrow' as (p & Hp & Hpc).
    exists p. split; [done|]. apply peer_list_entry_None. right.
    exists conn', sg, a. rewrite Hpc. by repeat split. }
  split; [rewrite Hc'; simpl; by rewrite Ha'|]. split; [exact Hlist|].
  intros now' rnd_iv' rnd_key' pmsg pm Hf' Hpm Hh' Htr' Hcf' Hp'.
  rewrite (receive_unfold _ _ _ _ _ _ _ _ Hf' Hpm Hc'). simpl.
  rewrite Hh', Ht', Htr', Hcf', Hp'. unfold receive_peers.
  assert (getPeerList (stamp_active w' now' conn') None = None) as ->.
  { unfold getPeerList. apply getPeerList_loop_None.
    assert (c ∈ map PeerEntry.connection (Peer.peers (self (stamp_active w' now' conn'))))
      as Hrow'.
    { by rewrite stamp_active_connections, Hps, stamp_active_connections. }
    apply elem_of_connections in Hrow' as (p & Hp & Hpc).
    exists p. split; [done|]. apply peer_list_entry_None. right.
    exists conn', sg, a. rewrite Hpc. repeat split; try done. apply not_elem_of_nil. }
  split; [done|]. apply added_app. by rewrite app_nil_r.
Qed.

(** ** The [active] stamp *)

Lemma touch_active_unmatched w a stamp ps :
  Forall (fun q => heap w !! PeerEntry.connection q ≫= Connection.originalAddress <> Some a) ps ->
  touch_active w (Some a) stamp ps = ps.
Proof.
  induction ps as [|q ps IH]; intros H; [reflexivity|].
  apply Forall_cons in H as [Hq Hps]. simpl.
  destruct (heap w !! PeerEntry.connection q ≫= Connection.originalAddress) as [y|].
  - rewrite decide_False by congruence. by rewrite IH.
  - by rewrite IH.
Qed.

Lemma touch_active_first w a stamp pre p post :
  Forall (fun q => heap w !! PeerEntry.connection q ≫= Connection.originalAddress <> Some a)
         pre ->
  heap w !! PeerEntry.connection p ≫= Connection.originalAddress = Some a ->
  touch_active w (Some a) stamp (pre ++ p :: post)
  = pre ++ PeerEntry.set_active stamp p :: post.
Proof.
  induction pre as [|q pre IH]; intros H Hp.
  - simpl. rewrite Hp. by rewrite decide_True.
  - apply Forall_cons in H as [Hq Hpre]. simpl.
    destruct (heap w !! PeerEntry.connection q ≫= Connection.originalAddress) as [y|].
    + rewrite decide_False by congruence. by rewrite IH.
    + by rewrite IH.
Qed.

(** The table after [receive]: only the stamp has touched it. *)
Lemma receive_table w now rnd_iv rnd_key c message m conn :
  falsy message = false ->
  PeerMessage_of message = Some m ->
  heap w !! c = Some conn ->
  Peer.peers (self (fst (receive w now rnd_iv rnd_key c message)))
  = touch_active w (Connection.originalAddress conn) (utc_seconds now) (Peer.peers (self w)).
Proof.
  intros Hf Hm Hc. rewrite (receive_unfold _ _ _ _ _ _ _ _ Hf Hm Hc). simpl.
  set (w1 := stamp_active w now conn).
  change (touch_active w (Connection.originalAddress conn) (utc_seconds now)
            (Peer.peers (self w))) with (Peer.peers (self w1)).
  destruct (loose_is _ type_helo).
  { unfold receive_helo. destruct (helo_check _ _) as [| |pk sg [|]]; try reflexivity.
    unfold helo_trust.
    destruct (rsa_encrypt pk rnd_iv); [|reflexivity].
    destruct (rsa_encrypt pk rnd_key); [|reflexivity].
    destruct (getPeerList _ _); [|reflexivity].
    by destruct (rsa_sign _ _). }
  destruct (Connection.trusted conn); [|reflexivity].
  destruct (loose_is _ type_trusted).
  { unfold receive_trusted.
    destruct (body m) as [| | t | | |]; try reflexivity.
    destruct (TrustedBody.iv t); [|reflexivity].
    destruct (TrustedBody.key t); [|reflexivity].
    destruct (_ ≫= rsa_decrypt _); [|reflexivity].
    destruct (_ ≫= rsa_decrypt _); [|reflexivity].
    destruct (listening_throws _); [reflexivity|].
    destruct (TrustedBody.peers t) as [l|]; [|reflexivity].
    match goal with |- context [gossip ?v l] =>
      pose proof (gossip_peers v l) as Hg; destruct (gossip v l) as [w5 ok] end.
    simpl in Hg. destruct ok; [destruct (_ <? _)%nat|]; exact Hg. }
  destruct (loose_is _ type_confirm).
  { unfold receive_confirm. destruct (negb _); [reflexivity|].
    destruct (Header.confirm (header m)) as [| |[h|] [ts|]]; try reflexivity.
    by destruct (confirm_loop _ _ _ _). }
  destruct (loose_is _ type_peers).
  { unfold receive_peers. destruct (getPeerList _ _); [|reflexivity].
    by destruct (rsa_sign _ _). }
  unfold receive_data. destruct (open_frame conn m) as [b|]; [|reflexivity].
  destruct (Connection.requireConfirmation conn).
  - pose proof (broadcast_self w1 now
      (OptObject (Some (ArgPeerMessage (confirmation_for (set_body b m) now))) (Some c)))
      as Hs.
    destruct (broadcast w1 now _) as [w2 r]. simpl in Hs.
    destruct r as [v| |]; try (simpl; by rewrite Hs).
    destruct (Header.type (header (set_body b m))); simpl; by rewrite Hs.
  - by destruct (Header.type (header (set_body b m))).
Qed.

(** X15.  The [active] stamp goes by address, not by connection.  Every
    message that [receive] gets as far as parsing, whatever its type and
    whether or not the connection is trusted, stamps the clock (cut to the
    second) on the first row of the table whose connection has the same
    [originalAddress] as the connection the message came on.  That row
    need not be the row of that connection.  No other row changes, and
    no row at all when no row has the address. *)
Theorem message_stamps_first_row_with_address
  w now rnd_iv rnd_key c message m conn a :
  falsy message = false ->
  PeerMessage_of message = Some m ->
  heap w !! c = Some conn ->
  Connection.originalAddress conn = Some a ->
  let same_address q :=
    heap w !! PeerEntry.connection q ≫= Connection.originalAddress = Some a in
  let table' := Peer.peers (self (fst (receive w now rnd_iv rnd_key c message))) in
  (forall pre p post,
     Peer.peers (self w) = pre ++ p :: post ->
     Forall (fun q => ~ same_address q) pre ->
     same_address p ->
     table' = pre ++ PeerEntry.mk (PeerEntry.connection p) (PeerEntry.created p)
                                  (utc_seconds now) :: post)
  /\ (Forall (fun q => ~ same_address q) (Peer.peers (self w)) ->
      table' = Peer.peers (self w)).
Proof.
  intros Hf Hm Hc Ha same_address table'. unfold table'.
  rewrite (receive_table _ _ _ _ _ _ _ _ Hf Hm Hc), Ha. split.
  - intros pre p post -> Hpre Hp. by apply touch_active_first.
  - by apply touch_active_unmatched.
Qed.

(** ** Discovery *)

Lemma discovery_only_refl w : discovery_only w w.
Proof. split; [done|]. split; [done|]. exists []. by rewrite app_nil_r. Qed.

Lemma discovery_only_trans w1 w2 w3 :
  discovery_only w1 w2 -> discovery_only w2 w3 -> discovery_only w1 w3.
Proof.
  intros (Hh1 & Hs1 & new1 & Ht1 & Hf1) (Hh2 & Hs2 & new2 & Ht2 & Hf2).
  split; [congruence|]. split; [congruence|]. exists (new1 ++ new2).
  split; [by rewrite Ht2, Ht1, app_assoc | by apply Forall_app].
Qed.

Lemma discovery_only_queue w q :
  discovery_only w (set_self (Peer.set_discoveryAddresses q) w).
Proof. split; [done|]. split; [done|]. exists []. by rewrite app_nil_r. Qed.

Lemma discovery_only_effect w e :
  is_discovery_effect e = true -> discovery_only w (effect e w).
Proof. intros He. split; [done|]. split; [done|]. exists [e]. split; [done|]. by constructor. Qed.

Lemma offer_only w d : discovery_only w (offer w d).
Proof.
  unfold offer. destruct (_ && _); [|apply discovery_only_refl].
  apply discovery_only_queue.
Qed.

Lemma fold_offer_only ds w : discovery_only w (fold_left offer ds w).
Proof.
  revert w. induction ds as [|d ds IH]; intros w; simpl; [apply discovery_only_refl|].
  eapply discovery_only_trans; [apply offer_only | apply IH].
Qed.

Lemma expand_only parsedAddress signature w :
  discovery_only w (expand parsedAddress signature w).
Proof. rewrite expand_fold. apply fold_offer_only. Qed.

Lemma discoverOne_only fuel w o :
  discoverOne fuel w = Some o -> discovery_only w (fst o).
Proof.
  revert w o. induction fuel as [|fuel IH]; intros w o; [discriminate|].
  cbn [discoverOne].
  assert (forall v o',
    match Peer.discoveryAddresses (self v) with
    | [] => Some (effect (Emit "discovered" None None) v, Returned VUndefined)
    | _ :: _ => discoverOne fuel v
    end = Some o' -> discovery_only v (fst o')) as Hnext.
  { intros v o'. destruct (Peer.discoveryAddresses (self v)); [|apply IH].
    intros [= <-]. by apply discovery_only_effect. }
  destruct (Peer.discoveryAddresses (self w)) as [|d rest] eqn:Hq.
  { intros [= <-]. apply discovery_only_refl. }
  set (w0 := set_self (Peer.set_discoveryAddresses rest) w).
  assert (discovery_only w w0) as H0 by apply discovery_only_queue.
  assert (forall w1, discovery_only w w1 -> forall o',
    match Candidate.address d with
    | AddrStr a =>
        match parse_target (strip_ffff a) (hasProtocol (strip_ffff a)) (hasPort (strip_ffff a)) with
        | None => Some (w1, Thrown)
        | Some parsedAddress =>
            if negb (hasPort (strip_ffff a))
            then match Peer.discoveryAddresses
                         (self (expand parsedAddress d w1)) with
                 | [] => Some (effect (Emit "discovered" None None)
                                 (expand parsedAddress d w1),
                               Returned VUndefined)
                 | _ :: _ => discoverOne fuel (expand parsedAddress d w1)
                 end
            else Some (effect (Dial (url_format parsedAddress)
                                 (Candidate.set_address (AddrStr (strip_ffff a)) d)
                                 parsedAddress) w1,
                       Returned VUndefined)
        end
    | _ => Some (w1, Thrown)
    end = Some o' -> discovery_only w (fst o')) as Hstage.
  { intros w1 H1 o'. destruct (Candidate.address d) as [a| |]; try by intros [= <-].
    destruct (parse_target _ _ _) as [parsedAddress|]; [|by intros [= <-]].
    destruct (negb _).
    - intros Hn. apply Hnext in Hn.
      eapply discovery_only_trans; [exact H1|].
      eapply discovery_only_trans; [apply expand_only | exact Hn].
    - intros [= <-]. eapply discovery_only_trans; [exact H1|].
      by apply discovery_only_effect. }
  destruct (isConnectedTo w0 d).
  - destruct (match Peer.discoveryAddresses (self w0) with
              | [] => _ | _ :: _ => _ end) as [[w1 r1]|] eqn:Hn; [|discriminate].
    apply Hnext in Hn. simpl in Hn.
    assert (discovery_only w w1) as H1 by exact (discovery_only_trans _ _ _ H0 Hn).
    destruct r1; [apply (Hstage w1 H1) | by intros [= <-] | by intros [= <-]].
  - apply (Hstage w0 H0).
Qed.

Lemma next_only fuel w o : next fuel w = Some o -> discovery_only w (fst o).
Proof.
  unfold next. destruct (Peer.discoveryAddresses (self w)); [|apply discoverOne_only].
  intros [= <-]. by apply discovery_only_effect.
Qed.

Lemma discovery_only_flag w w' :
  discovery_only w w' -> Peer.discovering (self w') = Peer.discovering (self w).
Proof. intros (_ & Hs & _). by apply (f_equal Peer.discovering) in Hs. Qed.

Lemma discovery_only_isConnectedTo w w' d :
  discovery_only w w' -> isConnectedTo w' d = isConnectedTo w d.
Proof.
  intros (Hh & Hs & _). apply isConnectedTo_ext.
  - by apply (f_equal Peer.signature) in Hs.
  - by apply (f_equal Peer.peers) in Hs; simpl in Hs; rewrite Hs.
  - intros k. by apply signature_at_heap.
Qed.

(** The two ways of [discover]. *)
Lemma discover_cases fuel w o :
  discover fuel w = Some o ->
  (Peer.discoveryAddresses (self w) = []
   /\ fst o = effect (Emit "discovered" None None) (set_self (Peer.set_discovering false) w))
  \/ (Peer.discoveryAddresses (self w) <> []
      /\ discovery_only
           (effect (Emit "discovering" None None) (set_self (Peer.set_discovering true) w))
           (fst o)).
Proof.
  unfold discover. destruct (Peer.discoveryAddresses (self w)) as [|d rest].
  { intros [= <-]. by left. }
  right. split; [done|].
  destruct (discoverOne fuel _) as [[w' r]|] eqn:Hrun; [|discriminate].
  apply discoverOne_only in Hrun. by destruct r; injection H as <-.
Qed.

(** X16.  What discovery touches.  A call of [discover] that returns
    leaves every connection and the table as they are, and of [self]
    changes only the queue and the [discovering] flag; all it asks of the
    outside are dials and the events [discovering] and [discovered].  The
    flag is left false when the queue was empty and true otherwise, also
    when the run has emptied the queue and emitted [discovered]. *)
Theorem discovery_frame fuel w o :
  discover fuel w = Some o ->
  heap (fst o) = heap w
  /\ queue_aside (Peer.set_discovering false (self (fst o)))
     = queue_aside (Peer.set_discovering false (self w))
  /\ Peer.discovering (self (fst o))
     = negb (bool_decide (Peer.discoveryAddresses (self w) = []))
  /\ exists new, trace (fst o) = trace w ++ new
       /\ Forall (fun e => is_discovery_effect e = true) new.
Proof.
  intros Hrun. destruct (discover_cases _ _ _ Hrun) as [[Hq ->]|[Hq Honly]].
  - rewrite Hq. simpl. split; [done|]. split; [done|]. split; [done|].
    exists [Emit "discovered" None None]. split; [done|]. by repeat constructor.
  - pose proof (discovery_only_flag _ _ Honly) as Hflag.
    destruct Honly as (Hh & Hs & new & Ht & Hnew).
    split; [done|]. split.
    + apply (f_equal (Peer.set_discovering false)) in Hs. exact Hs.
    + split; [by rewrite Hflag, bool_decide_false|].
      exists (Emit "discovering" None None :: new).
      split; [rewrite Ht; simpl; by rewrite <- app_assoc|]. by constructor.
Qed.

(** X17.  The [discovering] flag is never cleared by a run.  After a call
    of [discover] that found the queue non-empty the flag is true, and it
    stays true through the reports of the dials ([connect] and
    [connectFailed]), which go on with the queue and emit [discovered]
    at its end.  While it is true, an abnormal close of a connection with
    a signature puts the peer back on the queue and schedules nothing:
    no timer is set to call [discover] again. *)
Theorem discovering_flag_stays_set fuel w o :
  discover fuel w = Some o ->
  Peer.discoveryAddresses (self w) <> [] ->
  Peer.discovering (self (fst o)) = true
  /\ (forall w1, Peer.discovering (self w1) = true ->
        (forall fuel' o', on_connectFailed fuel' w1 = Some o' ->
           Peer.discovering (self (fst o')) = true)
        /\ (forall fuel' now candidate target remoteAddress remotePort o',
             on_connect fuel' w1 now candidate target remoteAddress remotePort = Some o' ->
             Peer.discovering (self (fst o')) = true)
        /\ (forall now c code conn sg,
             heap w1 !! c = Some conn ->
             Connection.peerPublicKeySignature conn = Some sg ->
             code <> 1000%Z ->
             added w1 (fst (on_close w1 now c code)) = []
             /\ Peer.discoveryAddresses (self (fst (on_close w1 now c code)))
                = Peer.discoveryAddresses (self w1)
                  ++ [Candidate.mk (default AddrNull (Connection.originalAddress conn))
                                   (Some sg) None]
             /\ Peer.discovering (self (fst (on_close w1 now c code))) = true)).
Proof.
  intros Hrun Hq. split.
  - destruct (discover_cases _ _ _ Hrun) as [[Hq' _]|[_ Honly]]; [done|].
    by rewrite (discovery_only_flag _ _ Honly).
  - intros w1 Hflag. split; [|split].
    + intros fuel' o' Hn. unfold on_connectFailed in Hn.
      by rewrite (discovery_only_flag _ _ (next_only _ _ _ Hn)).
    + intros fuel' now candidate target remoteAddress remotePort o'. unfold on_connect.
      match goal with |- context [setupConnection w1 now ?a] =>
        assert (Peer.discovering (self (fst (setupConnection w1 now a))) = true) as Hsetup
          by (unfold setupConnection; by destruct (helo_message (self w1) now));
        destruct (setupConnection w1 now a) as [w2 c2]
      end.
      intros Hn. simpl in Hsetup.
      by rewrite (discovery_only_flag _ _ (next_only _ _ _ Hn)).
    + intros now c code conn sg Hc Hsg Hcode. unfold on_close.
      rewrite lookup_update_connection_eq, Hc. simpl.
      apply Z.eqb_neq in Hcode. rewrite Hcode, Hsg, Hflag. simpl.
      split; [|done]. apply added_app. by rewrite app_nil_r.
Qed.

(** The second half of the call, for a candidate that is dialed. *)
Lemma discoverOne_unfold_dial fuel w d rest e :
  Peer.discoveryAddresses (self w) = d :: rest ->
  dial_of d = Some e ->
  discoverOne (S fuel) w
  = let w0 := set_self (Peer.set_discoveryAddresses rest) w in
    match (if isConnectedTo w0 d then next fuel w0 else Some (w0, Returned VUndefined)) with
    | None => None
    | Some (w1, Returned _) => Some (effect e w1, Returned VUndefined)
    | Some (w1, other) => Some (w1, other)
    end.
Proof.
  intros Hq He. rewrite (discoverOne_unfold _ _ _ _ Hq). cbv zeta.
  unfold dial_of in He.
  destruct (Candidate.address d) as [a| |]; try discriminate. cbv zeta in He.
  destruct (hasPort (strip_ffff a)); [|discriminate].
  destruct (parse_target _ _ true) as [parsedAddress|]; [|discriminate].
  simpl in He. injection He as <-. reflexivity.
Qed.

Lemma next_nonempty fuel w :
  Peer.discoveryAddresses (self w) <> [] -> next fuel w = discoverOne fuel w.
Proof. unfold next. by destruct (Peer.discoveryAddresses (self w)). Qed.

(** X18.  Being connected does not spare a candidate the dial.  Take a
    queue that starts with candidates [pre] this peer is already connected
    to, all with a port.  [discoverOne] skips ahead through them to the
    first candidate it is not connected to, dials that one, and on the way
    back dials every skipped candidate too, the last skipped first.  When
    the whole queue is of connected candidates, [discovered] is emitted
    first and all of them are dialed after it.  The run needs no more
    nested calls than candidates it takes off the queue. *)
Theorem connected_candidates_are_dialed_too fuel w pre tail dials :
  Peer.discoveryAddresses (self w) = pre ++ tail ->
  Forall (fun d => isConnectedTo w d = true) pre ->
  Forall2 (fun d e => dial_of d = Some e) pre dials ->
  length pre <= fuel ->
  (tail = [] -> pre <> [] ->
     discoverOne (S fuel) w
     = Some (mkWorld (Peer.set_discoveryAddresses [] (self w)) (heap w)
                     (trace w ++ Emit "discovered" None None :: rev dials),
             Returned VUndefined))
  /\ (forall d post e,
        tail = d :: post -> isConnectedTo w d = false -> dial_of d = Some e ->
        discoverOne (S fuel) w
        = Some (mkWorld (Peer.set_discoveryAddresses post (self w)) (heap w)
                        (trace w ++ e :: rev dials),
                Returned VUndefined)).
Proof.
  revert fuel w tail dials.
  induction pre as [|p pre IH]; intros fuel w tail dials Hq Hcon Hdials Hfuel.
  - apply Forall2_nil_inv_l in Hdials as ->. split; [done|].
    intros d post e -> Hd He. simpl in Hq.
    rewrite (discoverOne_unfold_dial _ _ _ _ _ Hq He). cbv zeta.
    assert (isConnectedTo (set_self (Peer.set_discoveryAddresses post) w) d = false) as ->.
    { rewrite <- Hd. apply discovery_only_isConnectedTo, discovery_only_queue. }
    reflexivity.
  - apply Forall_cons in Hcon as [Hp Hcon].
    apply Forall2_cons_inv_l in Hdials as (e0 & dials0 & He0 & Hdials0 & ->).
    destruct fuel as [|fuel]; [simpl in Hfuel; lia|]. simpl in Hfuel.
    change ((p :: pre) ++ tail) with (p :: pre ++ tail) in Hq.
    rewrite (discoverOne_unfold_dial _ _ _ _ _ Hq He0). cbv zeta.
    set (w0 := set_self (Peer.set_discoveryAddresses (pre ++ tail)) w).
    assert (forall d, isConnectedTo w0 d = isConnectedTo w d) as Hsame.
    { intros d. apply discovery_only_isConnectedTo, discovery_only_queue. }
    assert (Forall (fun d => isConnectedTo w0 d = true) pre) as Hcon0.
    { eapply Forall_impl; [exact Hcon|]. intros d Hd. by rewrite Hsame. }
    assert (Peer.discoveryAddresses (self w0) = pre ++ tail) as Hq0 by reflexivity.
    assert (forall q, Peer.set_discoveryAddresses q (self w0)
                      = Peer.set_discoveryAddresses q (self w)) as Hself0 by reflexivity.
    assert (heap w0 = heap w) as Hh0 by reflexivity.
    assert (trace w0 = trace w) as Ht0 by reflexivity.
    clearbody w0.
    destruct (IH fuel w0 tail dials0 Hq0 Hcon0 Hdials0 ltac:(lia)) as [IHnil IHcons].
    rewrite Hsame, Hp. split.
    + intros -> _. destruct pre as [|q pre'].
      * apply Forall2_nil_inv_l in Hdials0 as ->. unfold next. rewrite Hq0.
        unfold effect. simpl. rewrite Hh0, Ht0, <- Hself0, <- !app_assoc.
        destruct w0 as [s0 h0 t0]. destruct s0. simpl in *. by rewrite Hq0.
      * rewrite next_nonempty by (by rewrite Hq0).
        rewrite (IHnil eq_refl ltac:(done)). unfold effect. simpl.
        by rewrite Hh0, Ht0, Hself0, <- !app_assoc.
    + intros d post e -> Hd He.
      rewrite next_nonempty by (rewrite Hq0; by destruct pre).
      rewrite (IHcons d post e eq_refl); [|by rewrite Hsame | done].
      unfold effect. simpl. by rewrite Hh0, Ht0, Hself0, <- !app_assoc.
Qed.

(** ** What every handler keeps *)

Lemma store_kept_refl s w : store_kept s w w.
Proof. by split. Qed.

Lemma store_kept_trans s w1 w2 w3 :
  store_kept s w1 w2 -> store_kept s w2 w3 -> store_kept s w1 w3.
Proof. intros [Hl1 Hv1] [Hl2 Hv2]. split; [congruence | auto]. Qed.

Lemma store_kept_heap s w w' : heap w' = heap w -> store_kept s w w'.
Proof. intros H. split; by rewrite H. Qed.

Lemma store_kept_alter s w w' c f :
  heap w' = alter f c (heap w) ->
  (forall x, heap w !! c = Some x -> vouched s x -> vouched s (f x)) ->
  store_kept s w w'.
Proof.
  intros Hh Hf. split; rewrite Hh; [apply length_alter|].
  intros Hv. by apply Forall_alter.
Qed.

(** An update that leaves the session fields alone and does not raise
    [trusted]. *)
Lemma vouched_kept s f x :
  Connection.peerPublicKeySignature (f x) = Connection.peerPublicKeySignature x ->
  Connection.peerPublicKey (f x) = Connection.peerPublicKey x ->
  Connection.iv (f x) = Connection.iv x ->
  Connection.key (f x) = Connection.key x ->
  (Connection.trusted (f x) = true -> Connection.trusted x = true) ->
  vouched s x -> vouched s (f x).
Proof.
  unfold vouched. intros -> -> -> -> Ht.
  destruct (Connection.peerPublicKeySignature x); [done|].
  intros Hx. destruct (Connection.trusted (f x)); [|done]. rewrite <- Hx. symmetry. by apply Ht.
Qed.

Lemma record_listening_kept s l x : vouched s x -> vouched s (record_listening l x).
Proof.
  apply vouched_kept; unfold record_listening; destruct l as [[[a|] [p|]|]|]; done.
Qed.

Lemma broadcast_to_kept s message w c : store_kept s w (fst (broadcast_to message w c)).
Proof.
  destruct (broadcast_to message w c) as [w1 r] eqn:Hstep.
  destruct (broadcast_to_frame _ _ _ _ _ Hstep) as (_ & (n & Hh & _) & _).
  simpl. apply (store_kept_alter _ _ _ _ _ Hh). intros x _. by apply vouched_kept.
Qed.

Lemma broadcast_loop_kept s message toSendTo w :
  store_kept s w (fst (broadcast_loop message toSendTo w)).
Proof.
  revert w. induction toSendTo as [|c rest IH]; intros w; simpl; [apply store_kept_refl|].
  pose proof (broadcast_to_kept s message w c) as Hstep.
  destruct (broadcast_to message w c) as [w1 r1]. simpl in Hstep.
  destruct r1; [|done..].
  eapply store_kept_trans; [exact Hstep | apply IH].
Qed.

Lemma broadcast_kept s w now options : store_kept s w (fst (broadcast w now options)).
Proof.
  unfold broadcast. destruct (Peer.peers (self w)); [apply store_kept_refl|].
  destruct (_ ≫= as_payload); [|apply store_kept_refl].
  apply broadcast_loop_kept.
Qed.

Lemma offer_identity w d : identity (self (offer w d)) = identity (self w).
Proof. unfold offer. by destruct (_ && _). Qed.

Lemma gossip_identity w l : identity (self (fst (gossip w l))) = identity (self w).
Proof.
  revert w. induction l as [|d l IH]; intros w; simpl; [reflexivity|].
  destruct (Candidate.address d); try reflexivity.
  by rewrite IH, offer_identity.
Qed.

Lemma helo_trust_self w now rnd_iv rnd_key c pk sg :
  self (fst (helo_trust w now rnd_iv rnd_key c pk sg)) = self w.
Proof.
  unfold helo_trust.
  destruct (rsa_encrypt pk rnd_iv); [|reflexivity].
  destruct (rsa_encrypt pk rnd_key); [|reflexivity].
  destruct (getPeerList _ _); [|reflexivity].
  by destruct (rsa_sign _ _).
Qed.

Lemma vouched_ext s s' x :
  Peer.ringPublicKey s' = Peer.ringPublicKey s ->
  Peer.signature s' = Peer.signature s ->
  vouched s x -> vouched s' x.
Proof. unfold vouched, isOwnSignature. by intros -> ->. Qed.

(** [receive]: the identity, the rows and the store. *)
Lemma receive_facts w now rnd_iv rnd_key c message :
  identity (self (fst (receive w now rnd_iv rnd_key c message))) = identity (self w)
  /\ map PeerEntry.connection (Peer.peers (self (fst (receive w now rnd_iv rnd_key c message))))
     = map PeerEntry.connection (Peer.peers (self w))
  /\ store_kept (self w) w (fst (receive w now rnd_iv rnd_key c message)).
Proof.
  assert (identity (self w) = identity (self w)
          /\ map PeerEntry.connection (Peer.peers (self w))
             = map PeerEntry.connection (Peer.peers (self w))
          /\ store_kept (self w) w w) as Hsame
    by (split; [done|]; split; [done|]; apply store_kept_refl).
  destruct (falsy message) eqn:Hf; [unfold receive; by rewrite Hf|].
  destruct (PeerMessage_of message) as [m|] eqn:Hm; [|unfold receive; by rewrite Hf, Hm].
  destruct (heap w !! c) as [conn|] eqn:Hc; [|unfold receive; by rewrite Hf, Hm, Hc].
  split; [|split].
  2:{ rewrite (receive_table _ _ _ _ _ _ _ _ Hf Hm Hc). apply touch_active_connections. }
  all: rewrite (receive_unfold _ _ _ _ _ _ _ _ Hf Hm Hc); cbv zeta;
    set (w1 := stamp_active w now conn).
  - (* identity *)
    assert (identity (self w1) = identity (self w)) as <- by reflexivity.
    destruct (loose_is _ type_helo).
    { unfold receive_helo. destruct (helo_check _ _) as [| |pk sg [|]]; try reflexivity.
      by rewrite helo_trust_self. }
    destruct (Connection.trusted conn); [|reflexivity].
    destruct (loose_is _ type_trusted).
    { unfold receive_trusted.
      destruct (body m) as [| | t | | |]; try reflexivity.
      destruct (TrustedBody.iv t); [|reflexivity].
      destruct (TrustedBody.key t); [|reflexivity].
      destruct (_ ≫= rsa_decrypt _); [|reflexivity].
      destruct (_ ≫= rsa_decrypt _); [|reflexivity].
      destruct (listening_throws _); [reflexivity|].
      destruct (TrustedBody.peers t) as [l|]; [|reflexivity].
      match goal with |- context [gossip ?v l] =>
        pose proof (gossip_identity v l) as Hg; destruct (gossip v l) as [w5 ok] end.
      simpl in Hg. destruct ok; [destruct (_ <? _)%nat|]; exact Hg. }
    destruct (loose_is _ type_confirm).
    { unfold receive_confirm. destruct (negb _); [reflexivity|].
      destruct (Header.confirm (header m)) as [| |[h|] [ts|]]; try reflexivity.
      by destruct (confirm_loop _ _ _ _). }
    destruct (loose_is _ type_peers).
    { unfold receive_peers. destruct (getPeerList _ _); [|reflexivity].
      by destruct (rsa_sign _ _). }
    unfold receive_data. destruct (open_frame conn m) as [b|]; [|reflexivity].
    destruct (Connection.requireConfirmation conn).
    + pose proof (broadcast_self w1 now
        (OptObject (Some (ArgPeerMessage (confirmation_for (set_body b m) now))) (Some c)))
        as Hs.
      destruct (broadcast w1 now _) as [w2 r]. simpl in Hs.
      destruct r as [v| |]; try (simpl; by rewrite Hs).
      destruct (Header.type (header (set_body b m))); simpl; by rewrite Hs.
    + by destruct (Header.type (header (set_body b m))).
  - (* the store *)
    apply store_kept_trans with w1; [by apply store_kept_heap|].
    destruct (loose_is _ type_helo).
    { unfold receive_helo.
      change (helo_check (self w1) (body m)) with (helo_check (self w) (body m)).
      destruct (helo_check (self w) (body m)) as [| |pk sg [|]] eqn:Hchk;
        try apply store_kept_refl; [by apply store_kept_heap|].
      apply (store_kept_alter _ _ _ c (Connection.set_session pk sg rnd_iv rnd_key));
        [apply helo_trust_heap|].
      intros x _ _. apply helo_check_verified in Hchk as (Hpk & Hsg & Hown & Hver).
      unfold vouched. simpl. split; [done|]. split; [eauto|]. split; [eauto|].
      by exists (fst (helo_fields (body m))), pk. }
    destruct (Connection.trusted conn); [|apply store_kept_refl].
    destruct (loose_is _ type_trusted).
    { unfold receive_trusted.
      destruct (body m) as [| | t | | |]; try apply store_kept_refl.
      destruct (TrustedBody.iv t); [|apply store_kept_refl].
      destruct (TrustedBody.key t); [|apply store_kept_refl].
      destruct (_ ≫= rsa_decrypt _) as [peerIv|]; [|apply store_kept_refl].
      set (w2 := update_connection c (Connection.set_peerIv (Some peerIv)) w1).
      assert (store_kept (self w) w1 w2) as H2.
      { apply (store_kept_alter _ _ _ c (Connection.set_peerIv (Some peerIv))); [done|].
        intros x _. by apply vouched_kept. }
      destruct (_ ≫= rsa_decrypt _) as [peerKey|]; [|exact H2].
      match goal with |- context [update_connection c ?f (effect ?e ?v)] =>
        set (w4 := update_connection c f (effect e v)) end.
      assert (store_kept (self w) w1 w4) as H4.
      { apply store_kept_trans with w2; [exact H2|].
        apply store_kept_trans
          with (update_connection c (Connection.set_peerKey (Some peerKey)) w2).
        - apply (store_kept_alter _ _ _ c (Connection.set_peerKey (Some peerKey))); [done|].
          intros x _. by apply vouched_kept.
        - eapply store_kept_alter; [reflexivity|].
          intros x _ Hx. apply record_listening_kept.
          destruct (TrustedBody.requireConfirmation t); [|done].
          revert Hx. by apply vouched_kept. }
      destruct (listening_throws _); [exact H4|].
      destruct (TrustedBody.peers t) as [l|]; [|exact H4].
      pose proof (gossip_heap w4 l) as Hg.
      destruct (gossip w4 l) as [w5 ok]. simpl in Hg.
      assert (store_kept (self w) w1 w5) as H5.
      { apply store_kept_trans with w4; [exact H4 | by apply store_kept_heap]. }
      destruct ok; [destruct (_ <? _)%nat|]; exact H5. }
    destruct (loose_is _ type_confirm).
    { unfold receive_confirm. destruct (negb _); [apply store_kept_refl|].
      destruct (Header.confirm (header m)) as [| |[h|] [ts|]]; try apply store_kept_refl.
      destruct (confirm_loop _ _ _ _) as [l'|]; [|apply store_kept_refl].
      apply (store_kept_alter _ _ _ c (Connection.set_unconfirmedMessages l')); [done|].
      intros x _. by apply vouched_kept. }
    destruct (loose_is _ type_peers).
    { unfold receive_peers. destruct (getPeerList _ _); [|apply store_kept_refl].
      destruct (rsa_sign _ _); [by apply store_kept_heap | apply store_kept_refl]. }
    unfold receive_data. destruct (open_frame conn m) as [b|]; [|apply store_kept_refl].
    destruct (Connection.requireConfirmation conn).
    + pose proof (broadcast_kept (self w) w1 now
        (OptObject (Some (ArgPeerMessage (confirmation_for (set_body b m) now))) (Some c)))
        as Hk.
      destruct (broadcast w1 now _) as [w2 r]. simpl in Hk.
      destruct r as [v| |]; try exact Hk.
      apply store_kept_trans with w2; [exact Hk|].
      destruct (Header.type (header (set_body b m))); by apply store_kept_heap.
    + destruct (Header.type (header (set_body b m))); by apply store_kept_heap.
Qed.

Lemma setupConnection_identity w now a :
  identity (self (fst (setupConnection w now a))) = identity (self w).
Proof. unfold setupConnection. by destruct (helo_message (self w) now). Qed.

Lemma vouched_new s a : vouched s (new_connection a).
Proof. done. Qed.

Lemma discovery_only_identity w w' :
  discovery_only w w' -> identity (self w') = identity (self w).
Proof.
  intros (_ & Hs & _). unfold queue_aside in Hs.
  apply (f_equal (fun s => Peer.set_peers [] (Peer.set_discovering false s))) in Hs.
  exact Hs.
Qed.

Lemma discovery_only_rows w w' :
  discovery_only w w' -> Peer.peers (self w') = Peer.peers (self w).
Proof. intros (_ & Hs & _). by apply (f_equal Peer.peers) in Hs. Qed.

Lemma discover_facts fuel w o :
  discover fuel w = Some o ->
  heap (fst o) = heap w
  /\ identity (self (fst o)) = identity (self w)
  /\ Peer.peers (self (fst o)) = Peer.peers (self w).
Proof.
  intros Hrun. destruct (discover_cases _ _ _ Hrun) as [[_ ->]|[_ Honly]]; [done|].
  pose proof (discovery_only_identity _ _ Honly) as Hi.
  pose proof (discovery_only_rows _ _ Honly) as Hr.
  destruct Honly as (Hh & _). by repeat split.
Qed.

(** What a step does to the identity, the rows and the store. *)
Lemma step_facts w w' :
  step w w' ->
  identity (self w') = identity (self w)
  /\ (exists new,
        heap w' = take (length (heap w)) (heap w') ++ new
        /\ length (take (length (heap w)) (heap w')) = length (heap w)
        /\ map PeerEntry.connection (Peer.peers (self w'))
           = map PeerEntry.connection (Peer.peers (self w))
             ++ seq (length (heap w)) (length new)
        /\ (Forall (vouched (self w)) (heap w) -> Forall (vouched (self w)) (heap w'))).
Proof.
  assert (forall v v' : World,
    map PeerEntry.connection (Peer.peers (self v'))
    = map PeerEntry.connection (Peer.peers (self v)) ->
    store_kept (self v) v v' ->
    exists new,
      heap v' = take (length (heap v)) (heap v') ++ new
      /\ length (take (length (heap v)) (heap v')) = length (heap v)
      /\ map PeerEntry.connection (Peer.peers (self v'))
         = map PeerEntry.connection (Peer.peers (self v)) ++ seq (length (heap v)) (length new)
      /\ (Forall (vouched (self v)) (heap v) -> Forall (vouched (self v)) (heap v'))) as Hkept.
  { intros v v' Hrows [Hlen Hv]. exists [].
    rewrite <- Hlen, firstn_all, app_nil_r. simpl. rewrite app_nil_r. by repeat split. }
  assert (forall (v : World) now a,
    exists new,
      heap (fst (setupConnection v now a))
      = take (length (heap v)) (heap (fst (setupConnection v now a))) ++ new
      /\ length (take (length (heap v)) (heap (fst (setupConnection v now a))))
         = length (heap v)
      /\ map PeerEntry.connection (Peer.peers (self (fst (setupConnection v now a))))
         = map PeerEntry.connection (Peer.peers (self v)) ++ seq (length (heap v)) (length new)
      /\ (Forall (vouched (self v)) (heap v) ->
          Forall (vouched (self v)) (heap (fst (setupConnection v now a))))) as Hsetup.
  { intros v now a. exists [new_connection a].
    rewrite setupConnection_heap, setupConnection_peers, take_app_length, map_app.
    split; [done|]. split; [done|]. split; [done|].
    intros Hv. apply Forall_app. split; [done|]. by repeat constructor. }
  intros Hstep. destruct Hstep.
  - split; [apply setupConnection_identity | apply Hsetup].
  - destruct (receive_facts w now rnd_iv rnd_key c message) as (Hi & Hr & Hk).
    split; [done | by apply Hkept].
  - split; [by rewrite broadcast_self|]. apply Hkept; [by rewrite broadcast_self|].
    apply broadcast_kept.
  - split; [done|]. apply Hkept; [done|].
    eapply store_kept_alter; [reflexivity|]. intros x _. by apply vouched_kept.
  - assert (identity (self (fst (on_close w now c code))) = identity (self w)
            /\ Peer.peers (self (fst (on_close w now c code))) = Peer.peers (self w)
            /\ heap (fst (on_close w now c code))
               = alter (fun x => Connection.set_active (Some (utc_seconds now))
                                   (Connection.set_trusted false x)) c (heap w))
      as (Hi & Hr & Hh).
    { unfold on_close. destruct (heap _ !! c) as [conn|]; [|done].
      destruct (code =? 1000)%Z; [done|].
      destruct (Connection.peerPublicKeySignature conn); [|done].
      simpl. by destruct (Peer.discovering (self w)). }
    split; [done|]. apply Hkept; [by rewrite Hr|].
    apply (store_kept_alter _ _ _ _ _ Hh). intros x _.
    by apply (vouched_kept _ (fun x => Connection.set_active (Some (utc_seconds now))
                                         (Connection.set_trusted false x))).
  - assert (self (fst (fire_retry w now c msg)) = self w
            /\ store_kept (self w) w (fst (fire_retry w now c msg))) as [Hs Hk].
    { unfold fire_retry. destruct (heap w !! c) as [conn|]; [|by split].
      destruct (retry_scan _ _) as [[|]|]; try by split.
      pose proof (broadcast_self w now (OptPeerMessage msg)) as Hbs.
      pose proof (broadcast_kept (self w) w now (OptPeerMessage msg)) as Hbk.
      destruct (broadcast w now (OptPeerMessage msg)) as [w' [v| |]]; by split. }
    split; [by rewrite Hs|]. apply Hkept; [by rewrite Hs | done].
  - destruct (discover_facts _ _ _ H) as (Hh & Hi & Hr).
    split; [done|]. apply Hkept; [by rewrite Hr | by apply store_kept_heap].
  - unfold on_connect in H.
    match type of H with context [setupConnection w now ?a] =>
      pose proof (Hsetup w now a) as (new & H1 & H2 & H3 & H4);
      pose proof (setupConnection_identity w now a) as Hi;
      destruct (setupConnection w now a) as [w1 c1]
    end.
    simpl in *. apply next_only in H.
    pose proof (discovery_only_identity _ _ H) as Hi2.
    pose proof (discovery_only_rows _ _ H) as Hr2.
    destruct H as (Hh & _). split; [congruence|].
    exists new. by rewrite Hh, Hr2.
  - unfold on_connectFailed in H. apply next_only in H.
    pose proof (discovery_only_identity _ _ H) as Hi2.
    pose proof (discovery_only_rows _ _ H) as Hr2.
    destruct H as (Hh & _). split; [done|].
    apply Hkept; [by rewrite Hr2 | by apply store_kept_heap].
Qed.

(** X19.  The table follows the store.  From a world in which row [i] of
    [self.peers] holds connection [i], every handler leads to such a world
    again: [setupConnection] appends one connection and its row, and no
    handler removes or reorders a row, also not when a connection closes,
    errs or fails the handshake.  The peer's port, address, range, keys,
    signature and [requireConfirmation] never change. *)
Theorem table_follows_store w0 w :
  aligned w0 ->
  reachable w0 w ->
  aligned w
  /\ length (heap w0) <= length (heap w)
  /\ length (Peer.peers (self w)) = length (heap w)
  /\ identity (self w) = identity (self w0).
Proof.
  intros H0 Hreach. induction Hreach as [|w w' Hreach IH Hstep].
  - split; [done|]. split; [done|]. split; [|done].
    apply (f_equal length) in H0. by rewrite length_map, length_seq in H0.
  - destruct IH as (Ha & Hlen & Hrows & Hid).
    destruct (step_facts _ _ Hstep) as (Hi & new & Hh & Htake & Hr & _).
    assert (length (heap w') = length (heap w) + length new) as Hlen'.
    { rewrite Hh, length_app, Htake. reflexivity. }
    assert (aligned w') as Ha'.
    { unfold aligned. rewrite Hr, Ha, Hlen', seq_app. reflexivity. }
    split; [exact Ha'|]. split; [lia|]. split; [|congruence].
    apply (f_equal length) in Ha'. by rewrite length_map, length_seq in Ha'.
Qed.

(** X20.  Trust is always vouched for.  In every world that the handlers
    reach from one without connections, a connection that is marked
    trusted carries a signature that is not this peer's own and that the
    ring key verified for the public key text from which the connection's
    [peerPublicKey] was made, together with a session key and iv; and a
    connection without a signature is not trusted. *)
Theorem trust_is_vouched_for w0 w :
  heap w0 = [] ->
  reachable w0 w ->
  forall c x,
    heap w !! c = Some x ->
    (Connection.trusted x = true -> is_Some (Connection.peerPublicKeySignature x))
    /\ forall sg,
         Connection.peerPublicKeySignature x = Some sg ->
         isOwnSignature (self w) (Some sg) = false
         /\ is_Some (Connection.iv x) /\ is_Some (Connection.key x)
         /\ exists publicKey pk,
              NodeRSA_new publicKey = Some pk
              /\ Connection.peerPublicKey x = Some pk
              /\ rsa_verify (Peer.ringPublicKey (self w)) publicKey sg = Some true.
Proof.
  intros H0 Hreach.
  assert (Forall (vouched (self w)) (heap w)) as Hall.
  { induction Hreach as [|w w' Hreach IH Hstep]; [rewrite H0; constructor|].
    destruct (step_facts _ _ Hstep) as (Hi & new & _ & _ & _ & Hv).
    eapply Forall_impl; [exact (Hv IH)|]. intros x. apply vouched_ext.
    - by apply (f_equal Peer.ringPublicKey) in Hi.
    - by apply (f_equal Peer.signature) in Hi. }
  intros c x Hx. rewrite Forall_lookup in Hall. specialize (Hall c x Hx).
  unfold vouched in Hall. destruct (Connection.peerPublicKeySignature x) as [sg|].
  - split; [eauto|]. by intros sg' [= <-].
  - split; [intros Ht; congruence | discriminate].
Qed.

(** ** The PEERS branch *)

Lemma receive_peers_reply w now rnd_iv rnd_key c message m conn l sg :
  falsy message = false ->
  PeerMessage_of message = Some m ->
  heap w !! c = Some conn ->
  Connection.trusted conn = true ->
  loose_is (Header.type (header m)) type_helo = false ->
  loose_is (Header.type (header m)) type_trusted = false ->
  loose_is (Header.type (header m)) type_confirm = false ->
  loose_is (Header.type (header m)) type_peers = true ->
  getPeerList (stamp_active w now conn) None = Some l ->
  rsa_sign (Peer.privateKey (self w)) (JSON_stringify (BodyPeers l)) = Some sg ->
  receive w now rnd_iv rnd_key c message
  = (effect (Send c (mkMessage
                       (Header.set_signature (Some sg)
                          (Header.set_type (TNum type_peers)
                             (header (PeerMessage_new None None now))))
                       (BodyPeers l)))
            (stamp_active w now conn),
     Returned VUndefined).
Proof.
  intros Hf Hm Hc Ht Hh Htr Hcf Hp Hl Hsign.
  rewrite (receive_unfold _ _ _ _ _ _ _ _ Hf Hm Hc). simpl.
  rewrite Hh, Ht, Htr, Hcf, Hp. unfold receive_peers. rewrite Hl.
  change (Peer.privateKey (self (stamp_active w now conn))) with (Peer.privateKey (self w)).
  by rewrite Hsign.
Qed.

(** X21.  A PEERS message is answered in kind.  On a trusted connection a
    message of type PEERS is answered with one frame, written in the
    clear, that carries the whole peer list (nothing omitted) and has type
    PEERS itself; what the message carries is not read, and the queue
    stays as it is.  So when the type codes are distinct, the peer at the
    other end, which parses the answer to the same type, answers it in
    the same way. *)
Theorem peers_message_is_answered_in_kind
  w now rnd_iv rnd_key c message m conn l sg :
  falsy message = false ->
  PeerMessage_of message = Some m ->
  heap w !! c = Some conn ->
  Connection.trusted conn = true ->
  loose_is (Header.type (header m)) type_helo = false ->
  loose_is (Header.type (header m)) type_trusted = false ->
  loose_is (Header.type (header m)) type_confirm = false ->
  loose_is (Header.type (header m)) type_peers = true ->
  getPeerList (stamp_active w now conn) None = Some l ->
  rsa_sign (Peer.privateKey (self w)) (JSON_stringify (BodyPeers l)) = Some sg ->
  exists reply,
    receive w now rnd_iv rnd_key c message
    = (effect (Send c reply) (stamp_active w now conn), Returned VUndefined)
    /\ Header.type (header reply) = TNum type_peers
    /\ body reply = BodyPeers l
    /\ Peer.discoveryAddresses (self (fst (receive w now rnd_iv rnd_key c message)))
       = Peer.discoveryAddresses (self w)
    /\ heap (fst (receive w now rnd_iv rnd_key c message)) = heap w
    /\ (type_peers <> type_helo -> type_peers <> type_trusted -> type_peers <> type_confirm ->
        forall w2 now2 rnd_iv2 rnd_key2 c2 message2 m2 conn2 l2 sg2,
          falsy message2 = false ->
          PeerMessage_of message2 = Some m2 ->
          Header.type (header m2) = Header.type (header reply) ->
          heap w2 !! c2 = Some conn2 ->
          Connection.trusted conn2 = true ->
          getPeerList (stamp_active w2 now2 conn2) None = Some l2 ->
          rsa_sign (Peer.privateKey (self w2)) (JSON_stringify (BodyPeers l2)) = Some sg2 ->
          exists reply2,
            receive w2 now2 rnd_iv2 rnd_key2 c2 message2
            = (effect (Send c2 reply2) (stamp_active w2 now2 conn2), Returned VUndefined)
            /\ Header.type (header reply2) = TNum type_peers).
Proof.
  intros Hf Hm Hc Ht Hh Htr Hcf Hp Hl Hsign.
  eexists. split;
    [exact (receive_peers_reply _ _ _ _ _ _ _ _ _ _ Hf Hm Hc Ht Hh Htr Hcf Hp Hl Hsign)|].
  rewrite (receive_peers_reply _ _ _ _ _ _ _ _ _ _ Hf Hm Hc Ht Hh Htr Hcf Hp Hl Hsign).
  split; [done|]. split; [done|]. split; [done|]. split; [done|].
  intros N1 N2 N3 w2 now2 rnd_iv2 rnd_key2 c2 message2 m2 conn2 l2 sg2
         Hf2 Hm2 Hty Hc2 Ht2 Hl2 Hsign2.
  simpl in Hty. eexists. split.
  - apply (receive_peers_reply _ _ _ _ _ _ m2 conn2 l2 sg2); try done; rewrite Hty; simpl.
    + by apply Z.eqb_neq.
    + by apply Z.eqb_neq.
    + by apply Z.eqb_neq.
    + apply Z.eqb_refl.
  - reflexivity.
Qed.

(** ** [close] *)

Lemma close_fold ps w :
  fold_left (fun w p => effect (Close (PeerEntry.connection p)) w) ps w
  = mkWorld (self w) (heap w) (trace w ++ map (fun p => Close (PeerEntry.connection p)) ps).
Proof.
  revert w. induction ps as [|p ps IH]; intros w; simpl.
  - rewrite app_nil_r. by destruct w.
  - rewrite IH. simpl. by rewrite <- app_assoc.
Qed.

(** X22.  [close()] asks every row of the table to close, in table order
    and whatever state the connection is in, and touches nothing else: the
    table and the queue keep their entries, every connection keeps its
    [trusted] flag and its pending [unconfirmedMessages], and
    [discovering] is as before.  When the table follows the store, this
    is one [close()] for each connection ever set up, open or not. *)
Theorem close_asks_every_row s :
  self (world (close s)) = self (world s)
  /\ heap (world (close s)) = heap (world s)
  /\ added (world s) (world (close s))
     = map (fun p => Close (PeerEntry.connection p)) (Peer.peers (self (world s)))
  /\ ready (close s) = false
  /\ serving (close s) = false
  /\ (aligned (world s) ->
      added (world s) (world (close s)) = map Close (seq 0 (length (heap (world s))))).
Proof.
  unfold close. simpl. rewrite close_fold. simpl.
  split; [done|]. split; [done|].
  assert (added (world s)
            (mkWorld (self (world s)) (heap (world s))
               (trace (world s)
                ++ map (fun p => Close (PeerEntry.connection p)) (Peer.peers (self (world s)))))
          = map (fun p => Close (PeerEntry.connection p)) (Peer.peers (self (world s))))
    as Hadded by by apply added_app.
  split; [exact Hadded|]. split; [done|]. split; [done|].
  intros Ha. rewrite Hadded, <- Ha, map_map. reflexivity.
Qed.

(** ** After a connection has closed *)

Lemma has_signature_row w sg c conn ps :
  heap w !! c = Some conn ->
  Connection.peerPublicKeySignature conn = Some sg ->
  c ∈ map PeerEntry.connection ps ->
  existsb (has_signature w sg) ps = true.
Proof.
  intros Hc Hsg Hrow. apply elem_of_connections in Hrow as (p & Hp & Hpc).
  apply existsb_exists. exists p. split; [by apply list_elem_of_In|].
  unfold has_signature. rewrite Hpc, Hc, Hsg. by apply bool_decide_eq_true.
Qed.

(** X23.  A peer that was lost still counts as connected.  The close
    handler takes the [trusted] flag from the connection but leaves its
    signature and its row, so [isConnectedTo] answers as before for every
    candidate.  The candidate that an abnormal close puts on the queue is
    therefore one this peer counts as connected, and so is every peer-list
    entry with that signature: gossip intake and port expansion will not
    queue it. *)
Theorem lost_peer_still_counts_as_connected w now c code conn sg :
  heap w !! c = Some conn ->
  Connection.peerPublicKeySignature conn = Some sg ->
  c ∈ map PeerEntry.connection (Peer.peers (self w)) ->
  code <> 1000%Z ->
  let w' := fst (on_close w now c code) in
  let lost := Candidate.mk (default AddrNull (Connection.originalAddress conn)) (Some sg) None in
  (Connection.trusted <$> heap w' !! c) = Some false
  /\ Peer.discoveryAddresses (self w') = Peer.discoveryAddresses (self w) ++ [lost]
  /\ (forall d, isConnectedTo w' d = isConnectedTo w d)
  /\ isConnectedTo w' lost = true
  /\ (forall d, Candidate.signature d = Some sg -> offer w' d = w').
Proof.
  intros Hc Hsg Hrow Hcode. cbv zeta.
  assert (on_close w now c code
          = (let w1 := update_connection c
               (fun x => Connection.set_active (Some (utc_seconds now))
                           (Connection.set_trusted false x)) w in
             let w2 := set_self (fun s => Peer.set_discoveryAddresses
               (Peer.discoveryAddresses s
                ++ [Candidate.mk (default AddrNull (Connection.originalAddress conn))
                                 (Some sg) None]) s) w1 in
             if Peer.discovering (self w2) then w2
             else effect (SetTimeout 60000 RestartDiscovery) w2,
             Returned VUndefined)) as Hclose.
  { unfold on_close. rewrite lookup_update_connection_eq, Hc. simpl.
    apply Z.eqb_neq in Hcode. rewrite Hcode, Hsg. simpl.
    by destruct (Peer.discovering (self w)). }
  rewrite Hclose. cbv zeta.
  match goal with |- context [if ?b then ?x else ?y] => set (w' := if b then x else y) end.
  assert (heap w' = alter (fun x => Connection.set_active (Some (utc_seconds now))
                                      (Connection.set_trusted false x)) c (heap w)
          /\ Peer.peers (self w') = Peer.peers (self w)
          /\ Peer.signature (self w') = Peer.signature (self w)
          /\ Peer.discoveryAddresses (self w')
             = Peer.discoveryAddresses (self w)
               ++ [Candidate.mk (default AddrNull (Connection.originalAddress conn))
                                (Some sg) None]) as (Hh & Hp & Hs & Hq).
  { unfold w'. by destruct (Peer.discovering _). }
  assert (forall d, isConnectedTo w' d = isConnectedTo w d) as Hsame.
  { intros d. apply isConnectedTo_ext; [done | by rewrite Hp|].
    intros k. unfold signature_at. rewrite Hh.
    destruct (decide (c = k)) as [->|Hne].
    - rewrite list_lookup_alter_eq. by destruct (heap w !! k).
    - by rewrite list_lookup_alter_ne. }
  assert (forall d, Candidate.signature d = Some sg -> isConnectedTo w d = true) as Hknown.
  { intros d Hd. unfold isConnectedTo. rewrite Hd.
    rewrite (has_signature_row w sg c conn _ Hc Hsg Hrow). apply orb_true_r. }
  simpl. split; [by rewrite Hh, list_lookup_alter_eq, Hc|]. split; [exact Hq|].
  split; [exact Hsame|]. split; [rewrite Hsame; by apply Hknown|].
  intros d Hd. unfold offer. rewrite Hsame, (Hknown d Hd).
  by rewrite andb_false_r.
Qed.

(** ** Duplicates on the queue *)

(** X24.  The queue tells candidates apart by all their fields.  Two
    entries of a gossiped peer list with the same address and signature
    but different [created], [active] or [trusted] fields are both put on
    the queue (when the peer is not connected and neither is queued yet),
    so the same peer is dialed once for each. *)
Theorem gossip_queues_restamped_entries w a sg i1 i2 :
  i1 <> i2 ->
  String.prefix "::ffff:" a = false ->
  isConnectedTo w (Candidate.mk (AddrStr a) sg None) = false ->
  isOwnSignature (self w) sg = false ->
  Candidate.mk (AddrStr a) sg i1 ∉ Peer.discoveryAddresses (self w) ->
  Candidate.mk (AddrStr a) sg i2 ∉ Peer.discoveryAddresses (self w) ->
  gossip w [Candidate.mk (AddrStr a) sg i1; Candidate.mk (AddrStr a) sg i2]
  = (set_self (Peer.set_discoveryAddresses
                 (Peer.discoveryAddresses (self w)
                  ++ [Candidate.mk (AddrStr a) sg i1; Candidate.mk (AddrStr a) sg i2])) w,
     true).
Proof.
  intros Hi Hpre Hcon Hown H1 H2. simpl. rewrite Hpre.
  change (Candidate.set_address (AddrStr a) (Candidate.mk (AddrStr a) sg i1))
    with (Candidate.mk (AddrStr a) sg i1).
  change (Candidate.set_address (AddrStr a) (Candidate.mk (AddrStr a) sg i2))
    with (Candidate.mk (AddrStr a) sg i2).
  set (d1 := Candidate.mk (AddrStr a) sg i1). set (d2 := Candidate.mk (AddrStr a) sg i2).
  assert (isConnectedTo w d1 = false) as Hc1 by exact Hcon.
  assert (isConnectedTo w d2 = false) as Hc2 by exact Hcon.
  assert (offer w d1
          = set_self (fun s => Peer.set_discoveryAddresses (Peer.discoveryAddresses s ++ [d1]) s) w)
    as Ho1.
  { unfold offer. rewrite inDiscoveryAddresses_elem, bool_decide_false by done.
    rewrite Hc1. unfold d1. simpl. by rewrite Hown. }
  rewrite Ho1.
  match goal with |- context [offer ?v d2] => set (w1 := v) end.
  assert (offer w1 d2
          = set_self (fun s => Peer.set_discoveryAddresses (Peer.discoveryAddresses s ++ [d2]) s) w1)
    as Ho2.
  { unfold offer. rewrite inDiscoveryAddresses_elem.
    rewrite bool_decide_false.
    - assert (isConnectedTo w1 d2 = isConnectedTo w d2) as ->.
      { apply discovery_only_isConnectedTo, discovery_only_queue. }
      rewrite Hc2.
      change (isOwnSignature (self w1) (Candidate.signature d2))
        with (isOwnSignature (self w) sg).
      by rewrite Hown.
    - simpl. rewrite elem_of_app, list_elem_of_singleton.
      intros [Hin|Heq]; [done|]. apply Hi. unfold d1, d2, Candidate.mk in Heq. congruence. }
  rewrite Ho2. unfold w1, set_self. simpl. by rewrite <- app_assoc.
Qed.

End Behaviour.

(** * The properties on the small implementation *)

#[local] Existing Instance Toy.runtime.

(** ** Where the specification's wording fails *)

(** C1, as worded, fails: B's HELO with a signature that the ring key
    does not verify leaves the connection open; no [close()] is asked. *)
Lemma C1_counterexample :
  rsa_verify "ring" (Some "B") "bogus" = Some false
  /\ ~ closes_without_reply Toy.accepted 0
         (receive Toy.accepted 2500 "iv" "key" 0 (PM (Toy.helo_from "B" "bogus"))).
Proof.
  split; [reflexivity|]. intros [Hclose _].
  vm_compute in Hclose. by apply elem_of_nil in Hclose.
Qed.

(** C2, as worded, fails: after B's connection has closed, B is still
    listed, from a connection that is not trusted. *)
Lemma C2_counterexample :
  getPeerList Toy.closed_B None = Some [Toy.entry_B false]
  /\ ~ listed_from_trusted Toy.closed_B [] (Toy.entry_B false).
Proof.
  split; [reflexivity|].
  intros (p & conn & sg & Hp & Hc & _ & _ & _ & Ht).
  assert (Peer.peers (self Toy.closed_B) = [PeerEntry.mk 0 1000 2000]) as Hps by reflexivity.
  rewrite Hps in Hp. apply list_elem_of_singleton in Hp as ->.
  vm_compute in Hc. injection Hc as <-. discriminate Ht.
Qed.

(** C3, as worded, fails: after A has closed the connection on which
    its own signature came back, the row of that connection is still in
    the table, whose size is 1. *)
Lemma C3_counterexample :
  isOwnSignature (self Toy.accepted) (Some (Toy.sign "ring" "A")) = true
  /\ Close 0 ∈ trace Toy.after_self_helo
  /\ ~ no_entry_for Toy.after_self_helo 0
  /\ length (Peer.peers (self Toy.after_self_helo)) = 1.
Proof.
  split; [reflexivity|]. split; [|split; [|reflexivity]].
  - vm_compute. apply elem_of_cons. right. apply elem_of_cons. by left.
  - intros Hno. apply Hno. vm_compute. apply elem_of_cons. by left.
Qed.

(** C4, as worded, fails: A broadcasts [hello] to B and to C, and B's
    receipt arrives within the window while C's does not.  When the
    timers fire, the one of B finds nothing and does nothing; the one of
    C finds its entry and broadcasts its copy again, to every row: a
    second frame of type MESSAGE, with the hash and timestamp of
    [hello], is written on the link to B. *)
Lemma C4_counterexample :
  let w1 := fst (broadcast Toy.both 3000 (OptPeerMessage Toy.hello)) in
  let w2 := fst (receive w1 3200 "" "" 0 (PM Toy.receipt)) in
  let w3 := fst (fire_retry w2 33000 0 Toy.sealed_hello) in
  let w4 := fst (fire_retry w3 33000 1 Toy.sealed_hello_C) in
  retries_on 0 (added Toy.both w1) = [(30000%Z, Toy.sealed_hello)]
  /\ retries_on 1 (added Toy.both w1) = [(30000%Z, Toy.sealed_hello_C)]
  /\ frames_on 0 (added Toy.both w1) = [Toy.sealed_hello]
  /\ unconfirmed_of w2 0 = Some []
  /\ w3 = w2
  /\ map (fun f => (Header.type (header f), Header.hash (header f), Header.timestamp (header f)))
         (frames_on 0 (added Toy.both w4))
     = [(TNum 4, "h3000", 3000%Z); (TNum 4, "h3000", 3000%Z)]
  /\ ~ one_message_frame Toy.both w4 0.
Proof.
  cbv zeta. split; [reflexivity|]. split; [reflexivity|]. split; [reflexivity|].
  split; [reflexivity|]. split; [reflexivity|]. split; [reflexivity|].
  unfold one_message_frame. vm_compute. discriminate.
Qed.

(** C5, as worded, fails: [hello] was pushed twice, and the second
    receipt of the same CONFIRM removes the second copy. *)
Lemma C5_counterexample :
  unconfirmed_of Toy.sent_twice 0 = Some [PM Toy.hello; PM Toy.hello]
  /\ unconfirmed_of Toy.confirmed_once 0 = Some [PM Toy.hello]
  /\ unconfirmed_of Toy.confirmed_twice 0 <> unconfirmed_of Toy.confirmed_once 0.
Proof.
  split; [reflexivity|]. split; [reflexivity|].
  vm_compute. discriminate.
Qed.

(** ** The theorems at work *)

(** C1 on the fresh connection and the HELO that the ring did not sign. *)
Lemma C1_witness :
  receive Toy.accepted 2500 "iv" "key" 0 (PM (Toy.helo_from "B" "bogus"))
  = (stamp_active Toy.accepted 2500 (Toy.connection0 Toy.accepted), Returned VUndefined)
  /\ heap (stamp_active Toy.accepted 2500 (Toy.connection0 Toy.accepted)) = heap Toy.accepted
  /\ trace (stamp_active Toy.accepted 2500 (Toy.connection0 Toy.accepted)) = trace Toy.accepted
  /\ added Toy.accepted (stamp_active Toy.accepted 2500 (Toy.connection0 Toy.accepted)) = [].
Proof.
  apply (C1_unverified_helo_is_ignored (RT:=Toy.runtime) Toy.accepted 2500 "iv" "key" 0
           (PM (Toy.helo_from "B" "bogus")) (Toy.helo_from "B" "bogus")
           (Toy.connection0 Toy.accepted) (Some "B") (Some "bogus") "B" "bogus");
    reflexivity.
Defined.

(** C2 on A's table after B's HELO, omitting another peer's signature. *)
Lemma C2_witness :
  exists p conn sg a,
    p ∈ Peer.peers (self Toy.trusted_B)
    /\ heap Toy.trusted_B !! PeerEntry.connection p = Some conn
    /\ Connection.peerPublicKeySignature conn = Some sg
    /\ Connection.originalAddress conn = Some (AddrStr a)
    /\ Candidate.signature (Toy.entry_B true) = Some sg
    /\ (sg ∉ default [] (Some ["ring/C"]))
    /\ Candidate.info (Toy.entry_B true)
       = Some (PeerInfo.mk (PeerEntry.created p) (PeerEntry.active p)
                           (Connection.trusted conn)).
Proof.
  apply (C2_peer_list_entries Toy.trusted_B (Some ["ring/C"]) [Toy.entry_B true]).
  - reflexivity.
  - apply list_elem_of_singleton. reflexivity.
Defined.

(** C3 on A's first connection, when A's own HELO comes back on it. *)
Lemma C3_witness :
  exists w2,
    receive Toy.accepted 2500 "iv" "key" 0 (PM (Toy.helo_from "A" (Toy.sign "ring" "A")))
    = (w2, Returned VUndefined)
    /\ trace w2 = trace Toy.accepted ++ [Close 0]
    /\ heap w2 = heap Toy.accepted
    /\ heap w2 !! 0 = Some (new_connection Toy.inbound)
    /\ map PeerEntry.connection (Peer.peers (self w2)) = [] ++ [0]
    /\ length (Peer.peers (self w2)) = 1.
Proof.
  exact (C3_self_helo_closes_and_row_remains (RT:=Toy.runtime) Toy.start 1500 2500 Toy.inbound "iv" "key"
           (PM (Toy.helo_from "A" (Toy.sign "ring" "A")))
           (Toy.helo_from "A" (Toy.sign "ring" "A"))
           (Some "A") (Some (Toy.sign "ring" "A")) "A" (Toy.sign "ring" "A")
           eq_refl eq_refl eq_refl eq_refl eq_refl eq_refl eq_refl).
Defined.

(** C4 when A sends [hello] to B and to C, and B's receipt comes back
    before the timer of B fires. *)
Lemma C4_witness :
  (snd (broadcast Toy.both 3000 (OptPeerMessage Toy.hello)) = Returned VThis
   /\ retries_on 0 (added Toy.both Toy.both_sent) = [(30000%Z, Toy.sealed_hello)]
   /\ frames_on 0 (added Toy.both Toy.both_sent) = [Toy.sealed_hello]
   /\ unconfirmed_of Toy.both_sent 0 = Some [PM Toy.hello])
  /\ fire_retry Toy.both_sent 33000 0 Toy.sealed_hello
     = (fst (broadcast Toy.both_sent 33000 (OptPeerMessage Toy.sealed_hello)),
        Returned VUndefined)
  /\ frames_on 0
       (added Toy.both
          (fst (fire_retry (fst (receive Toy.both_sent 3200 "" "" 0 (PM Toy.receipt)))
                           33000 0 Toy.sealed_hello)))
     = [Toy.sealed_hello]
  /\ fire_retry (fst (receive Toy.both_sent 3200 "" "" 0 (PM Toy.receipt)))
                33000 0 Toy.sealed_hello
     = (fst (receive Toy.both_sent 3200 "" "" 0 (PM Toy.receipt)), Returned VUndefined).
Proof.
  assert (Peer.peers (self Toy.both) <> []) as Hps by (vm_compute; discriminate).
  assert (NoDup (targets Toy.both (OptPeerMessage Toy.hello))) as Hnd.
  { vm_compute. repeat constructor; intros H; repeat (apply elem_of_cons in H as [H|H]; [lia|]);
      by apply elem_of_nil in H. }
  assert (forall k, k ∈ targets Toy.both (OptPeerMessage Toy.hello) ->
                    is_Some (heap Toy.both !! k)) as Hex.
  { intros k Hk. vm_compute in Hk.
    repeat (apply elem_of_cons in Hk as [->|Hk]; [vm_compute; eauto|]).
    by apply elem_of_nil in Hk. }
  assert (0 ∈ targets Toy.both (OptPeerMessage Toy.hello)) as Hin
    by (vm_compute; apply elem_of_cons; by left).
  destruct (C4_retry_reads_unconfirmed_when_it_fires (RT:=Toy.runtime) Toy.both 3000
              (OptPeerMessage Toy.hello) Toy.hello 0 (Toy.connection0 Toy.both) Toy.hello
              Hps eq_refl Hnd Hex Hin eq_refl eq_refl eq_refl eq_refl eq_refl eq_refl)
    as (Hfirst & Hfire & Hscenario).
  split; [exact Hfirst|]. split.
  { destruct (Hfire Toy.both_sent 33000%Z (Toy.connection0 Toy.both_sent) eq_refl) as [Hfound _].
    destruct (Hfound [PM Toy.hello] [] eq_refl) as [Heq _].
    - by repeat constructor.
    - exists Toy.hello. split; [apply elem_of_cons; by left|]. by split.
    - exact Heq. }
  destruct (Hscenario (PM Toy.receipt) Toy.receipt 3200%Z "" "" 33000%Z) as (H1 & _ & H3);
    try reflexivity; [constructor|].
  split; [exact H1 | exact H3].
Defined.

(** C5 when B's receipt for the one pending [hello] arrives, twice. *)
Lemma C5_witness :
  unconfirmed_of (fst (receive Toy.sent_once 3200 "" "" 0 (PM Toy.receipt))) 0 = Some []
  /\ heap (fst (receive (fst (receive Toy.sent_once 3200 "" "" 0 (PM Toy.receipt)))
                        3300 "" "" 0 (PM Toy.receipt)))
     = heap (fst (receive Toy.sent_once 3200 "" "" 0 (PM Toy.receipt))).
Proof.
  assert (Forall (fun x => is_pm x = true)
            (Connection.unconfirmedMessages (Toy.connection0 Toy.sent_once))) as Hpm.
  { vm_compute. repeat constructor. }
  destruct (C5_confirm_removes_last_matching_entry (RT:=Toy.runtime) Toy.sent_once 3200 "" "" 0
              (PM Toy.receipt) Toy.receipt (Toy.connection0 Toy.sent_once)
              "h3000" (pretty 3000%Z)
              eq_refl eq_refl eq_refl eq_refl eq_refl eq_refl eq_refl eq_refl eq_refl Hpm)
    as (_ & Hlist & _ & _ & _ & Hagain).
  split; [exact Hlist|].
  apply Hagain. vm_compute. lia.
Defined.

(** C6 on a frame that arrives before B's session key is known. *)
Lemma C6_witness :
  receive Toy.trusted_B 5000 "" "" 0 (PM Toy.damaged)
  = (stamp_active Toy.trusted_B 5000 (Toy.connection0 Toy.trusted_B), Returned VUndefined)
  /\ heap (stamp_active Toy.trusted_B 5000 (Toy.connection0 Toy.trusted_B))
     = heap Toy.trusted_B
  /\ trace (stamp_active Toy.trusted_B 5000 (Toy.connection0 Toy.trusted_B))
     = trace Toy.trusted_B.
Proof.
  apply (C6_failed_data_frame_is_dropped (RT:=Toy.runtime) Toy.trusted_B 5000 "" "" 0
           (PM Toy.damaged) Toy.damaged (Toy.connection0 Toy.trusted_B));
    try reflexivity.
  apply (decrypt_fails _ _ "x"); reflexivity.
Defined.

(** C7 at the failing input.  A has a connection on which B's HELO has
    not arrived yet and a trusted one to C, and [broadcast] is given
    [{ message: "hi" }], with libraries whose [PeerMessage] constructor
    takes the text of a message: the call throws at the first
    connection, nothing is written on it, and C is not served.  A
    [PeerMessage] passes the first connection in silence and reaches C. *)
Lemma C7_witness :
  let options := OptObject (Some (ArgString "hi")) None in
  let o := broadcast (RT:=Toy.parsing_runtime) Toy.waiting_and_C 3000 options in
  let o' := broadcast (RT:=Toy.parsing_runtime) Toy.waiting_and_C 3000 (OptPeerMessage Toy.hello) in
  targets Toy.waiting_and_C options = [0; 1]
  /\ Connection.trusted <$> heap Toy.waiting_and_C !! 0 = Some false
  /\ Connection.trusted <$> heap Toy.waiting_and_C !! 1 = Some true
  /\ snd o = Thrown
  /\ ~ skipped_silently Toy.waiting_and_C 0 o
  /\ fst o = Toy.waiting_and_C
  /\ frames_on 0 (added Toy.waiting_and_C (fst o')) = []
  /\ length (frames_on 1 (added Toy.waiting_and_C (fst o'))) = 1
  /\ snd o' = Returned VThis.
Proof.
  cbv zeta.
  destruct (C7_untrusted_connections_get_only_helo (RT:=Toy.parsing_runtime)
              Toy.waiting_and_C 3000 (OptObject (Some (ArgString "hi")) None) 0
              (Toy.connection0 Toy.waiting_and_C) eq_refl eq_refl)
    as (_ & _ & _ & _ & Hraw).
  destruct (Hraw "hi" eq_refl eq_refl) as (Hthrown & _ & _).
  { vm_compute. apply elem_of_cons. by left. }
  { vm_compute. discriminate. }
  split; [reflexivity|]. split; [reflexivity|]. split; [reflexivity|].
  split; [exact Hthrown|]. split.
  { intros [_ [v Hv]]. rewrite Hthrown in Hv. discriminate. }
  split; [reflexivity|].
  destruct (C7_untrusted_connections_get_only_helo (RT:=Toy.parsing_runtime)
              Toy.waiting_and_C 3000 (OptPeerMessage Toy.hello) 0
              (Toy.connection0 Toy.waiting_and_C) eq_refl eq_refl)
    as (_ & _ & Hother & _).
  destruct (Hother Toy.hello eq_refl eq_refl) as [Hnone _].
  split; [exact Hnone|]. split; reflexivity.
Defined.


(** C9 on a peer that does not require confirmation, with [hello] pending. *)
Lemma C9_witness :
  receive Toy.lenient_sent 8000 "" "" 0 (PM Toy.receipt)
  = (stamp_active Toy.lenient_sent 8000 (Toy.connection0 Toy.lenient_sent), Returned VUndefined)
  /\ heap (stamp_active Toy.lenient_sent 8000 (Toy.connection0 Toy.lenient_sent))
     = heap Toy.lenient_sent
  /\ trace (stamp_active Toy.lenient_sent 8000 (Toy.connection0 Toy.lenient_sent))
     = trace Toy.lenient_sent.
Proof.
  apply (C9_confirm_ignored_without_requireConfirmation (RT:=Toy.runtime) Toy.lenient_sent 8000 "" "" 0
           (PM Toy.receipt) Toy.receipt (Toy.connection0 Toy.lenient_sent));
    reflexivity.
Defined.

(** C10 on a connection that closes with code 1006 before any HELO. *)
Lemma C10_witness :
  snd (on_close Toy.accepted 9000 0 1006) = Thrown
  /\ Peer.discoveryAddresses (self (fst (on_close Toy.accepted 9000 0 1006)))
     = Peer.discoveryAddresses (self Toy.accepted)
  /\ trace (fst (on_close Toy.accepted 9000 0 1006)) = trace Toy.accepted.
Proof.
  assert (1006 <> 1000)%Z as Hcode by lia.
  destruct (C10_abnormal_close_reads_signature (RT:=Toy.runtime) Toy.accepted 9000 0 1006
              (Toy.connection0 Toy.accepted) eq_refl Hcode)
    as (Habsent & _ & _ & _).
  apply Habsent. reflexivity.
Defined.

(** ** The further properties at work *)

(** X1 on B's HELO, signed by the ring, on the fresh connection. *)
Lemma verified_helo_establishes_session_witness :
  heap (fst (receive Toy.accepted 2500 "iv" "key" 0
               (PM (Toy.helo_from "B" (Toy.sign "ring" "B")))))
  = alter (Connection.set_session "B" (Toy.sign "ring" "B") "iv" "key") 0 (heap Toy.accepted).
Proof.
  exact (proj1 (verified_helo_establishes_session (RT:=Toy.runtime) Toy.accepted 2500 "iv" "key" 0
                  (PM (Toy.helo_from "B" (Toy.sign "ring" "B")))
                  (Toy.helo_from "B" (Toy.sign "ring" "B"))
                  (Toy.connection0 Toy.accepted) "B" (Toy.sign "ring" "B")
                  eq_refl eq_refl eq_refl eq_refl eq_refl)).
Defined.

(** X2 on a HELO that carries no public key. *)
Lemma unparsable_helo_is_caught_witness :
  receive Toy.accepted 2500 "iv" "key" 0 (PM Toy.helo_without_key)
  = (stamp_active Toy.accepted 2500 (Toy.connection0 Toy.accepted), Returned VFalse).
Proof.
  apply (unparsable_helo_is_caught (RT:=Toy.runtime) Toy.accepted 2500 "iv" "key" 0
           (PM Toy.helo_without_key) Toy.helo_without_key (Toy.connection0 Toy.accepted));
    try reflexivity.
  left. reflexivity.
Defined.

(** X3 on an application message that arrives before any HELO. *)
Lemma untrusted_connection_accepts_only_helo_witness :
  receive Toy.accepted 2500 "iv" "key" 0 (PM Toy.hello)
  = (stamp_active Toy.accepted 2500 (Toy.connection0 Toy.accepted), Returned VUndefined).
Proof.
  apply (untrusted_connection_accepts_only_helo (RT:=Toy.runtime) Toy.accepted 2500 "iv" "key" 0
           (PM Toy.hello) Toy.hello (Toy.connection0 Toy.accepted));
    reflexivity.
Defined.

(** X4 on B's TRUSTED message. *)
Lemma trusted_message_records_session_witness :
  added Toy.trusted_B (Toy.session_B true) = [Emit "connection" (Some 0) None]
  /\ (Connection.peerKey <$> heap (Toy.session_B true) !! 0) = Some (Some "kB")
  /\ (Connection.peerIv <$> heap (Toy.session_B true) !! 0) = Some (Some "ivB").
Proof.
  destruct (trusted_message_records_session (RT:=Toy.runtime) Toy.trusted_B 2600 "" "" 0
              (PM (Toy.trusted_from_B (AddrStr "10.0.0.2") true))
              (Toy.trusted_from_B (AddrStr "10.0.0.2") true)
              (Toy.connection0 Toy.trusted_B) _ "ivB" "kB" "ivB"
              eq_refl eq_refl eq_refl eq_refl eq_refl eq_refl eq_refl eq_refl eq_refl eq_refl)
    as (Hadded & Hconn & _).
  split; [exact Hadded|]. unfold Toy.session_B. rewrite Hconn. split; reflexivity.
Defined.


(** X6 on a frame of B, when B asked for no confirmation. *)
Lemma data_frame_is_delivered_witness :
  added (Toy.session_B false) (fst (receive (Toy.session_B false) 4100 "" "" 0 (PM Toy.from_B)))
  = [Emit "message" (Some 0) (Some (set_body (BodyString "news") Toy.from_B))].
Proof.
  assert (heap (Toy.session_B false) !! 0 = Some (Toy.connection0 (Toy.session_B false)))
    as Hc by (vm_compute; reflexivity).
  assert (Connection.trusted (Toy.connection0 (Toy.session_B false)) = true)
    as Ht by (vm_compute; reflexivity).
  assert (open_frame (Toy.connection0 (Toy.session_B false)) Toy.from_B
          = Some (BodyString "news")) as Hopen by (vm_compute; reflexivity).
  assert (Connection.requireConfirmation (Toy.connection0 (Toy.session_B false)) = false)
    as Hrc by (vm_compute; reflexivity).
  exact (proj2 (proj2
           (data_frame_is_delivered (RT:=Toy.runtime) (Toy.session_B false) 4100 "" "" 0
              (PM Toy.from_B) Toy.from_B (Toy.connection0 (Toy.session_B false))
              (BodyString "news")
              eq_refl eq_refl Hc Ht eq_refl eq_refl eq_refl eq_refl Hopen Hrc))).
Defined.

(** X7 on the same frame, when B asked for confirmation. *)
Lemma data_frame_is_acknowledged_witness :
  heap (fst (receive (Toy.session_B true) 4100 "" "" 0 (PM Toy.from_B)))
  = alter (pushes 1 (PM (confirmation_for (set_body (BodyString "news") Toy.from_B) 4100)))
          0 (heap (Toy.session_B true)).
Proof.
  assert (Peer.peers (self (Toy.session_B true)) <> []) as Hps by (vm_compute; discriminate).
  assert (heap (Toy.session_B true) !! 0 = Some (Toy.connection0 (Toy.session_B true)))
    as Hc by (vm_compute; reflexivity).
  assert (Connection.trusted (Toy.connection0 (Toy.session_B true)) = true)
    as Ht by (vm_compute; reflexivity).
  assert (Connection.connected (Toy.connection0 (Toy.session_B true)) = true)
    as Hcon by (vm_compute; reflexivity).
  assert (open_frame (Toy.connection0 (Toy.session_B true)) Toy.from_B
          = Some (BodyString "news")) as Hopen by (vm_compute; reflexivity).
  assert (Connection.requireConfirmation (Toy.connection0 (Toy.session_B true)) = true)
    as Hrc by (vm_compute; reflexivity).
  destruct (data_frame_is_acknowledged (RT:=Toy.runtime) (Toy.session_B true) 4100 "" "" 0
              (PM Toy.from_B) Toy.from_B (Toy.connection0 (Toy.session_B true))
              (BodyString "news")
              (confirmation_for (set_body (BodyString "news") Toy.from_B) 4100)
              eq_refl eq_refl Hc Ht Hcon Hps eq_refl eq_refl eq_refl eq_refl
              Hopen Hrc eq_refl eq_refl)
    as (_ & _ & Hheap & _).
  exact Hheap.
Defined.

(** X8 on [hello], sealed by A for B and opened at B's end. *)
Lemma sealed_frame_opens_witness :
  open_frame Toy.B_side (fst (seal Toy.peerA (Toy.connection0 Toy.trusted_B) Toy.hello))
  = Some (BodyString "hello").
Proof.
  exact (proj2
           (sealed_frame_opens (RT:=Toy.runtime) Toy.peerA (Toy.connection0 Toy.trusted_B)
              Toy.hello Toy.B_side "hello" (Toy.sign "A" "hello") "keyhello" "A"
              eq_refl eq_refl eq_refl eq_refl eq_refl eq_refl eq_refl eq_refl)).
Defined.

(** X9 on the broadcast of [hello] to B. *)
Lemma broadcast_frame_witness :
  self (fst (broadcast Toy.trusted_B 3000 (OptPeerMessage Toy.hello))) = self Toy.trusted_B.
Proof.
  exact (proj1 (broadcast_frame (RT:=Toy.runtime) Toy.trusted_B 3000 (OptPeerMessage Toy.hello))).
Defined.

(** X10 when B's timer fires at A, which is connected to B and to C: C
    gets the sealed copy as well. *)
Lemma retry_reaches_every_connection_witness :
  snd (fire_retry Toy.both_sent 33000 0 Toy.sealed_hello) = Returned VUndefined
  /\ unconfirmed_of (fst (fire_retry Toy.both_sent 33000 0 Toy.sealed_hello)) 1
     = Some [PM Toy.hello; PM Toy.sealed_hello].
Proof.
  assert (Peer.peers (self Toy.both_sent) <> []) as Hps by (vm_compute; discriminate).
  assert (NoDup (map PeerEntry.connection (Peer.peers (self Toy.both_sent)))) as Hnd.
  { vm_compute. repeat constructor; intros H; repeat (apply elem_of_cons in H as [H|H]; [lia|]);
      by apply elem_of_nil in H. }
  assert (forall k, k ∈ map PeerEntry.connection (Peer.peers (self Toy.both_sent)) ->
                    is_Some (heap Toy.both_sent !! k)) as Hex.
  { intros k Hk. vm_compute in Hk.
    repeat (apply elem_of_cons in Hk as [->|Hk]; [vm_compute; eauto|]).
    by apply elem_of_nil in Hk. }
  destruct (retry_reaches_every_connection (RT:=Toy.runtime) Toy.both_sent 33000 0
              Toy.sealed_hello (Toy.connection0 Toy.both_sent) Toy.sealed_hello
              eq_refl eq_refl Hps Hnd Hex eq_refl)
    as (Hret & _ & Hheap & _).
  split; [exact Hret|]. unfold unconfirmed_of. rewrite Hheap. reflexivity.
Defined.

(** X11 on the retry of [hello]: B's end opens the frame to the first
    ciphertext. *)
Lemma retried_frame_carries_ciphertext_witness :
  open_frame Toy.B_side
    (fst (seal Toy.peerA (Toy.connection0 Toy.trusted_B) Toy.sealed_hello))
  = Some (BodyString "keyhello").
Proof.
  exact (proj2 (proj2
           (retried_frame_carries_ciphertext (RT:=Toy.runtime) Toy.peerA
              (Toy.connection0 Toy.trusted_B) Toy.hello Toy.sealed_hello Toy.B_side
              (Toy.sign "A" "hello") "keyhello" "keyhello" (Toy.sign "A" "keyhello")
              "keykeyhello" "A"
              eq_refl eq_refl eq_refl eq_refl eq_refl eq_refl eq_refl eq_refl eq_refl eq_refl
              eq_refl eq_refl))).
Defined.

(** X12 when A sends the text [hi] to B through the options object and
    B's receipt for another message arrives. *)
Lemma string_message_breaks_confirmation_witness :
  unconfirmed_of
    (fst (broadcast (RT:=Toy.parsing_runtime) Toy.trusted_B 3000
            (OptObject (Some (ArgString "hi")) (Some 0)))) 0
  = Some [Raw "hi"]
  /\ snd (receive (RT:=Toy.parsing_runtime)
            (fst (broadcast (RT:=Toy.parsing_runtime) Toy.trusted_B 3000
                    (OptObject (Some (ArgString "hi")) (Some 0))))
            3200 "" "" 0 (PM Toy.receipt))
     = Thrown.
Proof.
  assert (Peer.peers (self Toy.trusted_B) <> []) as Hps by (vm_compute; discriminate).
  assert ("hi" <> "") as Hs by discriminate.
  destruct (string_message_breaks_confirmation (RT:=Toy.parsing_runtime) Toy.trusted_B 3000
              "hi" 0 (Toy.connection0 Toy.trusted_B)
              (Toy.new_message (Some (TNum 4)) (Some (BodyString "hi")) 0)
              Hps Hs eq_refl eq_refl eq_refl eq_refl eq_refl)
    as (Hlist & Hconfirm & _).
  split; [exact Hlist|].
  apply (Hconfirm 3200%Z "" "" (PM Toy.receipt) Toy.receipt "h3000" (pretty 3000%Z));
    reflexivity.
Defined.

(** X13 on A's table after B's connection has closed. *)
Lemma peer_list_in_table_order_witness :
  [Toy.entry_B false]
  = omap (fun p => default None (peer_list_entry Toy.closed_B [] p))
         (Peer.peers (self Toy.closed_B)).
Proof.
  exact (proj1 (proj1 (peer_list_in_table_order Toy.closed_B None)
                  [Toy.entry_B false] eq_refl)).
Defined.

(** X14 when B reports [false] as its listening address. *)
Lemma false_listening_address_breaks_peer_list_witness :
  getPeerList
    (fst (receive Toy.trusted_B 2600 "" "" 0 (PM (Toy.trusted_from_B AddrFalse true)))) None
  = None.
Proof.
  assert (0 ∈ map PeerEntry.connection (Peer.peers (self Toy.trusted_B))) as Hrow.
  { vm_compute. apply elem_of_cons. by left. }
  assert (forall s, AddrFalse <> AddrStr s) as Ha by discriminate.
  destruct (false_listening_address_breaks_peer_list (RT:=Toy.runtime) Toy.trusted_B 2600 "" "" 0
              (PM (Toy.trusted_from_B AddrFalse true)) (Toy.trusted_from_B AddrFalse true)
              (Toy.connection0 Toy.trusted_B) _ "ivB" "kB" "ivB" "kB" (Toy.sign "ring" "B")
              AddrFalse (Some (PortNum 26781))
              eq_refl eq_refl eq_refl eq_refl eq_refl Hrow eq_refl eq_refl eq_refl eq_refl
              eq_refl eq_refl eq_refl eq_refl Ha)
    as (_ & Hlist & _).
  apply (Hlist None). apply not_elem_of_nil.
Defined.

(** X15 when a message arrives on the second of two connections from
    the same address: the first row gets the stamp. *)
Lemma message_stamps_first_row_with_address_witness :
  Peer.peers (self (fst (receive Toy.twice 7500 "" "" 1 (PM Toy.hello))))
  = [PeerEntry.mk 0 1000 7000; PeerEntry.mk 1 1000 1000].
Proof.
  destruct (message_stamps_first_row_with_address (RT:=Toy.runtime) Toy.twice 7500 "" "" 1
              (PM Toy.hello) Toy.hello (new_connection Toy.inbound) (AddrStr "10.0.0.2")
              eq_refl eq_refl eq_refl eq_refl)
    as [Hfirst _].
  apply (Hfirst [] (PeerEntry.mk 0 1000 1000) [PeerEntry.mk 1 1000 1000]).
  - reflexivity.
  - constructor.
  - reflexivity.
Defined.

(** X16 on the discovery of the one candidate without a port. *)
Lemma discovery_frame_witness :
  discover 2 Toy.seeking = Some Toy.sought
  /\ heap (fst Toy.sought) = heap Toy.seeking
  /\ Peer.discovering (self (fst Toy.sought)) = true.
Proof.
  assert (discover 2 Toy.seeking = Some Toy.sought) as Hrun by (vm_compute; reflexivity).
  destruct (discovery_frame (RT:=Toy.runtime) 2 Toy.seeking Toy.sought Hrun)
    as (Hheap & _ & Hflag & _).
  split; [exact Hrun|]. split; [exact Hheap | exact Hflag].
Defined.

(** X17 on the same run, and B's connection breaking down afterwards. *)
Lemma discovering_flag_stays_set_witness :
  Peer.discovering (self (fst Toy.sought)) = true
  /\ added (set_self (Peer.set_discovering true) Toy.trusted_B)
           (fst (on_close (set_self (Peer.set_discovering true) Toy.trusted_B) 9000 0 1006))
     = [].
Proof.
  assert (discover 2 Toy.seeking = Some Toy.sought) as Hrun by (vm_compute; reflexivity).
  assert (Peer.discoveryAddresses (self Toy.seeking) <> []) as Hq by (vm_compute; discriminate).
  assert (1006 <> 1000)%Z as Hcode by lia.
  destruct (discovering_flag_stays_set (RT:=Toy.runtime) 2 Toy.seeking Toy.sought Hrun Hq)
    as (Hflag & Hlater).
  split; [exact Hflag|].
  destruct (Hlater (set_self (Peer.set_discovering true) Toy.trusted_B) eq_refl)
    as (_ & _ & Hclose).
  destruct (Hclose 9000%Z 0 1006%Z (Toy.connection0 Toy.trusted_B) (Toy.sign "ring" "B")
              eq_refl eq_refl Hcode) as (Hadded & _).
  exact Hadded.
Defined.

(** X18 when B, to which A is connected, is alone on the queue: the
    event comes first, the dial after it. *)
Lemma connected_candidates_are_dialed_too_witness :
  discoverOne 2 Toy.returning
  = Some (mkWorld (Peer.set_discoveryAddresses [] (self Toy.returning)) (heap Toy.returning)
                  (trace Toy.returning
                   ++ [Emit "discovered" None None; Toy.dial_B_again]),
          Returned VUndefined).
Proof.
  assert (Forall (fun d => isConnectedTo Toy.returning d = true) [Toy.B_again]) as Hcon.
  { repeat constructor. }
  assert (Forall2 (fun d e => dial_of d = Some e) [Toy.B_again] [Toy.dial_B_again]) as Hdials.
  { repeat constructor. }
  assert (length [Toy.B_again] <= 1) as Hfuel by (simpl; lia).
  assert ([Toy.B_again] <> []) as Hne by discriminate.
  exact (proj1 (connected_candidates_are_dialed_too (RT:=Toy.runtime) 1 Toy.returning
                  [Toy.B_again] [] [Toy.dial_B_again] eq_refl Hcon Hdials Hfuel)
               eq_refl Hne).
Defined.

(** X19 on A after it has accepted B and verified its HELO. *)
Lemma table_follows_store_witness :
  aligned Toy.trusted_B /\ length (Peer.peers (self Toy.trusted_B)) = length (heap Toy.trusted_B).
Proof.
  assert (aligned Toy.start) as H0 by reflexivity.
  assert (reachable Toy.start Toy.trusted_B) as Hreach.
  { apply (reachable_step _ Toy.accepted).
    - apply (reachable_step _ Toy.start); [constructor|].
      apply (step_setupConnection Toy.start 1500%Z Toy.inbound).
    - apply (step_receive Toy.accepted 2500%Z "iv" "key" 0
               (PM (Toy.helo_from "B" (Toy.sign "ring" "B")))). }
  destruct (table_follows_store (RT:=Toy.runtime) Toy.start Toy.trusted_B H0 Hreach)
    as (Ha & _ & Hlen & _).
  split; [exact Ha | exact Hlen].
Defined.

(** X20 on B's connection at A. *)
Lemma trust_is_vouched_for_witness :
  isOwnSignature (self Toy.trusted_B) (Some (Toy.sign "ring" "B")) = false
  /\ exists publicKey pk,
       NodeRSA_new publicKey = Some pk
       /\ Connection.peerPublicKey (Toy.connection0 Toy.trusted_B) = Some pk
       /\ rsa_verify (Peer.ringPublicKey (self Toy.trusted_B)) publicKey (Toy.sign "ring" "B")
          = Some true.
Proof.
  assert (reachable Toy.start Toy.trusted_B) as Hreach.
  { apply (reachable_step _ Toy.accepted).
    - apply (reachable_step _ Toy.start); [constructor|].
      apply (step_setupConnection Toy.start 1500%Z Toy.inbound).
    - apply (step_receive Toy.accepted 2500%Z "iv" "key" 0
               (PM (Toy.helo_from "B" (Toy.sign "ring" "B")))). }
  destruct (trust_is_vouched_for (RT:=Toy.runtime) Toy.start Toy.trusted_B eq_refl Hreach
              0 (Toy.connection0 Toy.trusted_B) eq_refl) as [_ Hsg].
  destruct (Hsg (Toy.sign "ring" "B") eq_refl) as (Hown & _ & _ & Hver).
  split; [exact Hown | exact Hver].
Defined.

(** X21 on a PEERS request of B at A. *)
Lemma peers_message_is_answered_in_kind_witness :
  exists reply,
    receive Toy.trusted_B 6000 "" "" 0 (PM Toy.peers_request)
    = (effect (Send 0 reply) (stamp_active Toy.trusted_B 6000 (Toy.connection0 Toy.trusted_B)),
       Returned VUndefined)
    /\ Header.type (header reply) = TNum 3
    /\ body reply = BodyPeers [Toy.entry_B_at 6000].
Proof.
  destruct (peers_message_is_answered_in_kind (RT:=Toy.runtime) Toy.trusted_B 6000 "" "" 0
              (PM Toy.peers_request) Toy.peers_request (Toy.connection0 Toy.trusted_B)
              [Toy.entry_B_at 6000] (Toy.sign "A" "{}")
              eq_refl eq_refl eq_refl eq_refl eq_refl eq_refl eq_refl eq_refl eq_refl eq_refl)
    as (reply & Hrecv & Hty & Hbody & _).
  exists reply. split; [exact Hrecv|]. split; [exact Hty | exact Hbody].
Defined.

(** X22 on A with its connections to B and C. *)
Lemma close_asks_every_row_witness :
  added Toy.both (world (close (mkSite Toy.both true true))) = [Close 0; Close 1].
Proof.
  exact (proj1 (proj2 (proj2 (close_asks_every_row (mkSite Toy.both true true))))).
Defined.

(** X23 when B's connection to A breaks down: A still counts B as
    connected, with B back on the queue. *)
Lemma lost_peer_still_counts_as_connected_witness :
  Peer.discoveryAddresses (self (fst (on_close Toy.trusted_B 9000 0 1006)))
  = [Candidate.mk (AddrStr "10.0.0.2") (Some (Toy.sign "ring" "B")) None]
  /\ isConnectedTo (fst (on_close Toy.trusted_B 9000 0 1006))
       (Candidate.mk (AddrStr "10.0.0.2") (Some (Toy.sign "ring" "B")) None)
     = true.
Proof.
  assert (0 ∈ map PeerEntry.connection (Peer.peers (self Toy.trusted_B))) as Hrow.
  { vm_compute. apply elem_of_cons. by left. }
  assert (1006 <> 1000)%Z as Hcode by lia.
  destruct (lost_peer_still_counts_as_connected Toy.trusted_B 9000 0 1006
              (Toy.connection0 Toy.trusted_B) (Toy.sign "ring" "B")
              eq_refl eq_refl Hrow Hcode)
    as (_ & Hq & _ & Hcon & _).
  split; [exact Hq | exact Hcon].
Defined.

(** X24 when C is gossiped twice, heard from at different times. *)
Lemma gossip_queues_restamped_entries_witness :
  Peer.discoveryAddresses
    (self (fst (gossip Toy.trusted_B
                  [Candidate.mk (AddrStr "10.0.0.3:26781") (Some (Toy.sign "ring" "C"))
                                (Some (PeerInfo.mk 500 600 true));
                   Candidate.mk (AddrStr "10.0.0.3:26781") (Some (Toy.sign "ring" "C"))
                                (Some (PeerInfo.mk 500 700 true))])))
  = [Candidate.mk (AddrStr "10.0.0.3:26781") (Some (Toy.sign "ring" "C"))
                  (Some (PeerInfo.mk 500 600 true));
     Candidate.mk (AddrStr "10.0.0.3:26781") (Some (Toy.sign "ring" "C"))
                  (Some (PeerInfo.mk 500 700 true))].
Proof.
  assert (Some (PeerInfo.mk 500 600 true) <> Some (PeerInfo.mk 500 700 true)) as Hi
    by discriminate.
  exact (f_equal (fun o : World * bool => Peer.discoveryAddresses (self (fst o)))
           (gossip_queues_restamped_entries Toy.trusted_B "10.0.0.3:26781"
              (Some (Toy.sign "ring" "C"))
              (Some (PeerInfo.mk 500 600 true)) (Some (PeerInfo.mk 500 700 true))
              Hi eq_refl eq_refl eq_refl (not_elem_of_nil _) (not_elem_of_nil _))).
Defined.
